(** * The Narrator: conversation state, persistence and turn control

    A shallow embedding of the client-side core of the story-telling chat
    application ([src/unnamed/part_000], the structured-output variant, with
    [src/index.tsx] as the older session-object variant of the same
    persistence code).

    A JavaScript string is modelled by the Rocq [string] of its UTF-8
    bytes (a surrogate that is not part of a pair as the three bytes its
    code unit would take), so that ASCII text is itself.  The browser's
    [localStorage] is a [gmap string string].  [JSON.parse] and
    [JSON.stringify] are platform functions: they are modelled by a
    recursive-descent reader of the JSON grammar and by the compact writer.
    The writer leaves every character from U+0020 on as it is; the escape
    [JSON.stringify] writes for a surrogate that is not part of a pair is
    not modelled.

    The backend ([ai.models.generateContent]) is an external collaborator:
    its answer is an input of the model ([backend_result]).  An [async]
    function is split at its [await] into the part that runs before the
    request is issued and the continuation that runs when the answer
    arrives; other handlers may run in between.

    Of the page, the model keeps the children of the chat container (the
    messages and the quick replies).  The copy and regenerate buttons, the
    save-status label, the settings dialog and the genre buttons are left
    out. *)

From Stdlib Require Import Ascii String List Arith NArith ZArith Lia.
From Stdlib Require Import DecimalString DecimalNat.
From stdpp Require Import base option list strings gmap.

Set Warnings "-register-all".

Local Open Scope string_scope.
Local Open Scope list_scope.

(** ** Characters and strings *)

(** The double quote, which a string literal cannot hold conveniently. *)
Definition dquote : ascii := "034"%char.
Definition bslash : ascii := "092"%char.

(** [sq s] is [s] with every apostrophe turned into a double quote: a way
    to write JSON text in examples. *)
Fixpoint sq (s : string) : string :=
  match s with
  | EmptyString => EmptyString
  | String c r => String (if Ascii.eqb c "'" then dquote else c) (sq r)
  end.

Module JSON.

(** The values [JSON.parse] produces.  A number keeps its lexeme: the
    application never computes with numbers, it only tests truthiness. *)
Inductive value : Type :=
| JNull
| JBool (b : bool)
| JNum (lexeme : string)
| JStr (s : string)
| JArr (elements : list value)
| JObj (members : list (string * value)).

(** *** Writer: [JSON.stringify] without indentation *)

Definition hex_digit (n : nat) : ascii :=
  match n with
  | 0 => "0" | 1 => "1" | 2 => "2" | 3 => "3" | 4 => "4" | 5 => "5"
  | 6 => "6" | 7 => "7" | 8 => "8" | 9 => "9" | 10 => "a" | 11 => "b"
  | 12 => "c" | 13 => "d" | 14 => "e" | _ => "f"
  end%char.

(** QuoteJSONString, one byte at a time: only ASCII characters are escaped. *)
Definition escape_char (c : ascii) : string :=
  if Ascii.eqb c dquote then String "\" (String dquote "")
  else if Ascii.eqb c "\" then "\\"
  else if Ascii.eqb c "008" then "\b"
  else if Ascii.eqb c "012" then "\f"
  else if Ascii.eqb c "010" then "\n"
  else if Ascii.eqb c "013" then "\r"
  else if Ascii.eqb c "009" then "\t"
  else if (nat_of_ascii c <? 32)%nat then
    "\u00" +:+ String (hex_digit (nat_of_ascii c / 16))
                 (String (hex_digit (nat_of_ascii c mod 16)) "")
  else String c "".

Fixpoint escape_chars (s : string) : string :=
  match s with
  | EmptyString => EmptyString
  | String c r => escape_char c +:+ escape_chars r
  end.

Definition quote (s : string) : string :=
  String dquote (escape_chars s +:+ String dquote "").

Fixpoint stringify (v : value) : string :=
  match v with
  | JNull => "null"
  | JBool true => "true"
  | JBool false => "false"
  | JNum lexeme => lexeme
  | JStr s => quote s
  | JArr [] => "[]"
  | JArr (x :: l) =>
      "[" +:+ stringify x +:+
      (fix more (l : list value) : string :=
         match l with
         | [] => "]"
         | y :: l' => "," +:+ stringify y +:+ more l'
         end) l
  | JObj [] => "{}"
  | JObj ((k, x) :: l) =>
      "{" +:+ quote k +:+ ":" +:+ stringify x +:+
      (fix more (l : list (string * value)) : string :=
         match l with
         | [] => "}"
         | (k', y) :: l' => "," +:+ quote k' +:+ ":" +:+ stringify y +:+ more l'
         end) l
  end.

(** *** Reader: [JSON.parse] *)

Definition is_ws (c : ascii) : bool :=
  (Ascii.eqb c " " || Ascii.eqb c "009" || Ascii.eqb c "010"
   || Ascii.eqb c "013")%char.

Fixpoint skip_ws (s : string) : string :=
  match s with
  | String c r => if is_ws c then skip_ws r else s
  | EmptyString => s
  end.

Definition is_digit (c : ascii) : bool :=
  ((48 <=? nat_of_ascii c) && (nat_of_ascii c <=? 57))%nat.

Definition hex_value (c : ascii) : option nat :=
  let n := nat_of_ascii c in
  if ((48 <=? n) && (n <=? 57))%nat then Some (n - 48)
  else if ((97 <=? n) && (n <=? 102))%nat then Some (n - 87)
  else if ((65 <=? n) && (n <=? 70))%nat then Some (n - 55)
  else None.

Definition hex4 (h1 h2 h3 h4 : ascii) : option N :=
  match hex_value h1, hex_value h2, hex_value h3, hex_value h4 with
  | Some a, Some b, Some c, Some d =>
      Some (N.of_nat a * 4096 + N.of_nat b * 256 + N.of_nat c * 16
            + N.of_nat d)%N
  | _, _, _, _ => None
  end.

(** The bytes that stand for a code point: one byte below 128, two below
    2048, three below 65536 (a surrogate on its own included), four above. *)
Definition utf8 (n : N) : string :=
  let byte (k : N) := ascii_of_N k in
  (if n <? 128 then String (byte n) ""
   else if n <? 2048 then
     String (byte (192 + n / 64)) (String (byte (128 + n mod 64)) "")
   else if n <? 65536 then
     String (byte (224 + n / 4096))
       (String (byte (128 + (n / 64) mod 64))
          (String (byte (128 + n mod 64)) ""))
   else
     String (byte (240 + n / 262144))
       (String (byte (128 + (n / 4096) mod 64))
          (String (byte (128 + (n / 64) mod 64))
             (String (byte (128 + n mod 64)) ""))))%N.

Definition is_high_surrogate (n : N) : bool := ((55296 <=? n) && (n <=? 56319))%N.
Definition is_low_surrogate (n : N) : bool := ((56320 <=? n) && (n <=? 57343))%N.

(** The code point a surrogate pair stands for. *)
Definition surrogate_pair (high low : N) : N :=
  (65536 + (high - 55296) * 1024 + (low - 56320))%N.

(** The characters of a string literal, after its opening quote, up to and
    including the closing quote.  A unicode escape names a code unit; a high
    surrogate followed by the escape of a low surrogate makes one code
    point with it. *)
Fixpoint parse_chars (s : string) : option (string * string) :=
  let keep (c : ascii) (r : option (string * string)) :=
    match r with
    | Some (t, rest) => Some (String c t, rest)
    | None => None
    end in
  let keep_all (p : string) (r : option (string * string)) :=
    match r with
    | Some (t, rest) => Some (p +:+ t, rest)
    | None => None
    end in
  match s with
  | EmptyString => None
  | String c r =>
      if Ascii.eqb c dquote then Some (EmptyString, r)
      else if Ascii.eqb c bslash then
        match r with
        | String e r1 =>
            if Ascii.eqb e dquote then keep dquote (parse_chars r1)
            else if Ascii.eqb e bslash then keep bslash (parse_chars r1)
            else if Ascii.eqb e "/" then keep "/"%char (parse_chars r1)
            else if Ascii.eqb e "b" then keep "008"%char (parse_chars r1)
            else if Ascii.eqb e "f" then keep "012"%char (parse_chars r1)
            else if Ascii.eqb e "n" then keep "010"%char (parse_chars r1)
            else if Ascii.eqb e "r" then keep "013"%char (parse_chars r1)
            else if Ascii.eqb e "t" then keep "009"%char (parse_chars r1)
            else if Ascii.eqb e "u" then
              match r1 with
              | String h1 (String h2 (String h3 (String h4 r2))) =>
                  match hex4 h1 h2 h3 h4 with
                  | Some n =>
                      if is_high_surrogate n then
                        match r2 with
                        | String b (String u (String g1 (String g2
                            (String g3 (String g4 r3))))) =>
                            if Ascii.eqb b bslash && Ascii.eqb u "u" then
                              match hex4 g1 g2 g3 g4 with
                              | Some m =>
                                  if is_low_surrogate m
                                  then keep_all (utf8 (surrogate_pair n m))
                                         (parse_chars r3)
                                  else keep_all (utf8 n) (parse_chars r2)
                              | None => None
                              end
                            else keep_all (utf8 n) (parse_chars r2)
                        | _ => keep_all (utf8 n) (parse_chars r2)
                        end
                      else keep_all (utf8 n) (parse_chars r2)
                  | None => None
                  end
              | _ => None
              end
            else None
        | EmptyString => None
        end
      else if (nat_of_ascii c <? 32)%nat then None
      else keep c (parse_chars r)
  end.

Fixpoint take_digits (s : string) : string * string :=
  match s with
  | String c r =>
      if is_digit c then
        let (d, rest) := take_digits r in (String c d, rest)
      else (EmptyString, s)
  | EmptyString => (EmptyString, s)
  end.

(** A digit sequence that must not be empty. *)
Definition digits1 (s : string) : option (string * string) :=
  match take_digits s with
  | (EmptyString, _) => None
  | (d, rest) => Some (d, rest)
  end.

(** The JSON number grammar: an optional minus sign; an integer part that is
    a single zero or starts with a non-zero digit; an optional fraction (a
    dot and at least one digit); an optional exponent (e or E, an optional
    sign, at least one digit). *)
Definition parse_number (s : string) : option (string * string) :=
  let (sign, s1) :=
    match s with
    | String "-" r => ("-", r)
    | _ => (EmptyString, s)
    end in
  match s1 with
  | String c r =>
      if is_digit c then
        let (int, s2) :=
          if Ascii.eqb c "0" then ("0", r)
          else let (d, rest) := take_digits r in (String c d, rest) in
        let frac :=
          match s2 with
          | String "." r2 =>
              match digits1 r2 with
              | Some (d, rest) => Some ("." +:+ d, rest)
              | None => None
              end
          | _ => Some (EmptyString, s2)
          end in
        match frac with
        | None => None
        | Some (fr, s3) =>
            let exp (e : ascii) (r3 : string) :=
              let (esign, r4) :=
                match r3 with
                | String "+" r' => ("+", r')
                | String "-" r' => ("-", r')
                | _ => (EmptyString, r3)
                end in
              match digits1 r4 with
              | Some (d, rest) =>
                  Some (sign +:+ int +:+ fr +:+ String e (esign +:+ d), rest)
              | None => None
              end in
            match s3 with
            | String "e" r3 => exp "e"%char r3
            | String "E" r3 => exp "E"%char r3
            | _ => Some (sign +:+ int +:+ fr, s3)
            end
        end
      else None
  | EmptyString => None
  end.

(** [strip p s] is what follows the prefix [p] of [s]. *)
Fixpoint strip (p s : string) : option string :=
  match p, s with
  | EmptyString, _ => Some s
  | String a p', String b s' => if Ascii.eqb a b then strip p' s' else None
  | String _ _, EmptyString => None
  end.

(** [expect c s]: after white space, [s] goes on with the character [c];
    the result is what follows it. *)
Definition expect (c : ascii) (s : string) : option string :=
  match skip_ws s with
  | String c' r => if Ascii.eqb c' c then Some r else None
  | EmptyString => None
  end.

(** Recursive descent, with fuel for the nesting. *)
Fixpoint parse_value (fuel : nat) (s : string) {struct fuel}
  : option (value * string) :=
  match fuel with
  | 0 => None
  | S fuel' =>
      match skip_ws s with
      | EmptyString => None
      | String c r as s0 =>
          if Ascii.eqb c "{" then
            match expect "}" r with
            | Some r' => Some (JObj [], r')
            | None =>
                match parse_members fuel' r with
                | Some (ms, r') => Some (JObj ms, r')
                | None => None
                end
            end
          else if Ascii.eqb c "[" then
            match expect "]" r with
            | Some r' => Some (JArr [], r')
            | None =>
                match parse_elements fuel' r with
                | Some (vs, r') => Some (JArr vs, r')
                | None => None
                end
            end
          else if Ascii.eqb c dquote then
            match parse_chars r with
            | Some (t, r') => Some (JStr t, r')
            | None => None
            end
          else if Ascii.eqb c "n" then
            match strip "null" s0 with
            | Some r' => Some (JNull, r')
            | None => None
            end
          else if Ascii.eqb c "t" then
            match strip "true" s0 with
            | Some r' => Some (JBool true, r')
            | None => None
            end
          else if Ascii.eqb c "f" then
            match strip "false" s0 with
            | Some r' => Some (JBool false, r')
            | None => None
            end
          else
            match parse_number s0 with
            | Some (lexeme, r') => Some (JNum lexeme, r')
            | None => None
            end
      end
  end
with parse_elements (fuel : nat) (s : string) {struct fuel}
  : option (list value * string) :=
  match fuel with
  | 0 => None
  | S fuel' =>
      match parse_value fuel' s with
      | Some (v, r) =>
          match expect "," r with
          | Some r' =>
              match parse_elements fuel' r' with
              | Some (vs, r'') => Some (v :: vs, r'')
              | None => None
              end
          | None =>
              match expect "]" r with
              | Some r' => Some ([v], r')
              | None => None
              end
          end
      | None => None
      end
  end
with parse_members (fuel : nat) (s : string) {struct fuel}
  : option (list (string * value) * string) :=
  match fuel with
  | 0 => None
  | S fuel' =>
      match expect dquote s with
      | Some r =>
          match parse_chars r with
          | Some (k, r1) =>
              match expect ":" r1 with
              | Some r2 =>
                  match parse_value fuel' r2 with
                  | Some (v, r3) =>
                      match expect "," r3 with
                      | Some r4 =>
                          match parse_members fuel' r4 with
                          | Some (ms, r5) => Some ((k, v) :: ms, r5)
                          | None => None
                          end
                      | None =>
                          match expect "}" r3 with
                          | Some r4 => Some ([(k, v)], r4)
                          | None => None
                          end
                      end
                  | None => None
                  end
              | None => None
              end
          | None => None
          end
      | None => None
      end
  end.

(** [parse s] is [None] where [JSON.parse] throws a SyntaxError.  The fuel
    is more than the reader uses on a text of that length
    ([JSONFacts.parse_complete]). *)
Definition parse (s : string) : option value :=
  match parse_value (2 * String.length s + 2) s with
  | Some (v, r) =>
      match skip_ws r with
      | EmptyString => Some v
      | String _ _ => None
      end
  | None => None
  end.

End JSON.

(** ** Constants *)

Definition SAVED_CHATS_KEY : string := "gemini-story-saved-chats".
Definition CURRENT_CHAT_KEY : string := "gemini-story-current-chat".
Definition HISTORY_KEY_PREFIX : string := "gemini-story-history-".
Definition DEFAULT_SYSTEM_INSTRUCTION : string :=
  "You are a master storyteller. Your goal is to weave imaginative and engaging tales for the user. When the user gives you a prompt, turn it into a captivating story.".

(** ** JavaScript values at run time *)

(** A completion: the value an expression yields, or the exception it
    throws. *)
Inductive completion (E A : Type) : Type :=
| Normal (a : A)
| Throw (e : E).
Arguments Normal {E A} a.
Arguments Throw {E A} e.

#[global] Instance completion_ret (E : Type) : MRet (completion E) :=
  fun A => @Normal E A.
#[global] Instance completion_bind (E : Type) : MBind (completion E) :=
  fun A B (k : A -> completion E B) (c : completion E A) =>
    match c with
    | Normal a => k a
    | Throw e => Throw e
    end.

(** [try_catch c handler] is [try { c } catch (e) { handler e }]. *)
Definition try_catch {E A : Type} (c : completion E A) (handler : E -> A) : A :=
  match c with
  | Normal a => a
  | Throw e => handler e
  end.

(** The exceptions of the engine that the code can meet when it reads
    stored or received text. *)
Inductive thrown : Type :=
| SyntaxError
| TypeError.

Definition JSON_parse (text : string) : completion thrown JSON.value :=
  match JSON.parse text with
  | Some v => Normal v
  | None => Throw SyntaxError
  end.

(** The last member wins when a key is repeated, as in [JSON.parse]. *)
Fixpoint member (key : string) (ms : list (string * JSON.value))
  : option JSON.value :=
  match ms with
  | [] => None
  | (k, v) :: ms' =>
      match member key ms' with
      | Some v' => Some v'
      | None => if String.eqb k key then Some v else None
      end
  end.

(** [get_prop v key] is [v.key], for the keys the application reads
    ([history], [systemInstruction], [story_part], [suggestions]), none of
    which a prototype defines: [None] is [undefined], and reading a property
    of [null] throws. *)
Definition get_prop (v : JSON.value) (key : string)
  : completion thrown (option JSON.value) :=
  match v with
  | JSON.JNull => Throw TypeError
  | JSON.JObj ms => Normal (member key ms)
  | _ => Normal None
  end.

(** The digits at the head of [s]: their value after [acc], how many were
    read after [count], and what follows them. *)
Fixpoint read_digits (s : string) (acc : N) (count : nat) : N * nat * string :=
  match s with
  | String c r =>
      if JSON.is_digit c
      then read_digits r (acc * 10 + N.of_nat (nat_of_ascii c - 48))%N (S count)
      else (acc, count, s)
  | EmptyString => (acc, count, s)
  end.

(** Whether the lexeme of a JSON number denotes the Number zero.  With [m]
    the digits of the mantissa read as one integer and [e] the exponent
    less the number of digits of the fraction, the literal is [m] times ten
    to the [e]; it is rounded to the nearest double, which is zero when [m]
    is, and when the literal is at most two to the -1075, half the smallest
    double above zero. *)
Definition number_is_zero (lexeme : string) : bool :=
  let unsigned :=
    match lexeme with String "-" r => r | _ => lexeme end in
  let '(i, di, s1) := read_digits unsigned 0%N 0 in
  let '(m, d, s2) :=
    match s1 with
    | String "." r =>
        let '(m, df, s2) := read_digits r i 0 in (m, (di + df, df), s2)
    | _ => (i, (di, 0), s1)
    end in
  let exponent : Z :=
    match s2 with
    | String _ (String "-" r) => (- Z.of_N (fst (fst (read_digits r 0%N 0))))%Z
    | String _ (String "+" r) => Z.of_N (fst (fst (read_digits r 0%N 0)))
    | String _ r => Z.of_N (fst (fst (read_digits r 0%N 0)))
    | EmptyString => 0%Z
    end in
  let e := (exponent - Z.of_nat (snd d))%Z in
  if (m =? 0)%N then true
  else if (Z.of_nat (fst d) + e <=? -400)%Z then true
  else if (e <? 0)%Z then (m * 2 ^ 1075 <=? 10 ^ Z.to_N (- e))%N
  else false.

(** ToBoolean on a parsed value. *)
Definition truthy (v : JSON.value) : bool :=
  match v with
  | JSON.JNull => false
  | JSON.JBool b => b
  | JSON.JNum lexeme => negb (number_is_zero lexeme)
  | JSON.JStr s => negb (String.eqb s "")
  | JSON.JArr _ | JSON.JObj _ => true
  end.

(** [a || b] where [a] may be [undefined]. *)
Definition or_else (a : option JSON.value) (b : JSON.value) : JSON.value :=
  match a with
  | Some v => if truthy v then v else b
  | None => b
  end.

Definition isArray (v : JSON.value) : bool :=
  match v with
  | JSON.JArr _ => true
  | _ => false
  end.

(** ** ChatDataStore *)

(** [Content] of the backend SDK, as the application builds it:
    [{ role, parts: [{ text }] }]. *)
Record Part : Type := { text : string }.
Record Content : Type := { role : string; parts : list Part }.

Definition Part_to_json (p : Part) : JSON.value :=
  JSON.JObj [("text", JSON.JStr (text p))].

Definition Content_to_json (c : Content) : JSON.value :=
  JSON.JObj [("role", JSON.JStr (role c));
             ("parts", JSON.JArr (map Part_to_json (parts c)))].

Definition history_to_json (h : list Content) : JSON.value :=
  JSON.JArr (map Content_to_json h).

(** What [getChatData] hands back; the declared types are erased at run
    time, so both fields are whatever the stored text held. *)
Record ChatData : Type :=
  { history : JSON.value; systemInstruction : JSON.value }.

(** The browser's [localStorage]: string keys, string values. *)
Abbreviation localStorage := (gmap string string).

Definition default_ChatData : ChatData :=
  {| history := JSON.JArr [];
     systemInstruction := JSON.JStr DEFAULT_SYSTEM_INSTRUCTION |}.

(** The body of the [try] block of [getChatData]. *)
Definition getChatData_try (rawData : string) : completion thrown ChatData :=
  parsedData ← JSON_parse rawData;
  if isArray parsedData then
    Normal {| history := parsedData;
              systemInstruction := JSON.JStr DEFAULT_SYSTEM_INSTRUCTION |}
  else
    h ← get_prop parsedData "history";
    si ← get_prop parsedData "systemInstruction";
    Normal {| history := or_else h (JSON.JArr []);
              systemInstruction :=
                or_else si (JSON.JStr DEFAULT_SYSTEM_INSTRUCTION) |}.

Definition getChatData (store : localStorage) (title : string)
  : completion thrown ChatData :=
  match store !! (HISTORY_KEY_PREFIX +:+ title) with
  | None => Normal default_ChatData
  | Some rawData =>
      if String.eqb rawData "" then Normal default_ChatData
      else Normal (try_catch (getChatData_try rawData)
                             (fun _ => default_ChatData))
  end.

Definition ChatData_to_json (h : list Content) (si : string) : JSON.value :=
  JSON.JObj [("history", history_to_json h);
             ("systemInstruction", JSON.JStr si)].

Definition saveChatData (store : localStorage) (title : string)
    (h : list Content) (si : string) : localStorage :=
  <[HISTORY_KEY_PREFIX +:+ title := JSON.stringify (ChatData_to_json h si)]> store.

(** ** String operations of the platform *)

(** [String.prototype.toLowerCase], as far as a search for ASCII text can
    tell: an ASCII capital becomes its small letter, and so do the two other
    characters whose lower case holds an ASCII letter, the capital I with a
    dot above (U+0130, bytes 196 176, which becomes i and the combining dot
    U+0307, bytes 204 135) and the Kelvin sign (U+212A, bytes 226 132 170,
    which becomes k).  The other capitals outside ASCII are left as they
    are: their lower case holds no ASCII character either. *)
Definition lower_char (c : ascii) : ascii :=
  let n := nat_of_ascii c in
  if ((65 <=? n) && (n <=? 90))%nat then ascii_of_nat (n + 32) else c.

Fixpoint toLowerCase (s : string) : string :=
  match s with
  | EmptyString => EmptyString
  | String c r =>
      match r with
      | String c2 r2 =>
          if Ascii.eqb c "196" && Ascii.eqb c2 "176"
          then String "i" (String "204" (String "135" (toLowerCase r2)))
          else
            match r2 with
            | String c3 r3 =>
                if Ascii.eqb c "226" && Ascii.eqb c2 "132" && Ascii.eqb c3 "170"
                then String "k" (toLowerCase r3)
                else String (lower_char c) (toLowerCase r)
            | EmptyString => String (lower_char c) (toLowerCase r)
            end
      | EmptyString => String (lower_char c) EmptyString
      end
  end.

(** [s.includes(needle)]. *)
Fixpoint includes (s needle : string) : bool :=
  if String.prefix needle s then true
  else match s with
       | EmptyString => false
       | String _ r => includes r needle
       end.

(** [strip_space s] is [s] without the white space character it starts
    with, if it starts with one.  White space of [String.prototype.trim]:
    U+0009 to U+000D, U+0020, U+00A0, U+1680, U+2000 to U+200A, U+2028,
    U+2029, U+202F, U+205F, U+3000 and U+FEFF. *)
Definition strip_space (s : string) : option string :=
  match s with
  | String c r =>
      let n := nat_of_ascii c in
      if (((9 <=? n) && (n <=? 13)) || (n =? 32))%nat then Some r
      else
        match r with
        | String c2 r2 =>
            let n2 := nat_of_ascii c2 in
            if ((n =? 194) && (n2 =? 160))%nat then Some r2
            else
              match r2 with
              | String c3 r3 =>
                  let n3 := nat_of_ascii c3 in
                  if (((n =? 225) && (n2 =? 154) && (n3 =? 128))
                      || ((n =? 226) && (n2 =? 128)
                          && (((128 <=? n3) && (n3 <=? 138))
                              || (n3 =? 168) || (n3 =? 169) || (n3 =? 175)))
                      || ((n =? 226) && (n2 =? 129) && (n3 =? 159))
                      || ((n =? 227) && (n2 =? 128) && (n3 =? 128))
                      || ((n =? 239) && (n2 =? 187) && (n3 =? 191)))%nat
                  then Some r3
                  else None
              | EmptyString => None
              end
        | EmptyString => None
        end
  | EmptyString => None
  end.

Fixpoint trim_start_loop (fuel : nat) (s : string) : string :=
  match fuel with
  | 0 => s
  | S fuel' =>
      match strip_space s with
      | Some r => trim_start_loop fuel' r
      | None => s
      end
  end.

(** [trim_start s] drops the white space [s] starts with; there are at
    most as many white space characters as bytes. *)
Definition trim_start (s : string) : string :=
  trim_start_loop (String.length s) s.

(** [trim_end s] drops the white space [s] ends with: going from the end,
    what is left is dropped as long as it is white space only. *)
Fixpoint trim_end (s : string) : string :=
  match s with
  | EmptyString => EmptyString
  | String c r =>
      let kept := String c (trim_end r) in
      if String.eqb (trim_start kept) EmptyString then EmptyString else kept
  end.

Definition trim (s : string) : string := trim_end (trim_start s).

(** [replace] with the global pattern of one double quote and the empty
    replacement: every double quote is dropped. *)
Fixpoint remove_dquotes (s : string) : string :=
  match s with
  | EmptyString => EmptyString
  | String c r =>
      if Ascii.eqb c dquote then remove_dquotes r else String c (remove_dquotes r)
  end.

(** A counter in a template literal: its decimal digits. *)
Definition decimal (n : nat) : string :=
  NilEmpty.string_of_uint (Nat.to_uint n).

(** [parts.map((p) => p.text).join('')]. *)
Definition parts_text (ps : list Part) : string :=
  fold_right (fun p acc => text p +:+ acc) EmptyString ps.

(** ** The catalog of titles *)

Fixpoint strings_of_values (vs : list JSON.value) : option (list string) :=
  match vs with
  | [] => Some []
  | JSON.JStr s :: vs' =>
      match strings_of_values vs' with
      | Some l => Some (s :: l)
      | None => None
      end
  | _ :: _ => None
  end.

(** [getSavedChats]: the stored catalog, [[]] when there is none.  The
    result is declared [string[]]; a stored text that is JSON of another
    shape is outside the model ([Normal None]). *)
Definition getSavedChats (store : localStorage)
  : completion thrown (option (list string)) :=
  let raw :=
    match store !! SAVED_CHATS_KEY with
    | Some r => if String.eqb r "" then "[]" else r
    | None => "[]"
    end in
  parsed ← JSON_parse raw;
  match parsed with
  | JSON.JArr vs => Normal (strings_of_values vs)
  | _ => Normal None
  end.

(** [chats.includes(title)]. *)
Definition list_includes (chats : list string) (title : string) : bool :=
  existsb (String.eqb title) chats.

(** The loop of [generateTitle] that makes the title unique:
    [unique_loop fuel savedChats title finalTitle counter] runs at most
    [fuel] tests of the loop condition from the given values of the two
    loop variables. *)
Fixpoint unique_loop (fuel : nat) (savedChats : list string)
    (title finalTitle : string) (counter : nat) : option string :=
  match fuel with
  | 0 => None
  | S fuel' =>
      if list_includes savedChats finalTitle then
        unique_loop fuel' savedChats title
                    (title +:+ " " +:+ decimal counter) (S counter)
      else Some finalTitle
  end.

(** [let finalTitle = title; let counter = 2; while (...) ...]. *)
Definition unique_title (fuel : nat) (savedChats : list string)
    (title : string) : option string :=
  unique_loop fuel savedChats title title 2.

(** The title with the numeric suffix [counter]. *)
Definition suffixed (title : string) (counter : nat) : string :=
  title +:+ " " +:+ decimal counter.

(** The values [finalTitle] takes in the first [rounds] tests of the loop
    condition, from [finalTitle] and [counter] on. *)
Fixpoint tried (title finalTitle : string) (counter rounds : nat) : list string :=
  match rounds with
  | 0 => []
  | S rounds' => finalTitle :: tried title (suffixed title counter) (S counter) rounds'
  end.

(** ** ConversationState *)

(** Reading stored JSON back at the declared type [Content[]].  The readers
    accept exactly the shape [Content_to_json] writes; any other stored
    shape is outside the model. *)
Definition Part_of_json (v : JSON.value) : option Part :=
  match v with
  | JSON.JObj [(k, JSON.JStr t)] =>
      if String.eqb k "text" then Some {| text := t |} else None
  | _ => None
  end.

Fixpoint Parts_of_json (vs : list JSON.value) : option (list Part) :=
  match vs with
  | [] => Some []
  | v :: vs' =>
      match Part_of_json v, Parts_of_json vs' with
      | Some p, Some ps => Some (p :: ps)
      | _, _ => None
      end
  end.

Definition Content_of_json (v : JSON.value) : option Content :=
  match v with
  | JSON.JObj [(k1, JSON.JStr r); (k2, JSON.JArr ps)] =>
      if String.eqb k1 "role" && String.eqb k2 "parts" then
        match Parts_of_json ps with
        | Some l => Some {| role := r; parts := l |}
        | None => None
        end
      else None
  | _ => None
  end.

Fixpoint Contents_of_json (vs : list JSON.value) : option (list Content) :=
  match vs with
  | [] => Some []
  | v :: vs' =>
      match Content_of_json v, Contents_of_json vs' with
      | Some c, Some cs => Some (c :: cs)
      | _, _ => None
      end
  end.

Definition history_of_json (v : JSON.value) : option (list Content) :=
  match v with
  | JSON.JArr vs => Contents_of_json vs
  | _ => None
  end.

Definition string_of_json (v : JSON.value) : option string :=
  match v with
  | JSON.JStr s => Some s
  | _ => None
  end.

(** The children of [chatContainer].  A message keeps the text it was given
    (its rendering by the markdown library is not modelled) and a handle, so
    that [loadingIndicator.remove()] can find it; the copy and regenerate
    buttons of a model message are not modelled. *)
Inductive sender : Type := user | model | loading.

Inductive element : Type :=
| Message (handle : nat) (who : sender) (content : string)
| QuickReplies (suggestions : list JSON.value)
| InitialMessage.

Record State : Type := mkState
  { currentHistory : list Content;
    currentChatTitle : option string;
    currentSystemInstruction : string;
    (** the timer behind [saveTimeoutId], when it is pending: the
        milliseconds left before it fires *)
    saveTimer : option nat;
    storage : localStorage;
    (** every [localStorage.setItem] so far, oldest first *)
    writes : list (string * string);
    chatContainer : list element;
    next_handle : nat }.

Definition set_currentHistory (h : list Content) (s : State) : State :=
  mkState h (currentChatTitle s) (currentSystemInstruction s) (saveTimer s)
          (storage s) (writes s) (chatContainer s) (next_handle s).

Definition set_currentChatTitle (t : option string) (s : State) : State :=
  mkState (currentHistory s) t (currentSystemInstruction s) (saveTimer s)
          (storage s) (writes s) (chatContainer s) (next_handle s).

Definition set_currentSystemInstruction (i : string) (s : State) : State :=
  mkState (currentHistory s) (currentChatTitle s) i (saveTimer s)
          (storage s) (writes s) (chatContainer s) (next_handle s).

Definition set_saveTimer (t : option nat) (s : State) : State :=
  mkState (currentHistory s) (currentChatTitle s) (currentSystemInstruction s)
          t (storage s) (writes s) (chatContainer s) (next_handle s).

Definition set_chatContainer (c : list element) (s : State) : State :=
  mkState (currentHistory s) (currentChatTitle s) (currentSystemInstruction s)
          (saveTimer s) (storage s) (writes s) c (next_handle s).

(** [localStorage.setItem(key, value)]. *)
Definition setItem (key value : string) (s : State) : State :=
  mkState (currentHistory s) (currentChatTitle s) (currentSystemInstruction s)
          (saveTimer s) (<[key := value]> (storage s))
          (writes s ++ [(key, value)]) (chatContainer s) (next_handle s).

(** [localStorage.removeItem(key)]. *)
Definition removeItem (key : string) (s : State) : State :=
  mkState (currentHistory s) (currentChatTitle s) (currentSystemInstruction s)
          (saveTimer s) (delete key (storage s))
          (writes s) (chatContainer s) (next_handle s).

(** [!currentChatTitle] is false: the title is neither [null] nor empty. *)
Definition active_title (s : State) : option string :=
  match currentChatTitle s with
  | Some t => if String.eqb t "" then None else Some t
  | None => None
  end.

(** [saveChatData] on the state's store. *)
Definition saveChatData_st (title : string) (h : list Content) (si : string)
    (s : State) : State :=
  setItem (HISTORY_KEY_PREFIX +:+ title)
          (JSON.stringify (ChatData_to_json h si)) s.

(** ** SaveScheduler *)

(** [scheduleSave]: the pending timer is cleared and a new one is set to
    fire 1500 ms later.  The save-status label is not modelled. *)
Definition scheduleSave (s : State) : State := set_saveTimer (Some 1500) s.

(** The callback of the timer. *)
Definition save_callback (s : State) : State :=
  match active_title s with
  | None => s
  | Some t =>
      saveChatData_st t (currentHistory s) (currentSystemInstruction s) s
  end.

(** [elapse dt s]: [dt] milliseconds pass with no other event; a pending
    timer whose delay has run out fires. *)
Definition elapse (dt : nat) (s : State) : State :=
  match saveTimer s with
  | None => s
  | Some remaining =>
      if (remaining <=? dt)%nat then save_callback (set_saveTimer None s)
      else set_saveTimer (Some (remaining - dt)) s
  end.

(** ** TurnController *)

(** [document.querySelector('.quick-replies')?.remove()]. *)
Fixpoint remove_quick_replies (c : list element) : list element :=
  match c with
  | [] => []
  | QuickReplies _ :: c' => c'
  | e :: c' => e :: remove_quick_replies c'
  end.

Definition has_handle (h : nat) (e : element) : bool :=
  match e with
  | Message h' _ _ => Nat.eqb h h'
  | _ => false
  end.

(** [messageDiv.remove()] for the message with handle [h]. *)
Definition remove_handle (h : nat) (c : list element) : list element :=
  filter (fun e => has_handle h e = false) c.

(** The class of the message [div]: [user-message-container] for a user
    message, [model-message-container] for every other sender. *)
Definition user_container (e : element) : bool :=
  match e with
  | Message _ user _ => true
  | _ => false
  end.

Definition model_container (e : element) : bool :=
  match e with
  | Message _ model _ | Message _ loading _ => true
  | _ => false
  end.

(** The last element of the list that satisfies [p] is dropped. *)
Fixpoint remove_last (p : element -> bool) (c : list element) : list element :=
  match c with
  | [] => []
  | e :: c' =>
      if p e && negb (existsb p c') then c' else e :: remove_last p c'
  end.

(** [appendMessage(content, sender, suggestions)]; the result is the new
    state and the handle of the message. *)
Definition appendMessage (content : string) (who : sender)
    (suggestions : list JSON.value) (s : State) : State * nat :=
  let h := next_handle s in
  let c1 := remove_quick_replies (chatContainer s) ++ [Message h who content] in
  let c2 :=
    match who, suggestions with
    | model, _ :: _ => c1 ++ [QuickReplies suggestions]
    | _, _ => c1
    end in
  (mkState (currentHistory s) (currentChatTitle s) (currentSystemInstruction s)
           (saveTimer s) (storage s) (writes s) c2 (S h), h).

(** What a rejected backend call throws: an [Error] with its message, or a
    value that is no [Error]. *)
Inductive rejection : Type :=
| ErrorValue (message : string)
| OtherValue.

(** The answer of the backend to one request: a response with its [text]
    ([None] when the response has none), or a rejection. *)
Inductive backend_result : Type :=
| Responded (response_text : option string)
| Rejected (e : rejection).

Definition userFriendlyMessage (error : rejection) : string :=
  match error with
  | OtherValue => "An unexpected error occurred. Please try again later."
  | ErrorValue message =>
      let lowerCaseMessage := toLowerCase message in
      if includes lowerCaseMessage "api key not valid" then
        "Your API key is invalid. Please check your configuration."
      else if includes lowerCaseMessage "quota" then
        "You have exceeded your API quota. Please check your usage and billing."
      else if includes lowerCaseMessage "network error"
              || includes lowerCaseMessage "failed to fetch" then
        "A network error occurred. Please check your internet connection and try again."
      else if includes lowerCaseMessage "400" then
        "The request was malformed. This could be due to a safety policy violation. Please try rephrasing your prompt."
      else if includes lowerCaseMessage "500"
              || includes lowerCaseMessage "503" then
        "The service is temporarily unavailable. Please try again in a few moments."
      else "Could not get a response. " +:+ message
  end.

Definition error_banner (error : rejection) : string :=
  "<strong>Error:</strong> " +:+ userFriendlyMessage error.

Definition handleApiError (error : rejection) (loadingIndicator : nat)
    (s : State) : State :=
  let s1 := set_chatContainer (remove_handle loadingIndicator (chatContainer s)) s in
  fst (appendMessage (error_banner error) model [] s1).

Definition user_turn (userMessage : string) : Content :=
  {| role := "user"; parts := [{| text := userMessage |}] |}.

Definition model_turn (storyPart : string) : Content :=
  {| role := "model"; parts := [{| text := storyPart |}] |}.

Definition STRUCTURED_OUTPUT_NOTE : string :=
  String "010" (String "010"
    "IMPORTANT: Your entire response must be a single JSON object matching the defined schema. Do not include any other text, markdown, or formatting. The 'story_part' should be the creative story content, and 'suggestions' must be an array of three distinct strings.").

(** A request in flight: what was sent, and the loading indicator the
    continuation holds on to. *)
Record Request : Type :=
  { contents : list Content;
    request_systemInstruction : string;
    loadingIndicator : nat }.

(** [sendMessage] up to its [await]. *)
Definition sendMessage_begin (userMessage : string) (s : State)
  : State * option Request :=
  match active_title s with
  | None => (s, None)
  | Some _ =>
      let s1 := set_chatContainer (remove_quick_replies (chatContainer s)) s in
      let s2 := fst (appendMessage userMessage user [] s1) in
      let (s3, indicator) := appendMessage EmptyString loading [] s2 in
      let s4 := set_currentHistory (currentHistory s3 ++ [user_turn userMessage]) s3 in
      let s5 := scheduleSave s4 in
      (s5, Some {| contents := currentHistory s5;
                   request_systemInstruction :=
                     currentSystemInstruction s5 +:+ STRUCTURED_OUTPUT_NOTE;
                   loadingIndicator := indicator |})
  end.

(** The state in which [sendMessage] awaits the backend. *)
Definition awaiting (userMessage : string) (s : State) : State :=
  {| currentHistory := currentHistory s ++ [user_turn userMessage];
     currentChatTitle := currentChatTitle s;
     currentSystemInstruction := currentSystemInstruction s;
     saveTimer := Some 1500;
     storage := storage s;
     writes := writes s;
     chatContainer :=
       remove_quick_replies
         (remove_quick_replies (remove_quick_replies (chatContainer s))
          ++ [Message (next_handle s) user userMessage])
       ++ [Message (S (next_handle s)) loading EmptyString];
     next_handle := S (S (next_handle s)) |}.

Definition FORMAT_ERROR_PREFIX : string :=
  "Error: The model's response was not in the correct format. Here is the raw response: ".

Definition MISSING_STORY_PART : string :=
  "API response is missing 'story_part'.".

(** The inner [try] of [sendMessage]: the values of [storyPart] and
    [suggestions] after it.  [storyPart] is [None] when it is [undefined].
    An exception can only come from [JSON.parse] or from reading
    [story_part], before either variable is assigned, so [suggestions] still
    is [[]] in the handler. *)
Definition read_response (response_text : option string)
  : option JSON.value * JSON.value :=
  let raw := default "undefined" response_text in
  try_catch
    (jsonResponse ← JSON_parse raw;
     story ← get_prop jsonResponse "story_part";
     sugg ← get_prop jsonResponse "suggestions";
     Normal (Some (or_else story (JSON.JStr (FORMAT_ERROR_PREFIX +:+ raw))),
             or_else sugg (JSON.JArr [])))
    (fun _ => (JSON.JStr <$> response_text, JSON.JArr [])).

(** The characters a [for ... of] over a string yields, one per code
    point: a byte from 128 to 191 continues the character before it. *)
Definition is_continuation (c : ascii) : bool :=
  ((128 <=? nat_of_ascii c) && (nat_of_ascii c <=? 191))%nat.

Fixpoint code_points (s : string) : list string :=
  match s with
  | EmptyString => []
  | String c r =>
      let continued :=
        match r with
        | String c2 _ => is_continuation c2
        | EmptyString => false
        end in
      match code_points r with
      | first :: others =>
          if continued then String c first :: others
          else String c EmptyString :: first :: others
      | [] => [String c EmptyString]
      end
  end.

(** The buttons [appendMessage] makes of [suggestions]: the elements of an
    array, the characters of a string, none for a value without a [length].
    An object with a [length] member is outside the model. *)
Definition suggestion_buttons (v : JSON.value) : option (list JSON.value) :=
  match v with
  | JSON.JArr l => Some l
  | JSON.JStr t => Some (map JSON.JStr (code_points t))
  | JSON.JObj ms =>
      match member "length" ms with
      | None => Some []
      | Some _ => None
      end
  | _ => Some []
  end.

Definition falsy (v : option JSON.value) : bool :=
  match v with
  | Some x => negb (truthy x)
  | None => true
  end.

(** The outer [try] of [sendMessage] from the moment the awaited call
    settles: the state it leaves, and whether it ended normally or threw
    (the changes made before a [throw] stay).  [None]: the response is
    outside the model (a [story_part] that is no string, or suggestions that
    are an object with a [length]). *)
Definition sendMessage_try (req : Request) (result : backend_result)
    (s : State) : option (State * completion rejection unit) :=
  match result with
  | Rejected e => Some (s, Throw e)
  | Responded response_text =>
      let s1 :=
        set_chatContainer (remove_handle (loadingIndicator req) (chatContainer s)) s in
      let (storyPart, suggestions) := read_response response_text in
      if falsy storyPart then Some (s1, Throw (ErrorValue MISSING_STORY_PART))
      else
        match storyPart, suggestion_buttons suggestions with
        | Some (JSON.JStr story), Some buttons =>
            let s2 := fst (appendMessage story model buttons s1) in
            let s3 := set_currentHistory (currentHistory s2 ++ [model_turn story]) s2 in
            Some (scheduleSave s3, Normal tt)
        | _, _ => None
        end
  end.

(** [sendMessage] from the moment the awaited call settles: the outer [try]
    with its [catch]. *)
Definition sendMessage_resume (req : Request) (result : backend_result)
    (s : State) : option State :=
  match sendMessage_try req result s with
  | Some (s', Normal _) => Some s'
  | Some (s', Throw error) => Some (handleApiError error (loadingIndicator req) s')
  | None => None
  end.

(** [currentHistory.pop()]: the list without its last element. *)
Definition pop (h : list Content) : list Content := removelast h.

(** [regenerateLastResponse] up to the [await] inside the [sendMessage] it
    calls; nothing follows that call. *)
Definition regenerateLastResponse_begin (s : State) : State * option Request :=
  if (length (currentHistory s) <? 2)%nat then (s, None)
  else
    let c1 := remove_last model_container (chatContainer s) in
    let c2 := remove_last user_container c1 in
    let c3 := remove_quick_replies c2 in
    let s1 := set_chatContainer c3 s in
    let h1 := pop (currentHistory s1) in
    let lastUserTurn := last h1 in
    let s2 := set_currentHistory (pop h1) s1 in
    match lastUserTurn with
    | None => (s2, None)
    | Some turn => sendMessage_begin (parts_text (parts turn)) s2
    end.

Definition sender_of_role (r : string) : sender :=
  if String.eqb r "user" then user
  else if String.eqb r "loading" then loading
  else model.

Definition GREETING : string :=
  "Greetings, traveler! What story shall we weave today? Give me a prompt, and a tale will unfold.".

(** The loop of [loadChat] that shows the loaded turns. *)
Definition render_history (h : list Content) (s : State) : State :=
  fold_left
    (fun st message =>
       fst (appendMessage (parts_text (parts message))
                          (sender_of_role (role message)) [] st))
    h s.

(** [loadChat]; it has no [await], so it runs in one piece.  [None]: the
    stored record has a shape the declared types exclude. *)
Definition loadChat (title : string) (s : State) : option State :=
  let s1 := set_currentChatTitle (Some title) s in
  let s2 := setItem CURRENT_CHAT_KEY title s1 in
  let s3 := set_chatContainer [] s2 in
  match getChatData (storage s3) title with
  | Throw _ => None
  | Normal data =>
      match history_of_json (history data),
            string_of_json (systemInstruction data) with
      | Some h, Some systemInstruction =>
          let s4 := set_currentSystemInstruction systemInstruction s3 in
          let s5 := set_currentHistory h s4 in
          let s6 := render_history h s5 in
          Some (if Nat.eqb (length h) 0
                then fst (appendMessage GREETING model [] s6)
                else s6)
      | _, _ => None
      end
  end.

(** [showInitialState], also [startNewChat]. *)
Definition showInitialState (s : State) : State :=
  let s1 := set_chatContainer [InitialMessage] s in
  let s2 := set_currentHistory [] s1 in
  let s3 := set_currentChatTitle None s2 in
  let s4 := removeItem CURRENT_CHAT_KEY s3 in
  set_saveTimer None s4.

(** [saveSettings], given the text of the instruction field. *)
Definition saveSettings (input : string) (s : State) : option State :=
  match active_title s with
  | None => Some s
  | Some title =>
      let newInstruction := trim input in
      if String.eqb newInstruction "" then Some s
      else
        let s1 := set_currentSystemInstruction newInstruction s in
        let s2 := saveChatData_st title (currentHistory s1) newInstruction s1 in
        loadChat title s2
  end.

(** [saveNewChatTitle]. *)
Definition saveNewChatTitle (title : string) (s : State) : option State :=
  match getSavedChats (storage s) with
  | Normal (Some chats) =>
      if list_includes chats title then Some s
      else Some (setItem SAVED_CHATS_KEY
                         (JSON.stringify (JSON.JArr (map JSON.JStr (chats ++ [title]))))
                         s)
  | _ => None
  end.

(** [generateTitle] from the moment the backend answers, given the date
    string of the fallback.  The loop gets as many rounds as the catalog has
    entries, plus one.  [None]: the catalog is outside the model, or the
    rounds did not suffice. *)
Definition generateTitle_resume (store : localStorage) (result : backend_result)
    (localeDate : string) : option string :=
  let fallback := "Story from " +:+ localeDate in
  match result with
  | Rejected _ | Responded None => Some fallback
  | Responded (Some response_text) =>
      let title := remove_dquotes (trim response_text) in
      if String.eqb title "" then Some fallback
      else
        match getSavedChats store with
        | Throw _ => Some fallback
        | Normal None => None
        | Normal (Some savedChats) =>
            unique_title (S (length savedChats)) savedChats title
        end
  end.

(** ** Bursts of save requests *)

(** One call of [scheduleSave] in a burst: it comes [gap] milliseconds after
    the previous event, at the end of a handler whose effect up to that call
    is [handler]. *)
Record SaveCall : Type :=
  { gap : nat;
    handler : State -> State }.

(** A handler that neither writes to the store nor removes from it. *)
Definition in_memory (f : State -> State) : Prop :=
  forall s : State, writes (f s) = writes s /\ storage (f s) = storage s.

(** The first call of a burst. *)
Definition first_call (c : SaveCall) (s : State) : State :=
  scheduleSave (handler c s).

(** A later call: time passes, then the handler runs. *)
Definition next_call (s : State) (c : SaveCall) : State :=
  scheduleSave (handler c (elapse (gap c) s)).

Definition burst (c : SaveCall) (more : list SaveCall) (s : State) : State :=
  fold_left next_call more (first_call c s).

(** The text [saveChatData] writes for the in-memory conversation. *)
Definition snapshot (s : State) : string :=
  JSON.stringify (ChatData_to_json (currentHistory s) (currentSystemInstruction s)).

(** What [sendMessage] does before its first [scheduleSave], and what it
    does between the answer and its second [scheduleSave]. *)
Definition push_user (userMessage : string) (s : State) : State :=
  set_saveTimer (saveTimer s) (awaiting userMessage s).

Definition push_model (indicator : nat) (story : string) (s : State) : State :=
  let s1 := set_chatContainer (remove_handle indicator (chatContainer s)) s in
  let s2 := fst (appendMessage story model [] s1) in
  set_currentHistory (currentHistory s2 ++ [model_turn story]) s2.

(** ** Measures on JSON values, for the statements about the reader *)

(** No number occurs in the value: what the application writes holds
    strings, arrays and objects only. *)
Fixpoint number_free (v : JSON.value) : bool :=
  match v with
  | JSON.JNum _ => false
  | JSON.JArr vs => forallb number_free vs
  | JSON.JObj ms => forallb (fun m => number_free (snd m)) ms
  | _ => true
  end.

(** The fuel that reading the value back takes. *)
Fixpoint size (v : JSON.value) : nat :=
  match v with
  | JSON.JArr vs => S (list_sum (map (fun x => S (size x)) vs))
  | JSON.JObj ms => S (list_sum (map (fun m => S (size (snd m))) ms))
  | _ => 1
  end.

Fixpoint more_elements (l : list JSON.value) : string :=
  match l with
  | [] => "]"
  | y :: l' => "," +:+ JSON.stringify y +:+ more_elements l'
  end.

Fixpoint more_members (l : list (string * JSON.value)) : string :=
  match l with
  | [] => "}"
  | (k, y) :: l' =>
      "," +:+ JSON.quote k +:+ ":" +:+ JSON.stringify y +:+ more_members l'
  end.

(** The first character the writer emits for a value without numbers. *)
Definition JSON_opener (c : ascii) : Prop :=
  c = "["%char \/ c = "{"%char \/ c = dquote \/ c = "n"%char \/ c = "t"%char
  \/ c = "f"%char.

(** ** Concrete stores and states, for examples *)

(** A store with a record in the legacy shape under the title [legacy], an
    unreadable record under [broken], an object record with an empty
    instruction and no history under [bare], and no record for other
    titles. *)
Definition example_store : localStorage :=
  <[HISTORY_KEY_PREFIX +:+ "legacy" := sq "[{'role':'user','parts':[{'text':'hi'}]}]"]>
  (<[HISTORY_KEY_PREFIX +:+ "broken" := "{oops"]>
  (<[HISTORY_KEY_PREFIX +:+ "bare" := sq "{'systemInstruction':''}"]> ∅)).

Definition story_A : list Content := [user_turn "go left"; model_turn "you fall"].
Definition story_B : list Content := [user_turn "hello"; model_turn "hi there"].

(** A store with two stories, [A] and [B]. *)
Definition two_stories : localStorage :=
  saveChatData (saveChatData ∅ "A" story_A "Be brief.") "B" story_B
               DEFAULT_SYSTEM_INSTRUCTION.

(** The application before any story is open, over a given store. *)
Definition fresh (store : localStorage) : State :=
  {| currentHistory := [];
     currentChatTitle := None;
     currentSystemInstruction := DEFAULT_SYSTEM_INSTRUCTION;
     saveTimer := None;
     storage := store;
     writes := [];
     chatContainer := [InitialMessage];
     next_handle := 0 |}.

(** Story [A] open, as [loadChat] leaves it. *)
Definition open_A : State :=
  default (fresh two_stories) (loadChat "A" (fresh two_stories)).

(** Story [A] with the turn [look around] submitted and its request in
    flight. *)
Definition awaiting_A : State := awaiting "look around" open_A.

Definition request_A : Request :=
  {| contents := story_A ++ [user_turn "look around"];
     request_systemInstruction := "Be brief." +:+ STRUCTURED_OUTPUT_NOTE;
     loadingIndicator := 3 |}.

(** The user has switched to story [B] while the request of [request_A] is
    in flight. *)
Definition switched_to_B : State :=
  default awaiting_A (loadChat "B" awaiting_A).

Definition dark_response : string :=
  sq "{'story_part':'It is dark.','suggestions':['Light a torch','Wait','Shout']}".

(** ** Starting a new story: the submit handler of the start form *)

(** The genre: the [data-genre] of the selected button ([None] when the
    attribute is absent), and for the button [Custom] the trimmed text of
    the custom field; [Default] stands in for an empty one. *)
Definition chosen_genre (selected : option string) (custom : string) : string :=
  let genre :=
    match selected with
    | Some g => if String.eqb g "" then "Default" else g
    | None => "Default"
    end in
  if String.eqb genre "Custom" then
    let c := trim custom in
    if String.eqb c "" then "Default" else c
  else genre.

Definition genre_instruction (genre : string) : string :=
  if String.eqb genre "Default" || String.eqb genre "" then
    DEFAULT_SYSTEM_INSTRUCTION
  else
    "You are a master storyteller specializing in " +:+ genre
    +:+ ". Your goal is to weave imaginative and engaging tales for the user. When the user gives you a prompt, turn it into a captivating story in the "
    +:+ genre +:+ " style.".

(** The prompt [generateTitle] sends. *)
Definition titlePrompt (prompt genre : string) : string :=
  (if String.eqb genre "Default" || String.eqb genre "" then
     "Generate a concise, evocative story title (max 5 words) for this prompt: "
   else
     "Generate a concise, evocative " +:+ genre
     +:+ " story title (max 5 words) for this prompt: ")
  +:+ String dquote (prompt +:+ String dquote
        ". Respond with only the title, no extra text or quotes.").

(** What the handler holds on to while it awaits [generateTitle]. *)
Record StoryStart : Type :=
  { start_message : string;
    start_genre : string;
    start_instruction : string;
    title_request : string }.

(** The handler up to its first [await]; [None]: the prompt is blank, the
    handler alerts and returns. *)
Definition startStory_begin (input : string) (selected : option string)
    (custom : string) : option StoryStart :=
  let userMessage := trim input in
  if String.eqb userMessage "" then None
  else
    let genre := chosen_genre selected custom in
    Some {| start_message := userMessage;
            start_genre := genre;
            start_instruction := genre_instruction genre;
            title_request := titlePrompt userMessage genre |}.

(** The handler from the answer to the title request up to the [await]
    inside [sendMessage].  [None]: the catalog cannot be read (the handler
    throws) or is outside the model, or the stored record under the title is
    outside the model. *)
Definition startStory_resume (st : StoryStart) (titleResult : backend_result)
    (localeDate : string) (s : State) : option (State * option Request) :=
  title ← generateTitle_resume (storage s) titleResult localeDate;
  s1 ← saveNewChatTitle title s;
  s3 ← loadChat title (saveChatData_st title [] (start_instruction st) s1);
  Some (sendMessage_begin (start_message st) s3).

(** ** SessionBootstrap: the initial load of [initializeApp] *)

(** [None]: the catalog cannot be read or is outside the model. *)
Definition initial_load (s : State) : option State :=
  match storage s !! CURRENT_CHAT_KEY with
  | None => Some (showInitialState s)
  | Some lastChat =>
      if String.eqb lastChat "" then Some (showInitialState s)
      else
        match getSavedChats (storage s) with
        | Normal (Some chats) =>
            if list_includes chats lastChat then loadChat lastChat s
            else Some (showInitialState s)
        | _ => None
        end
  end.

(** ** The transcript and the states the handlers reach *)

(** The messages [loadChat] shows for a history, with handles from [n] on. *)
Fixpoint transcript_of (n : nat) (h : list Content) : list element :=
  match h with
  | [] => []
  | m :: h' =>
      Message n (sender_of_role (role m)) (parts_text (parts m))
      :: transcript_of (S n) h'
  end.

Definition is_quick_replies (e : element) : bool :=
  match e with
  | QuickReplies _ => true
  | _ => false
  end.

(** The number of quick-replies blocks on the page. *)
Definition quick_replies_count (c : list element) : nat :=
  length (List.filter is_quick_replies c).

(** The states the handlers reach from a start without an open story.  A
    click on a quick reply is [sendMessage] followed by the removal of the
    block. *)
Inductive reachable : State -> Prop :=
| reach_fresh (store : localStorage) : reachable (fresh store)
| reach_initial_load (s s' : State) :
    reachable s -> initial_load s = Some s' -> reachable s'
| reach_showInitialState (s : State) :
    reachable s -> reachable (showInitialState s)
| reach_loadChat (s s' : State) (title : string) :
    reachable s -> loadChat title s = Some s' -> reachable s'
| reach_sendMessage (s : State) (userMessage : string) :
    reachable s -> reachable (fst (sendMessage_begin userMessage s))
| reach_settle (s s' : State) (req : Request) (result : backend_result) :
    reachable s -> sendMessage_resume req result s = Some s' -> reachable s'
| reach_quick_reply_removed (s : State) :
    reachable s ->
    reachable (set_chatContainer (remove_quick_replies (chatContainer s)) s)
| reach_regenerate (s : State) :
    reachable s -> reachable (fst (regenerateLastResponse_begin s))
| reach_saveSettings (s s' : State) (input : string) :
    reachable s -> saveSettings input s = Some s' -> reachable s'
| reach_startStory (s s' : State) (st : StoryStart) (input : string)
    (selected : option string) (custom : string) (titleResult : backend_result)
    (localeDate : string) (req : option Request) :
    reachable s ->
    startStory_begin input selected custom = Some st ->
    startStory_resume st titleResult localeDate s = Some (s', req) ->
    reachable s'
| reach_elapse (s : State) (dt : nat) :
    reachable s -> reachable (elapse dt s).

(** A store in which a story was started on 1/2/2026 while the backend was
    failing: it is listed and stored under the dated fallback title. *)
Definition fallback_store : localStorage :=
  <[SAVED_CHATS_KEY := sq "['Story from 1/2/2026']"]>
    (saveChatData ∅ "Story from 1/2/2026" story_A "Be brief.").

Definition dragon_start : StoryStart :=
  {| start_message := "A dragon guards a library";
     start_genre := "Fantasy";
     start_instruction := genre_instruction "Fantasy";
     title_request := titlePrompt "A dragon guards a library" "Fantasy" |}.

(** Story [A] after the answer [dark_response] to the turn [look around]. *)
Definition answered_A : State :=
  default awaiting_A
          (sendMessage_resume request_A (Responded (Some dark_response)) awaiting_A).

(** Story [A] opened over a store whose catalog lists [A] and [B]. *)
Definition listed_A : State :=
  default (fresh two_stories)
          (loadChat "A" (fresh (<[SAVED_CHATS_KEY := sq "['A','B']"]> two_stories))).

(** A turn of story [A] whose backend call failed. *)
Definition failed_A : State :=
  default awaiting_A
          (sendMessage_resume request_A (Rejected (ErrorValue "Quota exceeded")) awaiting_A).

(** ** The variant with a chat session ([src/index.tsx]) *)

(** [startNewChat] of [src/index.tsx], given what the title prompt returned
    ([None] when it was cancelled).  The chat session that [loadChat]
    creates there holds the loaded history; it is the history of the state.
    [None]: the catalog cannot be read or is outside the model. *)
Definition startNewChat_prompted (answer : option string) (s : State)
  : option State :=
  match answer with
  | None => Some s
  | Some title =>
      if String.eqb title "" || String.eqb (trim title) "" then Some s
      else
        let trimmedTitle := trim title in
        match getSavedChats (storage s) with
        | Normal (Some chats) =>
            if list_includes chats trimmedTitle then Some s
            else
              s1 ← saveNewChatTitle trimmedTitle s;
              loadChat trimmedTitle
                       (saveChatData_st trimmedTitle [] DEFAULT_SYSTEM_INSTRUCTION s1)
        | _ => None
        end
  end.

(** ** Substrings *)

(** [needle] occurs in [s]. *)
Definition contains (s needle : string) : Prop :=
  exists pre post : string, s = pre +:+ needle +:+ post.

(** ** Stores of the declared shape *)

(** [getChatData] declares its result a [ChatData], a list of turns and a
    string; the record under [title] has that shape when the history read
    from it is a list of turns and the instruction a string (an absent or
    unreadable record reads as the default, which has the shape). *)
Definition typed_record (store : localStorage) (title : string) : Prop :=
  exists (d : ChatData) (h : list Content) (si : string),
    getChatData store title = Normal d
    /\ history_of_json (history d) = Some h
    /\ string_of_json (systemInstruction d) = Some si.

(** Every record has the declared shape, and so has the catalog when it
    can be read. *)
Definition well_typed (store : localStorage) : Prop :=
  (forall title : string, typed_record store title)
  /\ getSavedChats store <> Normal None.

(** One handler has run; the steps are those of [reachable]. *)
Inductive handler_step : State -> State -> Prop :=
| step_initial_load (s s' : State) :
    initial_load s = Some s' -> handler_step s s'
| step_showInitialState (s : State) :
    handler_step s (showInitialState s)
| step_loadChat (s s' : State) (title : string) :
    loadChat title s = Some s' -> handler_step s s'
| step_sendMessage (s : State) (userMessage : string) :
    handler_step s (fst (sendMessage_begin userMessage s))
| step_settle (s s' : State) (req : Request) (result : backend_result) :
    sendMessage_resume req result s = Some s' -> handler_step s s'
| step_quick_reply_removed (s : State) :
    handler_step s (set_chatContainer (remove_quick_replies (chatContainer s)) s)
| step_regenerate (s : State) :
    handler_step s (fst (regenerateLastResponse_begin s))
| step_saveSettings (s s' : State) (input : string) :
    saveSettings input s = Some s' -> handler_step s s'
| step_startStory (s s' : State) (st : StoryStart) (input : string)
    (selected : option string) (custom : string) (titleResult : backend_result)
    (localeDate : string) (req : option Request) :
    startStory_begin input selected custom = Some st ->
    startStory_resume st titleResult localeDate s = Some (s', req) ->
    handler_step s s'
| step_elapse (s : State) (dt : nat) :
    handler_step s (elapse dt s).

(** The states the handlers reach from the start over [store]. *)
Definition reachable_from (store : localStorage) (s : State) : Prop :=
  rtc handler_step (fresh store) s.

(** * Properties *)

(** ** Sanity checks of the JSON reader and writer *)

Example parse_ex1 :
  JSON.parse (sq "{'history': [{'role':'user','parts':[{'text':'a\nb'}]}], 'n': -1.5e3}")
  = Some (JSON.JObj
            [("history",
              JSON.JArr
                [JSON.JObj [("role", JSON.JStr "user");
                            ("parts", JSON.JArr [JSON.JObj [("text", JSON.JStr (String "a" (String "010" "b")))]])]]);
             ("n", JSON.JNum "-1.5e3")]).
Proof. vm_compute. reflexivity. Qed.

Example parse_ex2 : JSON.parse "Once upon a time..." = None.
Proof. reflexivity. Qed.

Example parse_ex3 :
  JSON.parse (JSON.stringify (JSON.JArr [JSON.JStr (sq "q'\"); JSON.JNull; JSON.JObj []]))
  = Some (JSON.JArr [JSON.JStr (sq "q'\"); JSON.JNull; JSON.JObj []]).
Proof. vm_compute. reflexivity. Qed.

Example parse_ex4 :
  map JSON.parse ["01"; "1."; "[1,]"; "{'a':1}"; sq "{'a':1,}"; "nul"; " [ ] "; "-0"; "1e5"; ""]
  = [None; None; None; None; None; None; Some (JSON.JArr []); Some (JSON.JNum "-0");
     Some (JSON.JNum "1e5"); None].
Proof. vm_compute. reflexivity. Qed.

(** ** The reader inverts the writer *)

Module JSONFacts.
Import JSON.

Lemma app_cons (c : ascii) (s t : string) : String c s +:+ t = String c (s +:+ t).
Proof. reflexivity. Qed.

Lemma app_nil_l (t : string) : EmptyString +:+ t = t.
Proof. reflexivity. Qed.

Lemma app_assoc (s t u : string) : (s +:+ t) +:+ u = s +:+ t +:+ u.
Proof. induction s as [|c s IH]; [reflexivity|]. rewrite !app_cons, IH. reflexivity. Qed.

Lemma length_app (s t : string) :
  String.length (s +:+ t) = String.length s + String.length t.
Proof. induction s as [|c s IH]; [reflexivity|]. rewrite app_cons. simpl. lia. Qed.

(** One escaped character is read back as that character. *)
Lemma parse_chars_escape_char (c : ascii) (t : string) :
  parse_chars (escape_char c +:+ t)
  = match parse_chars t with
    | Some (u, rest) => Some (String c u, rest)
    | None => None
    end.
Proof. destruct c as [[] [] [] [] [] [] [] []]; reflexivity. Qed.

Lemma parse_chars_escape_chars (s rest : string) :
  parse_chars (escape_chars s +:+ String dquote rest) = Some (s, rest).
Proof.
  induction s as [|c s IH]; [reflexivity|].
  cbn [escape_chars]. rewrite app_assoc, parse_chars_escape_char, IH. reflexivity.
Qed.

Lemma quote_app (s rest : string) :
  quote s +:+ rest = String dquote (escape_chars s +:+ String dquote rest).
Proof. unfold quote. rewrite app_cons, app_assoc. reflexivity. Qed.

Lemma stringify_arr_cons (x : value) (l : list value) :
  stringify (JArr (x :: l)) = "[" +:+ stringify x +:+ more_elements l.
Proof.
  reflexivity.
Qed.

Lemma stringify_obj_cons (k : string) (x : value) (l : list (string * value)) :
  stringify (JObj ((k, x) :: l))
  = "{" +:+ quote k +:+ ":" +:+ stringify x +:+ more_members l.
Proof.
  reflexivity.
Qed.

(** Induction on a value, with the hypothesis for every element. *)
Lemma value_ind_nested (P : value -> Prop) :
  P JNull -> (forall b, P (JBool b)) -> (forall n, P (JNum n)) ->
  (forall s, P (JStr s)) ->
  (forall vs, Forall P vs -> P (JArr vs)) ->
  (forall ms, Forall (fun m => P (snd m)) ms -> P (JObj ms)) ->
  forall v, P v.
Proof.
  intros Hnull Hbool Hnum Hstr Harr Hobj.
  fix IH 1. intros [ | b | n | s | vs | ms ].
  - exact Hnull.
  - apply Hbool.
  - apply Hnum.
  - apply Hstr.
  - apply Harr. induction vs as [|x vs IHvs]; constructor; [apply IH | exact IHvs].
  - apply Hobj. induction ms as [|[k x] ms IHms]; constructor; [apply IH | exact IHms].
Qed.

Lemma stringify_opener (v : value) :
  number_free v = true ->
  exists c s, stringify v = String c s /\ JSON_opener c.
Proof.
  unfold JSON_opener. destruct v as [ | [] | n | s | [|x l] | [|[k x] l] ]; intros H;
    try discriminate H.
  all: eexists _, _; split; [reflexivity|]; tauto.
Qed.

Lemma skip_ws_opener (c : ascii) (s : string) :
  JSON_opener c -> skip_ws (String c s) = String c s.
Proof. intros [->|[->|[->|[->|[->| ->]]]]]; reflexivity. Qed.

Lemma expect_closer_opener (c' c : ascii) (s : string) :
  JSON_opener c -> c' = "]"%char \/ c' = "}"%char ->
  expect c' (String c s) = None.
Proof. intros [->|[->|[->|[->|[->| ->]]]]] [-> | ->]; reflexivity. Qed.

Lemma expect_closer_stringify (c' : ascii) (v : value) (t : string) :
  number_free v = true -> c' = "]"%char \/ c' = "}"%char ->
  expect c' (stringify v +:+ t) = None.
Proof.
  intros Hv Hc. destruct (stringify_opener v Hv) as (c & s & -> & Hop).
  rewrite app_cons. apply expect_closer_opener; assumption.
Qed.

Lemma parse_value_unfold_arr (fuel : nat) (t : string) :
  parse_value (S fuel) (String "[" t)
  = match expect "]" t with
    | Some r' => Some (JArr [], r')
    | None =>
        match parse_elements fuel t with
        | Some (vs, r') => Some (JArr vs, r')
        | None => None
        end
    end.
Proof. reflexivity. Qed.

Lemma parse_value_unfold_obj (fuel : nat) (t : string) :
  parse_value (S fuel) (String "{" t)
  = match expect "}" t with
    | Some r' => Some (JObj [], r')
    | None =>
        match parse_members fuel t with
        | Some (ms, r') => Some (JObj ms, r')
        | None => None
        end
    end.
Proof. reflexivity. Qed.

Lemma parse_value_unfold_str (fuel : nat) (t : string) :
  parse_value (S fuel) (String dquote t)
  = match parse_chars t with
    | Some (u, r') => Some (JStr u, r')
    | None => None
    end.
Proof. reflexivity. Qed.

Lemma parse_elements_unfold (fuel : nat) (s : string) :
  parse_elements (S fuel) s
  = match parse_value fuel s with
    | Some (v, r) =>
        match expect "," r with
        | Some r' =>
            match parse_elements fuel r' with
            | Some (vs, r'') => Some (v :: vs, r'')
            | None => None
            end
        | None =>
            match expect "]" r with
            | Some r' => Some ([v], r')
            | None => None
            end
        end
    | None => None
    end.
Proof. reflexivity. Qed.

Lemma parse_members_unfold (fuel : nat) (s : string) :
  parse_members (S fuel) s
  = match expect dquote s with
    | Some r =>
        match parse_chars r with
        | Some (k, r1) =>
            match expect ":" r1 with
            | Some r2 =>
                match parse_value fuel r2 with
                | Some (v, r3) =>
                    match expect "," r3 with
                    | Some r4 =>
                        match parse_members fuel r4 with
                        | Some (ms, r5) => Some ((k, v) :: ms, r5)
                        | None => None
                        end
                    | None =>
                        match expect "}" r3 with
                        | Some r4 => Some ([(k, v)], r4)
                        | None => None
                        end
                    end
                | None => None
                end
            | None => None
            end
        | None => None
        end
    | None => None
    end.
Proof. reflexivity. Qed.

(** Reading the elements of an array back, given that each element is read
    back. *)
Lemma parse_elements_stringify (l : list value) :
  forall (x : value) (fuel : nat) (rest : string),
    Forall (fun v => forall f r, size v <= f ->
                       parse_value f (stringify v +:+ r) = Some (v, r)) (x :: l) ->
    S (size x) + list_sum (map (fun y => S (size y)) l) <= fuel ->
    parse_elements fuel (stringify x +:+ more_elements l +:+ rest)
    = Some (x :: l, rest).
Proof.
  induction l as [|y l IH]; intros x fuel rest Hall Hfuel;
    destruct fuel as [|fuel]; try (simpl in Hfuel; lia);
    rewrite parse_elements_unfold;
    pose proof (Forall_inv Hall) as Hx; cbv beta in Hx;
    rewrite Hx by (simpl in Hfuel; lia).
  - reflexivity.
  - cbn [more_elements]. rewrite !app_assoc.
    change (expect "," ("," +:+ stringify y +:+ more_elements l +:+ rest))
      with (Some (stringify y +:+ more_elements l +:+ rest)).
    cbv beta iota.
    rewrite IH; [reflexivity | exact (Forall_inv_tail Hall) | simpl in Hfuel |- *; lia].
Qed.

Lemma parse_members_stringify (l : list (string * value)) :
  forall (k : string) (x : value) (fuel : nat) (rest : string),
    Forall (fun m => forall f r, size (snd m) <= f ->
                       parse_value f (stringify (snd m) +:+ r) = Some (snd m, r))
           ((k, x) :: l) ->
    S (size x) + list_sum (map (fun m => S (size (snd m))) l) <= fuel ->
    parse_members fuel
      (quote k +:+ ":" +:+ stringify x +:+ more_members l +:+ rest)
    = Some ((k, x) :: l, rest).
Proof.
  induction l as [|[k' y] l IH]; intros k x fuel rest Hall Hfuel;
    destruct fuel as [|fuel]; try (simpl in Hfuel; lia);
    rewrite parse_members_unfold, quote_app;
    change (expect dquote (String dquote ?t)) with (Some t); cbv beta iota;
    rewrite parse_chars_escape_chars;
    change (expect ":" (":" +:+ ?t)) with (Some t); cbv beta iota;
    pose proof (Forall_inv Hall) as Hx; cbn [snd] in Hx;
    rewrite Hx by (simpl in Hfuel; lia).
  - reflexivity.
  - cbn [more_members]. rewrite !app_assoc.
    change (expect "," ("," +:+ ?t)) with (Some t). cbv beta iota.
    rewrite IH; [reflexivity | exact (Forall_inv_tail Hall) | simpl in Hfuel |- *; lia].
Qed.

Lemma Forall_forallb_impl {A : Type} (p : A -> bool) (Q : A -> Prop) (l : list A) :
  Forall (fun a => p a = true -> Q a) l -> forallb p l = true -> Forall Q l.
Proof.
  induction 1 as [|a l Ha _ IH]; intros Hp; constructor;
    cbn [forallb] in Hp; apply andb_prop in Hp as [Hpa Hpl]; auto.
Qed.

(** [JSON.parse] reads back what [JSON.stringify] wrote, with any text
    after it left over. *)
Lemma parse_value_stringify (v : value) :
  number_free v = true ->
  forall (fuel : nat) (rest : string),
    size v <= fuel ->
    parse_value fuel (stringify v +:+ rest) = Some (v, rest).
Proof.
  induction v as [ | b | n | s | vs IH | ms IH ] using value_ind_nested;
    intros Hnf fuel rest Hfuel; (destruct fuel as [|fuel]; [simpl in Hfuel; lia|]).
  - reflexivity.
  - destruct b; reflexivity.
  - discriminate Hnf.
  - cbn [stringify]. rewrite quote_app, parse_value_unfold_str, parse_chars_escape_chars.
    reflexivity.
  - destruct vs as [|x l]; [reflexivity|].
    rewrite stringify_arr_cons, !app_assoc, app_cons, app_nil_l, parse_value_unfold_arr.
    cbn [number_free forallb] in Hnf. apply andb_prop in Hnf as [Hx Hl].
    rewrite expect_closer_stringify by auto.
    rewrite parse_elements_stringify; [reflexivity| |simpl in Hfuel |- *; lia].
    apply (Forall_forallb_impl number_free); [exact IH|].
    cbn [forallb]. rewrite Hx, Hl. reflexivity.
  - destruct ms as [|[k x] l]; [reflexivity|].
    rewrite stringify_obj_cons, !app_assoc, app_cons, app_nil_l, parse_value_unfold_obj.
    cbn [number_free forallb snd] in Hnf. apply andb_prop in Hnf as [Hx Hl].
    rewrite quote_app.
    change (expect "}" (String dquote ?t)) with (@None string). cbv beta iota.
    rewrite <- quote_app.
    rewrite parse_members_stringify; [reflexivity| |simpl in Hfuel |- *; lia].
    apply (Forall_forallb_impl (fun m => number_free (snd m))); [exact IH|].
    cbn [forallb snd]. rewrite Hx, Hl. reflexivity.
Qed.

Lemma list_sum_cons (a : nat) (l : list nat) : list_sum (a :: l) = a + list_sum l.
Proof. reflexivity. Qed.

Lemma length_more_elements (l : list value) :
  Forall (fun v => size v <= String.length (stringify v)) l ->
  list_sum (map (fun y => S (size y)) l) + 1 <= String.length (more_elements l).
Proof.
  induction 1 as [|y l Hy _ IH]; [simpl; lia|].
  cbn [more_elements map]. rewrite list_sum_cons. rewrite app_cons, app_nil_l.
  cbn [String.length]. rewrite length_app. lia.
Qed.

Lemma length_more_members (l : list (string * value)) :
  Forall (fun m => size (snd m) <= String.length (stringify (snd m))) l ->
  list_sum (map (fun m => S (size (snd m))) l) + 1 <= String.length (more_members l).
Proof.
  induction 1 as [|[k y] l Hy _ IH]; [simpl; lia|].
  cbn [more_members map snd] in *. rewrite list_sum_cons.
  rewrite app_cons, app_nil_l. cbn [String.length]. rewrite !length_app.
  cbn [String.length]. lia.
Qed.

Lemma size_le_length (v : value) :
  number_free v = true -> size v <= String.length (stringify v).
Proof.
  induction v as [ | b | n | s | vs IH | ms IH ] using value_ind_nested; intros Hnf.
  - simpl. lia.
  - destruct b; simpl; lia.
  - discriminate Hnf.
  - simpl. lia.
  - destruct vs as [|x l]; [simpl; lia|].
    cbn [number_free] in Hnf.
    pose proof (Forall_forallb_impl _ _ _ IH Hnf) as Hall.
    rewrite stringify_arr_cons, app_cons, app_nil_l.
    cbn [String.length]. rewrite length_app.
    pose proof (length_more_elements l (Forall_inv_tail Hall)).
    pose proof (Forall_inv Hall) as Hx. cbv beta in Hx.
    cbn [size map]. rewrite list_sum_cons. lia.
  - destruct ms as [|[k x] l]; [simpl; lia|].
    cbn [number_free] in Hnf.
    pose proof (Forall_forallb_impl (fun m => number_free (snd m)) _ _ IH Hnf) as Hall.
    rewrite stringify_obj_cons, app_cons, app_nil_l.
    cbn [String.length]. rewrite !length_app.
    pose proof (length_more_members l (Forall_inv_tail Hall)).
    pose proof (Forall_inv Hall) as Hx. cbn [snd] in Hx.
    cbn [size map String.length snd]. rewrite list_sum_cons. lia.
Qed.

Lemma app_nil_r (s : string) : s +:+ EmptyString = s.
Proof. induction s as [|c s IH]; [reflexivity|]. rewrite app_cons, IH. reflexivity. Qed.

(** The round trip through text, for every value without numbers. *)
Lemma parse_stringify (v : value) :
  number_free v = true -> parse (stringify v) = Some v.
Proof.
  intros Hnf. unfold parse.
  rewrite <- (app_nil_r (stringify v)) at 2.
  rewrite parse_value_stringify; [reflexivity | exact Hnf |].
  pose proof (size_le_length v Hnf). lia.
Qed.

(** *** The fuel of the reader is enough *)

Lemma skip_ws_length (s : string) : String.length (skip_ws s) <= String.length s.
Proof.
  induction s as [|c s IH]; [reflexivity|].
  cbn [skip_ws]. destruct (is_ws c); cbn [String.length] in *; lia.
Qed.

Lemma expect_length (c : ascii) (s r : string) :
  expect c s = Some r -> String.length r < String.length s.
Proof.
  unfold expect. pose proof (skip_ws_length s) as H.
  destruct (skip_ws s) as [|c' r']; [discriminate|].
  destruct (Ascii.eqb c' c); [|discriminate].
  intros [= <-]. cbn [String.length] in H. lia.
Qed.

Lemma strip_length (p s r : string) :
  strip p s = Some r -> String.length r <= String.length s.
Proof.
  revert s. induction p as [|a p IH]; intros s; cbn [strip].
  - intros [= <-]. lia.
  - destruct s as [|b s]; [discriminate|].
    destruct (Ascii.eqb a b); [|discriminate].
    intros H. apply IH in H. cbn [String.length]. lia.
Qed.

Lemma take_digits_length (s d r : string) :
  take_digits s = (d, r) -> String.length r <= String.length s.
Proof.
  revert d r. induction s as [|c s IH]; intros d r; cbn [take_digits].
  - intros [= _ <-]. lia.
  - destruct (is_digit c).
    + destruct (take_digits s) as [d' r'] eqn:H. intros [= _ <-].
      specialize (IH _ _ eq_refl). cbn [String.length]. lia.
    + intros [= _ <-]. lia.
Qed.

Lemma digits1_length (s d r : string) :
  digits1 s = Some (d, r) -> String.length r <= String.length s.
Proof.
  unfold digits1. destruct (take_digits s) as [d' r'] eqn:H.
  apply take_digits_length in H.
  destruct d'; [discriminate|]. intros [= _ <-]. exact H.
Qed.

Lemma parse_chars_length (n : nat) :
  forall s t r : string,
    String.length s <= n -> parse_chars s = Some (t, r) ->
    String.length r <= String.length s.
Proof.
  induction n as [|n IH]; intros s t r Hn H.
  - destruct s; [discriminate | cbn in Hn; lia].
  - destruct s as [|c s]; [discriminate|].
    cbn [parse_chars] in H.
    repeat match type of H with
           | context [if ?b then _ else _] => destruct b
           | context [match parse_chars ?x with _ => _ end] =>
               let Hp := fresh "Hp" in
               destruct (parse_chars x) as [[? ?]|] eqn:Hp;
               [apply IH in Hp; [|cbn [String.length] in *; lia] |]
           | context [match ?x with _ => _ end] => destruct x
           end;
      try discriminate H;
      injection H as <- <-; cbn [String.length] in *; lia.
Qed.

Lemma parse_number_length (s l r : string) :
  parse_number s = Some (l, r) -> String.length r <= String.length s.
Proof.
  unfold parse_number. intros H. cbv beta iota zeta in H.
  repeat (match type of H with
          | context [digits1 ?x] =>
              let Hd := fresh "Hd" in
              destruct (digits1 x) as [[? ?]|] eqn:Hd;
              [apply digits1_length in Hd|]
          | context [take_digits ?x] =>
              let Hd := fresh "Hd" in
              destruct (take_digits x) as [? ?] eqn:Hd;
              apply take_digits_length in Hd
          | context [match ?x with _ => _ end] => is_var x; destruct x
          | context [if ?b then _ else _] => destruct b
          end; cbv beta iota zeta in H);
    try discriminate H;
    injection H as <- <-; cbn [String.length] in *; lia.
Qed.

Lemma parse_chars_shorter (s t r : string) :
  parse_chars s = Some (t, r) -> String.length r <= String.length s.
Proof. apply (parse_chars_length (String.length s)). lia. Qed.

(** What a reader leaves is no longer than what it was given. *)
Lemma parse_value_length (fuel : nat) :
  (forall s v r, parse_value fuel s = Some (v, r) ->
                 String.length r <= String.length s)
  /\ (forall s vs r, parse_elements fuel s = Some (vs, r) ->
                     String.length r <= String.length s)
  /\ (forall s ms r, parse_members fuel s = Some (ms, r) ->
                     String.length r <= String.length s).
Proof.
  induction fuel as [|fuel (IHv & IHe & IHm)];
    [repeat split; intros; discriminate|].
  repeat split; intros s x r H; cbn [parse_value parse_elements parse_members] in H.
  - pose proof (skip_ws_length s) as Hws.
    destruct (skip_ws s) as [|c s0]; [discriminate|].
    cbn [String.length] in Hws.
    repeat (match type of H with
            | context [expect ?c ?x] =>
                let He := fresh "He" in
                destruct (expect c x) as [?|] eqn:He;
                [apply expect_length in He|]
            | context [parse_members fuel ?x] =>
                let Hp := fresh "Hp" in
                destruct (parse_members fuel x) as [[? ?]|] eqn:Hp;
                [apply IHm in Hp|]
            | context [parse_elements fuel ?x] =>
                let Hp := fresh "Hp" in
                destruct (parse_elements fuel x) as [[? ?]|] eqn:Hp;
                [apply IHe in Hp|]
            | context [parse_chars ?x] =>
                let Hp := fresh "Hp" in
                destruct (parse_chars x) as [[? ?]|] eqn:Hp;
                [apply parse_chars_shorter in Hp|]
            | context [strip ?p ?x] =>
                let Hp := fresh "Hp" in
                destruct (strip p x) as [?|] eqn:Hp;
                [apply strip_length in Hp|]
            | context [parse_number ?x] =>
                let Hp := fresh "Hp" in
                destruct (parse_number x) as [[? ?]|] eqn:Hp;
                [apply parse_number_length in Hp|]
            | context [if ?b then _ else _] => destruct b
            end);
      try discriminate H;
      injection H as <- <-; cbn [String.length] in *; lia.
  - repeat (match type of H with
            | context [expect ?c ?x] =>
                let He := fresh "He" in
                destruct (expect c x) as [?|] eqn:He;
                [apply expect_length in He|]
            | context [parse_value fuel ?x] =>
                let Hp := fresh "Hp" in
                destruct (parse_value fuel x) as [[? ?]|] eqn:Hp;
                [apply IHv in Hp|]
            | context [parse_elements fuel ?x] =>
                let Hp := fresh "Hp" in
                destruct (parse_elements fuel x) as [[? ?]|] eqn:Hp;
                [apply IHe in Hp|]
            end);
      try discriminate H;
      injection H as <- <-; lia.
  - repeat (match type of H with
            | context [parse_value fuel ?x] =>
                let Hp := fresh "Hp" in
                destruct (parse_value fuel x) as [[? ?]|] eqn:Hp;
                [apply IHv in Hp|]
            | context [parse_members fuel ?x] =>
                let Hp := fresh "Hp" in
                destruct (parse_members fuel x) as [[? ?]|] eqn:Hp;
                [apply IHm in Hp|]
            | context [parse_chars ?x] =>
                let Hp := fresh "Hp" in
                destruct (parse_chars x) as [[? ?]|] eqn:Hp;
                [apply parse_chars_shorter in Hp|]
            | context [expect ?c ?x] =>
                let He := fresh "He" in
                destruct (expect c x) as [?|] eqn:He;
                [apply expect_length in He|]
            end);
      try discriminate H;
      injection H as <- <-; lia.
Qed.

(** Beyond twice the length of the text, the fuel does not matter. *)
Lemma parse_fuel_stable (a : nat) :
  (forall b s, 2 * String.length s + 1 <= a -> 2 * String.length s + 1 <= b ->
               parse_value a s = parse_value b s)
  /\ (forall b s, 2 * String.length s + 2 <= a -> 2 * String.length s + 2 <= b ->
                  parse_elements a s = parse_elements b s)
  /\ (forall b s, 2 * String.length s + 2 <= a -> 2 * String.length s + 2 <= b ->
                  parse_members a s = parse_members b s).
Proof.
  induction a as [|a (IHv & IHe & IHm)]; [repeat split; intros; lia|].
  repeat split; intros [|b] s Ha Hb; try lia;
    cbn [parse_value parse_elements parse_members].
  - pose proof (skip_ws_length s) as Hws.
    destruct (skip_ws s) as [|c s0]; [reflexivity|]. cbn [String.length] in Hws.
    destruct (Ascii.eqb c "{").
    { destruct (expect "}" s0); [reflexivity|].
      rewrite (IHm b s0) by lia. reflexivity. }
    destruct (Ascii.eqb c "["); [|reflexivity].
    destruct (expect "]" s0); [reflexivity|].
    rewrite (IHe b s0) by lia. reflexivity.
  - rewrite (IHv b s) by lia.
    destruct (parse_value b s) as [[v r]|] eqn:Hp; [|reflexivity].
    apply (proj1 (parse_value_length b)) in Hp.
    destruct (expect "," r) as [r'|] eqn:He; [|reflexivity].
    apply expect_length in He. rewrite (IHe b r') by lia. reflexivity.
  - destruct (expect dquote s) as [r|] eqn:He; [|reflexivity].
    apply expect_length in He.
    destruct (parse_chars r) as [[k r1]|] eqn:Hk; [|reflexivity].
    apply parse_chars_shorter in Hk.
    destruct (expect ":" r1) as [r2|] eqn:He2; [|reflexivity].
    apply expect_length in He2. rewrite (IHv b r2) by lia.
    destruct (parse_value b r2) as [[v r3]|] eqn:Hp; [|reflexivity].
    apply (proj1 (parse_value_length b)) in Hp.
    destruct (expect "," r3) as [r4|] eqn:He3; [|reflexivity].
    apply expect_length in He3. rewrite (IHm b r4) by lia. reflexivity.
Qed.

(** [parse] does not depend on its fuel: more of it reads the same. *)
Lemma parse_fuel_enough (s : string) (fuel : nat) :
  2 * String.length s + 2 <= fuel ->
  parse_value fuel s = parse_value (2 * String.length s + 2) s.
Proof.
  intros H. apply (proj1 (parse_fuel_stable fuel)); lia.
Qed.

(** What some fuel reads, more fuel reads too. *)
Lemma parse_fuel_mono (a : nat) :
  (forall b s x, a <= b -> parse_value a s = Some x -> parse_value b s = Some x)
  /\ (forall b s x, a <= b -> parse_elements a s = Some x ->
                    parse_elements b s = Some x)
  /\ (forall b s x, a <= b -> parse_members a s = Some x ->
                    parse_members b s = Some x).
Proof.
  induction a as [|a (IHv & IHe & IHm)]; [repeat split; intros; discriminate|].
  repeat split; intros [|b] s x Hle H; try lia;
    cbn [parse_value parse_elements parse_members] in H |- *.
  - destruct (skip_ws s) as [|c s0]; [discriminate|].
    destruct (Ascii.eqb c "{").
    { destruct (expect "}" s0); [exact H|].
      destruct (parse_members a s0) as [[ms r]|] eqn:Hp; [|discriminate].
      rewrite (IHm b s0 _ ltac:(lia) Hp). exact H. }
    destruct (Ascii.eqb c "["); [|exact H].
    destruct (expect "]" s0); [exact H|].
    destruct (parse_elements a s0) as [[vs r]|] eqn:Hp; [|discriminate].
    rewrite (IHe b s0 _ ltac:(lia) Hp). exact H.
  - destruct (parse_value a s) as [[v r]|] eqn:Hp; [|discriminate].
    rewrite (IHv b s _ ltac:(lia) Hp).
    destruct (expect "," r) as [r'|]; [|exact H].
    destruct (parse_elements a r') as [[vs r'']|] eqn:Hq; [|discriminate].
    rewrite (IHe b r' _ ltac:(lia) Hq). exact H.
  - destruct (expect dquote s) as [r|]; [|discriminate].
    destruct (parse_chars r) as [[k r1]|]; [|discriminate].
    destruct (expect ":" r1) as [r2|]; [|discriminate].
    destruct (parse_value a r2) as [[v r3]|] eqn:Hp; [|discriminate].
    rewrite (IHv b r2 _ ltac:(lia) Hp).
    destruct (expect "," r3) as [r4|]; [|exact H].
    destruct (parse_members a r4) as [[ms r5]|] eqn:Hq; [|discriminate].
    rewrite (IHm b r4 _ ltac:(lia) Hq). exact H.
Qed.

(** The fuel of [parse] is enough: a text that any amount of fuel reads as
    one value and nothing else, [parse] reads as that value. *)
Lemma parse_complete (s : string) (fuel : nat) (v : value) (r : string) :
  parse_value fuel s = Some (v, r) ->
  skip_ws r = EmptyString ->
  parse s = Some v.
Proof.
  intros H Hr. unfold parse.
  set (n := 2 * String.length s + 2).
  assert (Hn : parse_value n s = Some (v, r)).
  { destruct (Nat.le_ge_cases fuel n) as [Hle | Hge].
    - exact (proj1 (parse_fuel_mono fuel) n s _ Hle H).
    - rewrite <- H. symmetry. apply (proj1 (parse_fuel_stable fuel)); unfold n in *; lia. }
  rewrite Hn, Hr. reflexivity.
Qed.

End JSONFacts.

(** ** The platform functions on examples *)

(** Zero and the literals too small for a double are the Number zero. *)
Example number_is_zero_examples :
  map number_is_zero
      ["0"; "-0.0e7"; "0.000"; "1e-400"; "1E-324"; "2.4e-324";
       "2.5e-324"; "5e-324"; "0.5"; "-1"; "1e400"]
  = [true; true; true; true; true; true; false; false; false; false; false].
Proof. vm_compute. reflexivity. Qed.

(** White space outside ASCII is trimmed too: a no-break space (bytes 194
    160) in front, an ideographic space (bytes 227 128 128) at the end. *)
Example trim_examples :
  trim ("  " +:+ String "194" (String "160" "a b")
        +:+ String "227" (String "128" (String "128" (String "009" ""))))
  = "a b"
  /\ trim (String "010" " ") = ""
  /\ trim (String "195" (String "169" " ")) = String "195" (String "169" "").
Proof. vm_compute. repeat split; reflexivity. Qed.

(** The Kelvin sign (bytes 226 132 170) becomes the letter k. *)
Example toLowerCase_examples :
  toLowerCase "API Key NOT valid" = "api key not valid"
  /\ toLowerCase ("API " +:+ String "226" (String "132" (String "170" "EY")))
     = "api key"
  /\ includes (toLowerCase "Error 503: QUOTA") "quota" = true.
Proof. vm_compute. repeat split; reflexivity. Qed.

(** The characters of a string, for the buttons made of a string. *)
Example code_points_example :
  code_points ("a" +:+ String "195" (String "169" "b"))
  = ["a"; String "195" (String "169" ""); "b"].
Proof. vm_compute. reflexivity. Qed.

(** ** ChatDataStore: [getChatData] and [saveChatData] *)

Section ChatDataStore.

Lemma number_free_ChatData (h : list Content) (si : string) :
  number_free (ChatData_to_json h si) = true.
Proof.
  unfold ChatData_to_json, history_to_json. cbn [number_free forallb snd].
  rewrite !andb_true_r.
  induction h as [|c h IH]; [reflexivity|].
  cbn [map forallb]. rewrite IH, andb_true_r.
  unfold Content_to_json. cbn [number_free forallb snd]. rewrite !andb_true_r.
  induction (parts c) as [|p ps IHp]; [reflexivity|].
  cbn [map forallb]. exact IHp.
Qed.

Lemma Parts_of_json_to_json (ps : list Part) :
  Parts_of_json (map Part_to_json ps) = Some ps.
Proof.
  induction ps as [|[t] ps IH]; [reflexivity|].
  cbn [map Parts_of_json]. rewrite IH. reflexivity.
Qed.

Lemma history_of_json_to_json (h : list Content) :
  history_of_json (history_to_json h) = Some h.
Proof.
  unfold history_of_json, history_to_json.
  induction h as [|[r ps] h IH]; [reflexivity|].
  cbn [map Contents_of_json]. rewrite IH.
  unfold Content_of_json, Content_to_json. cbn [role parts].
  cbn [String.eqb Ascii.eqb Bool.eqb andb].
  rewrite Parts_of_json_to_json. reflexivity.
Qed.

Lemma stringify_ChatData_nonempty (h : list Content) (si : string) :
  String.eqb (JSON.stringify (ChatData_to_json h si)) "" = false.
Proof. reflexivity. Qed.

Lemma parse_empty : JSON.parse "" = None.
Proof. reflexivity. Qed.

(** What [getChatData] reads after [saveChatData], whatever was saved. *)
Lemma getChatData_saveChatData (store : localStorage) (title : string)
    (h : list Content) (si : string) :
  getChatData (saveChatData store title h si) title
  = Normal {| history := history_to_json h;
              systemInstruction :=
                if String.eqb si "" then JSON.JStr DEFAULT_SYSTEM_INSTRUCTION
                else JSON.JStr si |}.
Proof.
  unfold getChatData, saveChatData. rewrite lookup_insert_eq.
  rewrite stringify_ChatData_nonempty.
  unfold getChatData_try, JSON_parse.
  rewrite JSONFacts.parse_stringify by apply number_free_ChatData.
  cbn. destruct (String.eqb si ""); reflexivity.
Qed.

(** C4. Round trip: for a conversation with a non-empty turn list and a
    non-empty system instruction, [saveChatData] followed by [getChatData]
    under the same title returns normally a structure whose history is the
    saved turns, in order, and whose system instruction is the saved one.
    ([getChatData_saveChatData] shows that the turn list may as well be
    empty.) *)
Theorem save_then_load (store : localStorage) (title : string)
    (h : list Content) (si : string) :
  h <> [] -> si <> "" ->
  exists d : ChatData,
    getChatData (saveChatData store title h si) title = Normal d
    /\ d = {| history := history_to_json h; systemInstruction := JSON.JStr si |}
    /\ history_of_json (history d) = Some h
    /\ string_of_json (systemInstruction d) = Some si.
Proof.
  intros _ Hsi. rewrite getChatData_saveChatData.
  apply String.eqb_neq in Hsi. rewrite Hsi.
  eexists; split; [reflexivity|]. split; [reflexivity|].
  cbn [history systemInstruction string_of_json].
  rewrite history_of_json_to_json. split; reflexivity.
Qed.

Lemma save_then_load_witness :
  [user_turn "go left"; model_turn "you fall"] <> [] /\ "Be brief." <> ""
  /\ exists d : ChatData,
       getChatData (saveChatData ∅ "A" [user_turn "go left"; model_turn "you fall"]
                                 "Be brief.") "A" = Normal d
       /\ d = {| history := history_to_json [user_turn "go left"; model_turn "you fall"];
                 systemInstruction := JSON.JStr "Be brief." |}
       /\ history_of_json (history d) = Some [user_turn "go left"; model_turn "you fall"]
       /\ string_of_json (systemInstruction d) = Some "Be brief.".
Proof.
  split; [discriminate|]. split; [discriminate|].
  apply save_then_load; discriminate.
Defined.

Lemma getChatData_absent (store : localStorage) (title : string) :
  store !! (HISTORY_KEY_PREFIX +:+ title) = None ->
  getChatData store title = Normal default_ChatData.
Proof. intros H. unfold getChatData. rewrite H. reflexivity. Qed.

Lemma getChatData_present (store : localStorage) (title raw : string) :
  store !! (HISTORY_KEY_PREFIX +:+ title) = Some raw ->
  getChatData store title
  = Normal (if String.eqb raw "" then default_ChatData
            else try_catch (getChatData_try raw) (fun _ => default_ChatData)).
Proof.
  intros H. unfold getChatData. rewrite H. destruct (String.eqb raw ""); reflexivity.
Qed.

(** A unicode escape in a stored record is read as the character it names. *)
Example getChatData_reads_escapes :
  getChatData
    (<[HISTORY_KEY_PREFIX +:+ "t" :=
         sq "{'history':[],'systemInstruction':'Be brief.','note':'\u2014 \ud83d\ude00'}"]> ∅)
    "t"
  = Normal {| history := JSON.JArr []; systemInstruction := JSON.JStr "Be brief." |}
  /\ JSON.parse (sq "'\u2014\u00e9\ud83d\ude00\ud83dA'")
     = Some (JSON.JStr
               (String "226" (String "128" (String "148"
                 (String "195" (String "169"
                   (String "240" (String "159" (String "152" (String "128"
                     (String "237" (String "160" (String "189" "A"))))))))))))).
Proof. split; vm_compute; reflexivity. Qed.

(** C7. [getChatData] always returns normally; for an absent record it
    returns the empty conversation with the default instruction, for a
    stored bare JSON array it returns that array as the history with the
    default instruction, and for a stored text that is no JSON it returns
    the empty-conversation default. *)
Theorem getChatData_never_throws (store : localStorage) (title : string) :
  (exists d : ChatData, getChatData store title = Normal d)
  /\ (store !! (HISTORY_KEY_PREFIX +:+ title) = None ->
      getChatData store title
      = Normal {| history := JSON.JArr [];
                  systemInstruction := JSON.JStr DEFAULT_SYSTEM_INSTRUCTION |})
  /\ (forall (raw : string) (turns : list JSON.value),
        store !! (HISTORY_KEY_PREFIX +:+ title) = Some raw ->
        JSON.parse raw = Some (JSON.JArr turns) ->
        getChatData store title
        = Normal {| history := JSON.JArr turns;
                    systemInstruction := JSON.JStr DEFAULT_SYSTEM_INSTRUCTION |})
  /\ (forall raw : string,
        store !! (HISTORY_KEY_PREFIX +:+ title) = Some raw ->
        JSON.parse raw = None ->
        getChatData store title
        = Normal {| history := JSON.JArr [];
                    systemInstruction := JSON.JStr DEFAULT_SYSTEM_INSTRUCTION |}).
Proof.
  repeat split.
  - unfold getChatData.
    destruct (store !! (HISTORY_KEY_PREFIX +:+ title)) as [raw|]; [|eauto].
    destruct (String.eqb raw ""); eauto.
  - apply getChatData_absent.
  - intros raw turns Hraw Hparse. rewrite (getChatData_present _ _ _ Hraw).
    destruct (String.eqb_spec raw "") as [->|_]; [discriminate Hparse|].
    unfold getChatData_try, JSON_parse. rewrite Hparse. reflexivity.
  - intros raw Hraw Hparse. rewrite (getChatData_present _ _ _ Hraw).
    destruct (String.eqb raw ""); [reflexivity|].
    unfold getChatData_try, JSON_parse. rewrite Hparse. reflexivity.
Qed.

Lemma getChatData_never_throws_witness :
  getChatData example_store "gone" = Normal default_ChatData
  /\ getChatData example_store "legacy"
     = Normal {| history := JSON.JArr [Content_to_json (user_turn "hi")];
                 systemInstruction := JSON.JStr DEFAULT_SYSTEM_INSTRUCTION |}
  /\ getChatData example_store "broken" = Normal default_ChatData.
Proof.
  split; [|split].
  - apply (proj1 (proj2 (getChatData_never_throws example_store "gone"))).
    vm_compute. reflexivity.
  - apply (proj1 (proj2 (proj2 (getChatData_never_throws example_store "legacy")))
             (sq "[{'role':'user','parts':[{'text':'hi'}]}]")).
    + vm_compute. reflexivity.
    + vm_compute. reflexivity.
  - apply (proj2 (proj2 (proj2 (getChatData_never_throws example_store "broken")))
             "{oops").
    + vm_compute. reflexivity.
    + vm_compute. reflexivity.
Defined.

Lemma truthy_or_else (a : option JSON.value) (b : JSON.value) :
  truthy b = true -> truthy (or_else a b) = true.
Proof.
  intros Hb. destruct a as [v|]; [|exact Hb]. cbn [or_else].
  destruct (truthy v) eqn:Hv; [exact Hv | exact Hb].
Qed.

Lemma getChatData_object (store : localStorage) (title raw : string)
    (ms : list (string * JSON.value)) :
  store !! (HISTORY_KEY_PREFIX +:+ title) = Some raw ->
  JSON.parse raw = Some (JSON.JObj ms) ->
  getChatData store title
  = Normal {| history := or_else (member "history" ms) (JSON.JArr []);
              systemInstruction :=
                or_else (member "systemInstruction" ms)
                        (JSON.JStr DEFAULT_SYSTEM_INSTRUCTION) |}.
Proof.
  intros Hraw Hparse. rewrite (getChatData_present _ _ _ Hraw).
  destruct (String.eqb_spec raw "") as [->|_]; [discriminate Hparse|].
  unfold getChatData_try, JSON_parse. rewrite Hparse. reflexivity.
Qed.

(** C10. For a stored text that parses as a JSON object, [getChatData]
    replaces a missing or empty-string [systemInstruction] by the default
    instruction and a missing [history] by the empty list; the instruction
    it returns is never the empty string; and a conversation saved with an
    empty instruction is read back with the default instruction. *)
Theorem getChatData_normalizes_falsy :
  (forall (store : localStorage) (title raw : string)
          (ms : list (string * JSON.value)),
      store !! (HISTORY_KEY_PREFIX +:+ title) = Some raw ->
      JSON.parse raw = Some (JSON.JObj ms) ->
      exists d : ChatData,
        getChatData store title = Normal d
        /\ systemInstruction d <> JSON.JStr ""
        /\ truthy (systemInstruction d) = true
        /\ (member "systemInstruction" ms = None
            \/ member "systemInstruction" ms = Some (JSON.JStr "") ->
            systemInstruction d = JSON.JStr DEFAULT_SYSTEM_INSTRUCTION)
        /\ (member "history" ms = None -> history d = JSON.JArr []))
  /\ (forall (store : localStorage) (title : string) (h : list Content),
        getChatData (saveChatData store title h "") title
        = Normal {| history := history_to_json h;
                    systemInstruction := JSON.JStr DEFAULT_SYSTEM_INSTRUCTION |}).
Proof.
  split.
  - intros store title raw ms Hraw Hparse.
    rewrite (getChatData_object _ _ _ _ Hraw Hparse).
    eexists; split; [reflexivity|]. cbn [history systemInstruction].
    assert (Ht : truthy (or_else (member "systemInstruction" ms)
                                 (JSON.JStr DEFAULT_SYSTEM_INSTRUCTION)) = true)
      by (apply truthy_or_else; reflexivity).
    repeat split.
    + intros Heq. rewrite Heq in Ht. discriminate Ht.
    + exact Ht.
    + intros [-> | ->]; reflexivity.
    + intros ->. reflexivity.
  - intros store title h. apply getChatData_saveChatData.
Qed.

Lemma getChatData_normalizes_falsy_witness :
  exists d : ChatData,
    getChatData example_store "bare" = Normal d
    /\ systemInstruction d <> JSON.JStr ""
    /\ truthy (systemInstruction d) = true
    /\ (member "systemInstruction" [("systemInstruction", JSON.JStr "")] = None
        \/ member "systemInstruction" [("systemInstruction", JSON.JStr "")]
           = Some (JSON.JStr "") ->
        systemInstruction d = JSON.JStr DEFAULT_SYSTEM_INSTRUCTION)
    /\ (member "history" [("systemInstruction", JSON.JStr "")] = None ->
        history d = JSON.JArr []).
Proof.
  apply (proj1 getChatData_normalizes_falsy example_store "bare"
               (sq "{'systemInstruction':''}")).
  - vm_compute. reflexivity.
  - vm_compute. reflexivity.
Defined.

End ChatDataStore.

(** ** Title uniqueness *)

Section TitleUniqueness.

Variable savedChats : list string.
Variable title : string.

Lemma list_includes_In (chats : list string) (t : string) :
  list_includes chats t = true <-> In t chats.
Proof.
  unfold list_includes. rewrite existsb_exists. split.
  - intros (x & Hx & Heq). apply String.eqb_eq in Heq. subst. exact Hx.
  - intros H. exists t. split; [exact H | apply String.eqb_refl].
Qed.

Lemma decimal_inj (n m : nat) : decimal n = decimal m -> n = m.
Proof.
  unfold decimal. intros H. apply Unsigned.to_uint_inj.
  apply (f_equal NilEmpty.uint_of_string) in H.
  rewrite !NilEmpty.usu in H. congruence.
Qed.

Lemma suffixed_inj (n m : nat) : suffixed title n = suffixed title m -> n = m.
Proof.
  unfold suffixed. intros H. do 2 apply String.app_inj in H.
  apply decimal_inj. exact H.
Qed.

Lemma suffixed_neq_title (n : nat) : suffixed title n <> title.
Proof.
  unfold suffixed. intros H. apply (f_equal String.length) in H.
  rewrite JSONFacts.length_app in H. simpl in H. lia.
Qed.

Lemma tried_suffixed (n rounds : nat) :
  tried title (suffixed title n) (S n) rounds
  = map (suffixed title) (seq n rounds).
Proof.
  revert n. induction rounds as [|r IH]; intros n; [reflexivity|].
  cbn [tried seq map]. rewrite IH. reflexivity.
Qed.

Lemma length_tried (cur : string) (n rounds : nat) :
  length (tried title cur n rounds) = rounds.
Proof.
  revert cur n. induction rounds as [|r IH]; intros cur n; [reflexivity|].
  cbn [tried length]. rewrite IH. reflexivity.
Qed.

Lemma NoDup_tried (rounds : nat) : List.NoDup (tried title title 2 rounds).
Proof.
  destruct rounds as [|r]; [constructor|].
  cbn [tried]. rewrite tried_suffixed. constructor.
  - rewrite in_map_iff. intros (k & Hk & _). exact (suffixed_neq_title k Hk).
  - assert (Hinj : Inj (=) (=) (suffixed title)) by (intros n m; apply suffixed_inj).
    apply NoDup_ListNoDup, (NoDup_fmap_2 (suffixed title)), NoDup_seq.
Qed.

(** When the loop runs out of rounds, every title it tried is in the
    catalog. *)
Lemma unique_loop_None (fuel : nat) :
  forall (cur : string) (n : nat),
    unique_loop fuel savedChats title cur n = None ->
    forall t, In t (tried title cur n fuel) -> In t savedChats.
Proof.
  induction fuel as [|f IH]; intros cur n Hloop t Ht; [destruct Ht|].
  cbn [unique_loop] in Hloop. cbn [tried] in Ht.
  destruct (list_includes savedChats cur) eqn:Hin; [|discriminate Hloop].
  destruct Ht as [<- | Ht].
  - apply list_includes_In. exact Hin.
  - exact (IH _ _ Hloop t Ht).
Qed.

(** What the loop returns: the current title when it is free, otherwise the
    first free suffixed title from the counter on. *)
Lemma unique_loop_Some (fuel : nat) :
  forall (cur : string) (n : nat) (r : string),
    unique_loop fuel savedChats title cur n = Some r ->
    list_includes savedChats r = false
    /\ ((list_includes savedChats cur = false /\ r = cur)
        \/ (list_includes savedChats cur = true
            /\ exists k, n <= k /\ r = suffixed title k
                 /\ forall m, n <= m < k ->
                      list_includes savedChats (suffixed title m) = true)).
Proof.
  induction fuel as [|f IH]; intros cur n r Hloop; [discriminate Hloop|].
  cbn [unique_loop] in Hloop.
  destruct (list_includes savedChats cur) eqn:Hin.
  - destruct (IH _ _ _ Hloop) as [Hfree Hcases]. split; [exact Hfree|].
    right. split; [reflexivity|].
    destruct Hcases as [[Hn ->] | [Hn (k & Hk & -> & Hbelow)]].
    + exists n. split; [lia|]. split; [reflexivity|]. intros m Hm. lia.
    + exists k. split; [lia|]. split; [reflexivity|]. intros m Hm.
      destruct (Nat.eq_dec m n) as [->|Hne]; [exact Hn | apply Hbelow; lia].
  - injection Hloop as <-. split; [exact Hin|]. left. split; reflexivity.
Qed.

(** The loop ends within as many tests as the catalog has entries, plus
    one. *)
Lemma unique_title_terminates :
  exists r, unique_title (S (length savedChats)) savedChats title = Some r.
Proof.
  unfold unique_title.
  destruct (unique_loop (S (length savedChats)) savedChats title title 2)
    as [r|] eqn:Hloop; [eauto|].
  exfalso.
  pose proof (unique_loop_None _ _ _ Hloop) as Hincl.
  pose proof (NoDup_incl_length (NoDup_tried (S (length savedChats))) Hincl) as Hlen.
  rewrite length_tried in Hlen. lia.
Qed.

End TitleUniqueness.

Lemma unique_loop_more_fuel (savedChats : list string) (title : string) (fuel : nat) :
  forall (cur : string) (n : nat) (r : string) (fuel' : nat),
    unique_loop fuel savedChats title cur n = Some r ->
    fuel <= fuel' ->
    unique_loop fuel' savedChats title cur n = Some r.
Proof.
  induction fuel as [|f IH]; intros cur n r fuel' Hloop Hle; [discriminate Hloop|].
  destruct fuel' as [|f']; [lia|].
  cbn [unique_loop] in *.
  destruct (list_includes savedChats cur); [|exact Hloop].
  apply IH; [exact Hloop | lia].
Qed.

(** C6. The uniqueness loop of [generateTitle], run for as many tests as the
    catalog has entries plus one, returns a title that is not in the
    catalog: the candidate itself when it is not in the catalog, and
    otherwise the candidate with the first suffix 2, 3, ... that is not in
    the catalog.  More rounds do not change the result.  With the catalog
    [A] the candidate [A] yields [A 2]; with the catalog [A], [A 2] it
    yields [A 3]. *)
Theorem unique_title_spec :
  (forall (savedChats : list string) (title : string),
      exists r : string,
        unique_title (S (length savedChats)) savedChats title = Some r
        /\ list_includes savedChats r = false
        /\ (list_includes savedChats title = false -> r = title)
        /\ (list_includes savedChats title = true ->
            exists k, 2 <= k /\ r = title +:+ " " +:+ decimal k
              /\ forall m, 2 <= m < k ->
                   list_includes savedChats (title +:+ " " +:+ decimal m) = true)
        /\ (forall fuel, S (length savedChats) <= fuel ->
              unique_title fuel savedChats title = Some r))
  /\ unique_title 2 ["A"] "A" = Some "A 2"
  /\ unique_title 3 ["A"; "A 2"] "A" = Some "A 3".
Proof.
  split; [|split; reflexivity].
  intros savedChats title.
  destruct (unique_title_terminates savedChats title) as [r Hr].
  exists r. split; [exact Hr|].
  destruct (unique_loop_Some _ _ _ _ _ _ Hr) as [Hfree Hcases].
  split; [exact Hfree|]. split; [|split].
  - intros Hout. destruct Hcases as [[_ ->] | [Hin _]]; [reflexivity | congruence].
  - intros Hin. destruct Hcases as [[Hout _] | [_ Hk]]; [congruence | exact Hk].
  - intros fuel Hfuel. exact (unique_loop_more_fuel _ _ _ _ _ _ _ Hr Hfuel).
Qed.

Lemma unique_title_spec_witness :
  exists r : string,
    unique_title 3 ["A"; "A 2"] "A" = Some r
    /\ list_includes ["A"; "A 2"] r = false
    /\ exists k, 2 <= k /\ r = "A" +:+ " " +:+ decimal k
         /\ forall m, 2 <= m < k ->
              list_includes ["A"; "A 2"] ("A" +:+ " " +:+ decimal m) = true.
Proof.
  destruct (proj1 unique_title_spec ["A"; "A 2"] "A")
    as (r & Hr & Hfree & _ & Hsuffix & _).
  exists r. split; [exact Hr|]. split; [exact Hfree|].
  apply Hsuffix. reflexivity.
Defined.

(** ** TurnController *)

Example loadChat_A :
  loadChat "A" (fresh two_stories) = Some open_A
  /\ currentHistory open_A = story_A
  /\ currentChatTitle open_A = Some "A"
  /\ currentSystemInstruction open_A = "Be brief."
  /\ chatContainer open_A = [Message 0 user "go left"; Message 1 model "you fall"]
  /\ storage open_A !! CURRENT_CHAT_KEY = Some "A".
Proof. vm_compute. repeat split; reflexivity. Qed.

Example turn_ok :
  let (s1, req) := sendMessage_begin "look around" open_A in
  match req with
  | None => False
  | Some r =>
      match sendMessage_resume r
              (Responded (Some (sq "{'story_part':'It is dark.','suggestions':['Light a torch','Wait','Shout']}")))
              s1 with
      | None => False
      | Some s2 =>
          currentHistory s2
          = story_A ++ [user_turn "look around"; model_turn "It is dark."]
          /\ chatContainer s2
             = [Message 0 user "go left"; Message 1 model "you fall";
                Message 2 user "look around"; Message 4 model "It is dark.";
                QuickReplies [JSON.JStr "Light a torch"; JSON.JStr "Wait"; JSON.JStr "Shout"]]
          /\ saveTimer s2 = Some 1500
          /\ writes s2 = writes open_A
      end
  end.
Proof. vm_compute. repeat split; reflexivity. Qed.

Example classification :
  map userFriendlyMessage
      [ErrorValue "API key not valid. Please pass a valid API key.";
       ErrorValue "Quota exceeded"; ErrorValue "TypeError: Failed to fetch";
       ErrorValue "got status: 400"; ErrorValue "503 Service Unavailable";
       ErrorValue "boom"; OtherValue]
  = ["Your API key is invalid. Please check your configuration.";
     "You have exceeded your API quota. Please check your usage and billing.";
     "A network error occurred. Please check your internet connection and try again.";
     "The request was malformed. This could be due to a safety policy violation. Please try rephrasing your prompt.";
     "The service is temporarily unavailable. Please try again in a few moments.";
     "Could not get a response. boom";
     "An unexpected error occurred. Please try again later."].
Proof. vm_compute. reflexivity. Qed.

Section TurnController.

Lemma active_title_Some (s : State) (t : string) :
  active_title s = Some t <-> currentChatTitle s = Some t /\ t <> "".
Proof.
  unfold active_title. destruct (currentChatTitle s) as [t'|]; [|split; [discriminate | intros [H _]; discriminate H]].
  destruct (String.eqb_spec t' "") as [->|Hne]; split.
  - discriminate.
  - intros [[= ->] Hne]. contradiction.
  - intros [= ->]. split; [reflexivity | exact Hne].
  - intros [[= ->] _]. reflexivity.
Qed.

Lemma sendMessage_begin_active (userMessage t : string) (s : State) :
  active_title s = Some t ->
  sendMessage_begin userMessage s
  = (awaiting userMessage s,
     Some {| contents := currentHistory s ++ [user_turn userMessage];
             request_systemInstruction :=
               currentSystemInstruction s +:+ STRUCTURED_OUTPUT_NOTE;
             loadingIndicator := S (next_handle s) |}).
Proof. intros Ht. unfold sendMessage_begin. rewrite Ht. reflexivity. Qed.

Lemma sendMessage_begin_inactive (userMessage : string) (s : State) :
  active_title s = None -> sendMessage_begin userMessage s = (s, None).
Proof. intros Ht. unfold sendMessage_begin. rewrite Ht. reflexivity. Qed.

Lemma In_remove_quick_replies (x : element) (c : list element) :
  In x (remove_quick_replies c) -> In x c.
Proof.
  induction c as [|e c IH]; [intros []|].
  destruct e; cbn [remove_quick_replies]; intros H;
    try (destruct H as [<- | H]; [left; reflexivity | right; exact (IH H)]).
  right. exact H.
Qed.

Lemma remove_handle_gone (h : nat) (c : list element) (x : element) :
  In x (remove_handle h c) -> has_handle h x = false.
Proof.
  unfold remove_handle. rewrite <- list_elem_of_In, list_elem_of_filter.
  intros [H _]. exact H.
Qed.

(** The state [handleApiError] leaves. *)
Lemma handleApiError_fields (error : rejection) (indicator : nat) (s : State) :
  handleApiError error indicator s
  = {| currentHistory := currentHistory s;
       currentChatTitle := currentChatTitle s;
       currentSystemInstruction := currentSystemInstruction s;
       saveTimer := saveTimer s;
       storage := storage s;
       writes := writes s;
       chatContainer :=
         remove_quick_replies (remove_handle indicator (chatContainer s))
         ++ [Message (next_handle s) model (error_banner error)];
       next_handle := S (next_handle s) |}.
Proof. reflexivity. Qed.

Lemma prefix_spec (needle s : string) :
  String.prefix needle s = true <-> exists post : string, s = needle +:+ post.
Proof.
  revert s. induction needle as [|c needle IH]; intros s.
  - split; [intros _; exists s; reflexivity | intros _; destruct s; reflexivity].
  - destruct s as [|d s]; cbn [String.prefix].
    + split; [discriminate | intros [post H]; discriminate H].
    + destruct (Ascii.ascii_dec c d) as [<- | Hne].
      * rewrite IH. split; intros [post H]; exists post.
        -- rewrite H. reflexivity.
        -- rewrite JSONFacts.app_cons in H. injection H as H. exact H.
      * split; [discriminate|]. intros [post H]. rewrite JSONFacts.app_cons in H.
        injection H as Hd _. congruence.
Qed.

(** [includes] finds a needle exactly when it occurs. *)
Lemma includes_spec (s needle : string) :
  includes s needle = true <-> contains s needle.
Proof.
  split.
  - induction s as [|c s IH]; cbn [includes];
      destruct (String.prefix needle _) eqn:Hp.
    + intros _. apply prefix_spec in Hp as [post H]. exists "", post. exact H.
    + discriminate.
    + intros _. apply prefix_spec in Hp as [post H]. exists "", post. exact H.
    + intros H. destruct (IH H) as (pre & post & ->).
      exists (String c pre), post. reflexivity.
  - intros (pre & post & ->). induction pre as [|c pre IH].
    + change ("" +:+ needle +:+ post) with (needle +:+ post).
      assert (Hp : String.prefix needle (needle +:+ post) = true)
        by (apply prefix_spec; exists post; reflexivity).
      remember (needle +:+ post) as s eqn:Hs. clear Hs.
      destruct s; cbn [includes]; rewrite Hp; reflexivity.
    + rewrite JSONFacts.app_cons. cbn [includes].
      destruct (String.prefix needle _); [reflexivity | exact IH].
Qed.

Lemma includes_false (s needle : string) :
  includes s needle = false <-> ~ contains s needle.
Proof.
  rewrite <- includes_spec. destruct (includes s needle); split; congruence.
Qed.

(** The text [handleApiError] chooses, by what the message of the error
    holds once in lower case; the first key that occurs decides. *)
Lemma userFriendlyMessage_classifies (e : rejection) :
  match e with
  | OtherValue =>
      userFriendlyMessage e = "An unexpected error occurred. Please try again later."
  | ErrorValue message =>
      let low := toLowerCase message in
      (contains low "api key not valid" ->
       userFriendlyMessage e
       = "Your API key is invalid. Please check your configuration.")
      /\ (~ contains low "api key not valid" ->
          (contains low "quota" ->
           userFriendlyMessage e
           = "You have exceeded your API quota. Please check your usage and billing.")
          /\ (~ contains low "quota" ->
              (contains low "network error" \/ contains low "failed to fetch" ->
               userFriendlyMessage e
               = "A network error occurred. Please check your internet connection and try again.")
              /\ (~ contains low "network error" ->
                  ~ contains low "failed to fetch" ->
                  (contains low "400" ->
                   userFriendlyMessage e
                   = "The request was malformed. This could be due to a safety policy violation. Please try rephrasing your prompt.")
                  /\ (~ contains low "400" ->
                      (contains low "500" \/ contains low "503" ->
                       userFriendlyMessage e
                       = "The service is temporarily unavailable. Please try again in a few moments.")
                      /\ (~ contains low "500" -> ~ contains low "503" ->
                          userFriendlyMessage e
                          = "Could not get a response. " +:+ message)))))
  end.
Proof.
  destruct e as [message|]; [|reflexivity].
  cbv zeta. unfold userFriendlyMessage.
  set (low := toLowerCase message).
  split; [intros H; apply includes_spec in H; rewrite H; reflexivity|].
  intros H; apply includes_false in H; rewrite H.
  split; [intros H1; apply includes_spec in H1; rewrite H1; reflexivity|].
  intros H1; apply includes_false in H1; rewrite H1.
  split.
  { intros [H2 | H2]; apply includes_spec in H2; rewrite H2;
      [reflexivity | rewrite orb_true_r; reflexivity]. }
  intros H2 H3. apply includes_false in H2, H3. rewrite H2, H3. cbn [orb].
  split; [intros H4; apply includes_spec in H4; rewrite H4; reflexivity|].
  intros H4; apply includes_false in H4; rewrite H4.
  split.
  { intros [H5 | H5]; apply includes_spec in H5; rewrite H5;
      [reflexivity | rewrite orb_true_r; reflexivity]. }
  intros H5 H6. apply includes_false in H5, H6. rewrite H5, H6. reflexivity.
Qed.

(** C9. When the backend call of a submitted turn fails, the user turn that
    [sendMessage] appended before the call stays in the history, no model
    turn is appended, and the failure is caught: [sendMessage] ends
    normally, having replaced the loading indicator by one message that
    carries the classified error text.  The text is chosen by the first of
    the keys that the message of the error holds once in lower case: the
    invalid key, the quota, the network, the malformed request, the
    unavailable service; a message with none of them is passed through, and
    a thrown value that is no [Error] gets the general text.  The part on
    the continuation holds in whatever state the failure arrives. *)
Theorem sendMessage_backend_failure (s : State) (t userMessage : string)
    (e : rejection) :
  active_title s = Some t ->
  exists (s1 : State) (req : Request),
    sendMessage_begin userMessage s = (s1, Some req)
    /\ currentHistory s1 = currentHistory s ++ [user_turn userMessage]
    /\ (forall s' : State,
          sendMessage_try req (Rejected e) s' = Some (s', Throw e)
          /\ exists s2 : State,
               sendMessage_resume req (Rejected e) s' = Some s2
               /\ currentHistory s2 = currentHistory s'
               /\ chatContainer s2
                  = remove_quick_replies
                      (remove_handle (loadingIndicator req) (chatContainer s'))
                    ++ [Message (next_handle s') model
                                ("<strong>Error:</strong> " +:+ userFriendlyMessage e)]
               /\ storage s2 = storage s' /\ writes s2 = writes s'
               /\ saveTimer s2 = saveTimer s')
    /\ (exists s2 : State,
         sendMessage_resume req (Rejected e) s1 = Some s2
         /\ currentHistory s2 = currentHistory s ++ [user_turn userMessage]
         /\ forall x, In x (chatContainer s2) ->
              has_handle (loadingIndicator req) x = false)
    /\ match e with
       | OtherValue =>
           userFriendlyMessage e
           = "An unexpected error occurred. Please try again later."
       | ErrorValue message =>
           let low := toLowerCase message in
           (contains low "api key not valid" ->
            userFriendlyMessage e
            = "Your API key is invalid. Please check your configuration.")
           /\ (~ contains low "api key not valid" ->
               (contains low "quota" ->
                userFriendlyMessage e
                = "You have exceeded your API quota. Please check your usage and billing.")
               /\ (~ contains low "quota" ->
                   (contains low "network error" \/ contains low "failed to fetch" ->
                    userFriendlyMessage e
                    = "A network error occurred. Please check your internet connection and try again.")
                   /\ (~ contains low "network error" ->
                       ~ contains low "failed to fetch" ->
                       (contains low "400" ->
                        userFriendlyMessage e
                        = "The request was malformed. This could be due to a safety policy violation. Please try rephrasing your prompt.")
                       /\ (~ contains low "400" ->
                           (contains low "500" \/ contains low "503" ->
                            userFriendlyMessage e
                            = "The service is temporarily unavailable. Please try again in a few moments.")
                           /\ (~ contains low "500" -> ~ contains low "503" ->
                               userFriendlyMessage e
                               = "Could not get a response. " +:+ message)))))
       end.
Proof.
  intros Ht. rewrite (sendMessage_begin_active _ _ _ Ht).
  eexists _, _. split; [reflexivity|]. split; [reflexivity|]. split; [|split].
  - intros s'. split; [reflexivity|].
    eexists. split; [reflexivity|]. repeat split; reflexivity.
  - eexists. split; [reflexivity|]. split; [reflexivity|].
    intros x. rewrite handleApiError_fields. cbn [chatContainer loadingIndicator].
    rewrite in_app_iff. intros [Hx | [<- | []]].
    + apply In_remove_quick_replies in Hx. exact (remove_handle_gone _ _ _ Hx).
    + cbn [has_handle awaiting next_handle]. apply Nat.eqb_neq. lia.
  - exact (userFriendlyMessage_classifies e).
Qed.

Lemma sendMessage_backend_failure_witness :
  exists (s1 : State) (req : Request),
    sendMessage_begin "look around" open_A = (s1, Some req)
    /\ currentHistory s1 = story_A ++ [user_turn "look around"]
    /\ exists s2 : State,
         sendMessage_resume req (Rejected (ErrorValue "Quota exceeded")) s1 = Some s2
         /\ currentHistory s2 = story_A ++ [user_turn "look around"]
         /\ chatContainer s2
            = remove_quick_replies
                (remove_handle (loadingIndicator req) (chatContainer s1))
              ++ [Message (next_handle s1) model
                    "<strong>Error:</strong> You have exceeded your API quota. Please check your usage and billing."].
Proof.
  destruct (sendMessage_backend_failure open_A "A" "look around"
              (ErrorValue "Quota exceeded"))
    as (s1 & req & Hbegin & Hhist & Hany & _ & Hclass).
  - vm_compute. reflexivity.
  - exists s1, req. split; [exact Hbegin|]. split; [exact Hhist|].
    destruct (Hany s1) as (_ & s2 & Hresume & Hhist2 & Hshown & _).
    exists s2. split; [exact Hresume|]. split; [rewrite Hhist2; exact Hhist|].
    rewrite Hshown. cbv zeta in Hclass. destruct Hclass as [_ Hclass].
    destruct Hclass as [Hquota _].
    + apply includes_false. vm_compute. reflexivity.
    + rewrite Hquota; [reflexivity|]. apply includes_spec. vm_compute. reflexivity.
Defined.

Lemma read_response_not_JSON (text : string) :
  JSON.parse text = None ->
  read_response (Some text) = (Some (JSON.JStr text), JSON.JArr []).
Proof.
  intros Hparse. unfold read_response, JSON_parse.
  change (default "undefined" (Some text)) with text.
  rewrite Hparse. reflexivity.
Qed.

(** The state after a story text was accepted. *)
Lemma sendMessage_try_accept (req : Request) (s : State) (response_text : option string)
    (story : string) (suggestions : JSON.value) (buttons : list JSON.value) :
  read_response response_text = (Some (JSON.JStr story), suggestions) ->
  story <> "" ->
  suggestion_buttons suggestions = Some buttons ->
  sendMessage_try req (Responded response_text) s
  = Some ({| currentHistory := currentHistory s ++ [model_turn story];
             currentChatTitle := currentChatTitle s;
             currentSystemInstruction := currentSystemInstruction s;
             saveTimer := Some 1500;
             storage := storage s;
             writes := writes s;
             chatContainer :=
               (remove_quick_replies
                  (remove_handle (loadingIndicator req) (chatContainer s))
                ++ [Message (next_handle s) model story])
               ++ match buttons with
                  | [] => []
                  | _ :: _ => [QuickReplies buttons]
                  end;
             next_handle := S (next_handle s) |}, Normal tt).
Proof.
  intros Hread Hstory Hbuttons. unfold sendMessage_try. rewrite Hread.
  cbn [falsy truthy]. apply String.eqb_neq in Hstory. rewrite Hstory. cbn [negb].
  rewrite Hbuttons. unfold appendMessage, scheduleSave, set_saveTimer, set_currentHistory.
  cbn. destruct buttons; [rewrite app_nil_r|]; reflexivity.
Qed.

(** A response whose text holds a unicode escape is JSON and is read. *)
Example read_response_reads_escapes :
  read_response (Some (sq "{'story_part':'Wait\u2026','suggestions':['Go on']}"))
  = (Some (JSON.JStr ("Wait" +:+ String "226" (String "128" (String "166" "")))),
     JSON.JArr [JSON.JStr "Go on"]).
Proof. vm_compute. reflexivity. Qed.

(** C8, as the code has it.  When the backend returns a non-empty text that
    is no JSON, the turn succeeds: the outer [try] ends normally, the model
    turn appended to the history holds the raw text verbatim, the message
    shown is that text, and no quick replies are shown (the suggestion list
    is empty). *)
Theorem sendMessage_plain_text (req : Request) (s : State) (text : string) :
  JSON.parse text = None ->
  text <> "" ->
  read_response (Some text) = (Some (JSON.JStr text), JSON.JArr [])
  /\ exists s2 : State,
       sendMessage_try req (Responded (Some text)) s = Some (s2, Normal tt)
       /\ sendMessage_resume req (Responded (Some text)) s = Some s2
       /\ currentHistory s2 = currentHistory s ++ [model_turn text]
       /\ chatContainer s2
          = remove_quick_replies
              (remove_handle (loadingIndicator req) (chatContainer s))
            ++ [Message (next_handle s) model text]
       /\ saveTimer s2 = Some 1500.
Proof.
  intros Hparse Htext.
  pose proof (read_response_not_JSON text Hparse) as Hread.
  split; [exact Hread|].
  eexists. unfold sendMessage_resume.
  rewrite (sendMessage_try_accept req s (Some text) text (JSON.JArr []) [] Hread Htext eq_refl).
  split; [reflexivity|]. split; [reflexivity|]. cbn.
  rewrite app_nil_r. repeat split; reflexivity.
Qed.

Example sendMessage_begin_A :
  sendMessage_begin "look around" open_A = (awaiting_A, Some request_A).
Proof. vm_compute. reflexivity. Qed.

Lemma sendMessage_plain_text_witness :
  JSON.parse "Once upon a time..." = None
  /\ "Once upon a time..." <> ""
  /\ read_response (Some "Once upon a time...")
     = (Some (JSON.JStr "Once upon a time..."), JSON.JArr [])
  /\ exists s2 : State,
       sendMessage_try request_A (Responded (Some "Once upon a time...")) awaiting_A
       = Some (s2, Normal tt)
       /\ sendMessage_resume request_A (Responded (Some "Once upon a time...")) awaiting_A
          = Some s2
       /\ currentHistory s2 = currentHistory awaiting_A ++ [model_turn "Once upon a time..."]
       /\ chatContainer s2
          = remove_quick_replies
              (remove_handle (loadingIndicator request_A) (chatContainer awaiting_A))
            ++ [Message (next_handle awaiting_A) model "Once upon a time..."]
       /\ saveTimer s2 = Some 1500.
Proof.
  split; [vm_compute; reflexivity|]. split; [discriminate|].
  apply sendMessage_plain_text; [vm_compute; reflexivity | discriminate].
Defined.

(** C8 as stated fails for the empty text: it is no JSON, yet the turn
    fails, with the error for a missing story part, and no model turn is
    appended. *)
Lemma sendMessage_plain_text_empty :
  JSON.parse "" = None
  /\ (forall s2 : State,
        sendMessage_try request_A (Responded (Some "")) awaiting_A
        <> Some (s2, Normal tt))
  /\ exists s2 : State,
       sendMessage_resume request_A (Responded (Some "")) awaiting_A = Some s2
       /\ currentHistory s2 = story_A ++ [user_turn "look around"]
       /\ chatContainer s2
          = [Message 0 user "go left"; Message 1 model "you fall";
             Message 2 user "look around";
             Message 4 model
               "<strong>Error:</strong> Could not get a response. API response is missing 'story_part'."].
Proof.
  split; [reflexivity|]. split.
  - intros s2. vm_compute. discriminate.
  - eexists. vm_compute. repeat split; reflexivity.
Qed.

(** C1, evaluated.  The backend answers with JSON that has suggestions but
    no story part.  [sendMessage] does not fail the turn: the outer [try]
    ends normally and a model turn is appended, whose text is the format
    notice followed by the raw response. *)
Theorem sendMessage_missing_story_part :
  JSON.parse (sq "{'suggestions':['Wait']}")
  = Some (JSON.JObj [("suggestions", JSON.JArr [JSON.JStr "Wait"])])
  /\ get_prop (JSON.JObj [("suggestions", JSON.JArr [JSON.JStr "Wait"])]) "story_part"
     = Normal None
  /\ exists s2 : State,
       sendMessage_try request_A (Responded (Some (sq "{'suggestions':['Wait']}")))
                       awaiting_A
       = Some (s2, Normal tt)
       /\ sendMessage_resume request_A
            (Responded (Some (sq "{'suggestions':['Wait']}"))) awaiting_A
          = Some s2
       /\ currentHistory s2
          = story_A
            ++ [user_turn "look around";
                model_turn (FORMAT_ERROR_PREFIX +:+ sq "{'suggestions':['Wait']}")]
       /\ chatContainer s2
          = [Message 0 user "go left"; Message 1 model "you fall";
             Message 2 user "look around";
             Message 4 model (FORMAT_ERROR_PREFIX +:+ sq "{'suggestions':['Wait']}");
             QuickReplies [JSON.JStr "Wait"]].
Proof.
  split; [vm_compute; reflexivity|]. split; [reflexivity|].
  eexists. vm_compute. repeat split; reflexivity.
Qed.

(** A response that parses as JSON never fails the turn: whenever the outer
    [try] is inside the model, it ends normally. *)
Lemma parsed_response_never_throws (req : Request) (s : State) (text : string)
    (v : JSON.value) :
  JSON.parse text = Some v ->
  forall (s2 : State) (c : completion rejection unit),
    sendMessage_try req (Responded (Some text)) s = Some (s2, c) -> c = Normal tt.
Proof.
  intros Hparse s2 c. unfold sendMessage_try.
  assert (Hne : String.eqb text "" = false).
  { destruct (String.eqb_spec text "") as [->|]; [discriminate Hparse | reflexivity]. }
  assert (Hstory : exists x sg, read_response (Some text) = (Some x, sg) /\ truthy x = true).
  { unfold read_response, JSON_parse.
    change (default "undefined" (Some text)) with text. rewrite Hparse.
    destruct v as [ | b | n | t | vs | ms ];
      try (eexists _, _; split; [reflexivity|]; cbn [truthy]; try rewrite Hne; reflexivity).
    cbn. eexists _, _. split; [reflexivity|]. apply truthy_or_else. reflexivity. }
  destruct Hstory as (x & sg & -> & Hx). cbn [falsy]. rewrite Hx. cbn [negb].
  destruct x; try discriminate. destruct (suggestion_buttons sg); [|discriminate].
  intros [= <- <-]. reflexivity.
Qed.

Lemma pop_two (rest : list Content) (u m : Content) :
  pop (rest ++ [u; m]) = rest ++ [u]
  /\ last (pop (rest ++ [u; m])) = Some u
  /\ pop (pop (rest ++ [u; m])) = rest.
Proof.
  unfold pop. change (rest ++ [u; m]) with (rest ++ [u] ++ [m]).
  rewrite app_assoc, !removelast_last, last_snoc. repeat split; reflexivity.
Qed.

Lemma parts_text_single (t : string) : parts_text [{| text := t |}] = t.
Proof. cbn. apply JSONFacts.app_nil_r. Qed.

(** The transcript after [regenerateLastResponse] has removed the last model
    message, the last user message and the quick replies. *)
Lemma regenerate_two_turns (s : State) (rest : list Content) (u m : Content) :
  currentHistory s = rest ++ [u; m] ->
  regenerateLastResponse_begin s
  = sendMessage_begin (parts_text (parts u))
      (set_currentHistory rest
         (set_chatContainer
            (remove_quick_replies
               (remove_last user_container
                  (remove_last model_container (chatContainer s)))) s)).
Proof.
  intros Hh. unfold regenerateLastResponse_begin.
  assert (Hlen : (length (currentHistory s) <? 2)%nat = false).
  { apply Nat.ltb_ge. rewrite Hh, length_app. simpl. lia. }
  rewrite Hlen. cbn [set_chatContainer currentHistory]. rewrite Hh.
  destruct (pop_two rest u m) as (_ & -> & ->). reflexivity.
Qed.

(** C3. With a history that ends in a user turn followed by a model turn,
    [regenerateLastResponse] removes exactly these two turns and calls
    [sendMessage] with the text of the removed user turn, so that (a story
    being open) the history awaiting the new answer is the earlier turns
    followed by that user turn again, which is also what the request
    carries.  With a history of fewer than two turns it changes nothing and
    issues no request. *)
Theorem regenerateLastResponse_spec :
  (forall (s : State) (rest : list Content) (userText story : string),
      currentHistory s = rest ++ [user_turn userText; model_turn story] ->
      regenerateLastResponse_begin s
      = sendMessage_begin userText
          (set_currentHistory rest
             (set_chatContainer
                (remove_quick_replies
                   (remove_last user_container
                      (remove_last model_container (chatContainer s)))) s))
      /\ forall t : string,
           active_title s = Some t ->
           exists (s1 : State) (req : Request),
             regenerateLastResponse_begin s = (s1, Some req)
             /\ currentHistory s1 = rest ++ [user_turn userText]
             /\ contents req = rest ++ [user_turn userText])
  /\ (forall s : State,
        length (currentHistory s) < 2 ->
        regenerateLastResponse_begin s = (s, None)).
Proof.
  split.
  - intros s rest userText story Hh.
    rewrite (regenerate_two_turns s rest _ _ Hh).
    cbn [user_turn parts]. rewrite parts_text_single.
    split; [reflexivity|]. intros t Ht.
    erewrite sendMessage_begin_active by exact Ht.
    eexists _, _. split; [reflexivity|]. split; reflexivity.
  - intros s Hlen. unfold regenerateLastResponse_begin.
    apply Nat.ltb_lt in Hlen. rewrite Hlen. reflexivity.
Qed.

Lemma regenerateLastResponse_spec_witness :
  (exists (s1 : State) (req : Request),
      regenerateLastResponse_begin open_A = (s1, Some req)
      /\ currentHistory s1 = [] ++ [user_turn "go left"]
      /\ contents req = [] ++ [user_turn "go left"])
  /\ regenerateLastResponse_begin (fresh two_stories) = (fresh two_stories, None).
Proof.
  split.
  - apply (proj2 (proj1 regenerateLastResponse_spec open_A [] "go left" "you fall"
                        eq_refl) "A").
    vm_compute. reflexivity.
  - apply (proj2 regenerateLastResponse_spec). simpl. lia.
Defined.

End TurnController.

(** ** SaveScheduler *)

Section SaveScheduler.

Lemma elapse_early (dt : nat) (s : State) (remaining : nat) :
  saveTimer s = Some remaining -> dt < remaining ->
  elapse dt s = set_saveTimer (Some (remaining - dt)) s.
Proof.
  intros Ht Hlt. unfold elapse. rewrite Ht.
  apply Nat.leb_gt in Hlt. rewrite Hlt. reflexivity.
Qed.

Lemma elapse_fire (dt : nat) (s : State) (remaining : nat) :
  saveTimer s = Some remaining -> remaining <= dt ->
  elapse dt s = save_callback (set_saveTimer None s).
Proof.
  intros Ht Hle. unfold elapse. rewrite Ht.
  apply Nat.leb_le in Hle. rewrite Hle. reflexivity.
Qed.

Lemma elapse_idle (dt : nat) (s : State) :
  saveTimer s = None -> elapse dt s = s.
Proof. intros Ht. unfold elapse. rewrite Ht. reflexivity. Qed.

Lemma next_call_pending (s : State) (c : SaveCall) :
  saveTimer s = Some 1500 -> gap c < 1500 -> in_memory (handler c) ->
  saveTimer (next_call s c) = Some 1500
  /\ writes (next_call s c) = writes s
  /\ storage (next_call s c) = storage s.
Proof.
  intros Ht Hgap Hmem. unfold next_call. rewrite (elapse_early _ _ _ Ht Hgap).
  destruct (Hmem (set_saveTimer (Some (1500 - gap c)) s)) as [Hw Hs].
  repeat split; [exact Hw | exact Hs].
Qed.

Lemma burst_pending (more : list SaveCall) :
  forall s : State,
    saveTimer s = Some 1500 ->
    Forall (fun x => gap x < 1500 /\ in_memory (handler x)) more ->
    let s' := fold_left next_call more s in
    saveTimer s' = Some 1500
    /\ writes s' = writes s
    /\ storage s' = storage s.
Proof.
  induction more as [|x more IH]; intros s Ht Hall; cbn zeta.
  - repeat split; try reflexivity; exact Ht.
  - cbn [fold_left].
    destruct (Forall_inv Hall) as [Hgap Hmem].
    destruct (next_call_pending s x Ht Hgap Hmem) as (Ht' & Hw & Hs).
    destruct (IH (next_call s x) Ht' (Forall_inv_tail Hall)) as (H1 & H2 & H3).
    split; [exact H1|]. split; congruence.
Qed.

Lemma save_callback_writes (s : State) :
  writes (save_callback s)
  = writes s
    ++ match active_title s with
       | Some t => [(HISTORY_KEY_PREFIX +:+ t, snapshot s)]
       | None => []
       end.
Proof.
  unfold save_callback. destruct (active_title s) as [t|]; [reflexivity|].
  symmetry. apply app_nil_r.
Qed.

Lemma save_callback_timer (s : State) : saveTimer (save_callback s) = saveTimer s.
Proof. unfold save_callback. destruct (active_title s); reflexivity. Qed.

(** C5. A burst of one or more calls of [scheduleSave], each later call
    coming less than 1500 ms after the one before, writes nothing while it
    lasts; when 1500 ms or more then pass, exactly one write is made, under
    the key of the title, of the conversation as the last call left it, and
    no timer is left pending.  The write depends on the title when the timer
    fires: whenever a pending timer fires while no title is active, nothing
    is written. *)
Theorem debounce_coalesces :
  (forall (s0 : State) (c : SaveCall) (more : list SaveCall) (wait : nat),
      in_memory (handler c) ->
      Forall (fun x => gap x < 1500 /\ in_memory (handler x)) more ->
      1500 <= wait ->
      let sN := burst c more s0 in
      writes sN = writes s0
      /\ writes (elapse wait sN)
         = writes s0
           ++ match active_title sN with
              | Some t =>
                  [(HISTORY_KEY_PREFIX +:+ t,
                    JSON.stringify
                      (ChatData_to_json (currentHistory sN)
                                        (currentSystemInstruction sN)))]
              | None => []
              end
      /\ saveTimer (elapse wait sN) = None
      /\ forall later : nat,
           writes (elapse later (elapse wait sN)) = writes (elapse wait sN))
  /\ (forall (s : State) (remaining dt : nat),
        saveTimer s = Some remaining -> remaining <= dt ->
        active_title s = None ->
        elapse dt s = set_saveTimer None s
        /\ writes (elapse dt s) = writes s
        /\ storage (elapse dt s) = storage s).
Proof.
  split.
  - intros s0 c more wait Hc Hall Hwait sN.
    assert (H0 : saveTimer (first_call c s0) = Some 1500) by reflexivity.
    destruct (burst_pending more (first_call c s0) H0 Hall) as (Ht & Hw & _).
    fold (burst c more s0) in Ht, Hw. fold sN in Ht, Hw.
    assert (Hw0 : writes (first_call c s0) = writes s0) by apply (Hc s0).
    rewrite Hw0 in Hw.
    assert (Hfire : elapse wait sN = save_callback (set_saveTimer None sN))
      by (apply (elapse_fire _ _ _ Ht); lia).
    split; [exact Hw|].
    rewrite Hfire. split; [|split].
    + rewrite save_callback_writes.
      change (active_title (set_saveTimer None sN)) with (active_title sN).
      change (writes (set_saveTimer None sN)) with (writes sN).
      rewrite Hw. reflexivity.
    + rewrite save_callback_timer. reflexivity.
    + intros later. rewrite elapse_idle; [reflexivity|].
      rewrite save_callback_timer. reflexivity.
  - intros s remaining dt Ht Hle Hnone.
    rewrite (elapse_fire _ _ _ Ht Hle). unfold save_callback.
    change (active_title (set_saveTimer None s)) with (active_title s).
    rewrite Hnone. repeat split; reflexivity.
Qed.

(** The two calls of [scheduleSave] in [sendMessage] are calls of a burst. *)
Lemma sendMessage_begin_first_call (userMessage t : string) (s : State) :
  active_title s = Some t ->
  fst (sendMessage_begin userMessage s)
  = first_call {| gap := 0; handler := push_user userMessage |} s.
Proof. intros Ht. rewrite (sendMessage_begin_active _ _ _ Ht). reflexivity. Qed.

Lemma sendMessage_resume_next_call (req : Request) (s : State) (text : string)
    (latency : nat) :
  JSON.parse text = None -> text <> "" ->
  sendMessage_resume req (Responded (Some text)) (elapse latency s)
  = Some (next_call s {| gap := latency;
                         handler := push_model (loadingIndicator req) text |}).
Proof.
  intros Hparse Htext. unfold sendMessage_resume.
  rewrite (sendMessage_try_accept req _ (Some text) text (JSON.JArr []) []
             (read_response_not_JSON text Hparse) Htext eq_refl).
  unfold next_call, push_model, scheduleSave. cbn. rewrite !app_nil_r. reflexivity.
Qed.

Lemma in_memory_push_user (userMessage : string) : in_memory (push_user userMessage).
Proof. intros s. split; reflexivity. Qed.

Lemma in_memory_push_model (indicator : nat) (story : string) :
  in_memory (push_model indicator story).
Proof. intros s. split; reflexivity. Qed.

Lemma debounce_coalesces_witness :
  (let sN := burst {| gap := 0; handler := push_user "look around" |}
                   [{| gap := 800; handler := push_model 3 "It is dark." |}] open_A in
   writes sN = writes open_A
   /\ writes (elapse 1500 sN)
      = writes open_A
        ++ match active_title sN with
           | Some t =>
               [(HISTORY_KEY_PREFIX +:+ t,
                 JSON.stringify
                   (ChatData_to_json (currentHistory sN)
                                     (currentSystemInstruction sN)))]
           | None => []
           end
   /\ saveTimer (elapse 1500 sN) = None
   /\ forall later : nat,
        writes (elapse later (elapse 1500 sN)) = writes (elapse 1500 sN))
  /\ (elapse 1500 (scheduleSave (fresh ∅)) = set_saveTimer None (scheduleSave (fresh ∅))
      /\ writes (elapse 1500 (scheduleSave (fresh ∅))) = writes (scheduleSave (fresh ∅))
      /\ storage (elapse 1500 (scheduleSave (fresh ∅))) = storage (scheduleSave (fresh ∅))).
Proof.
  split.
  - apply (proj1 debounce_coalesces).
    + intros s. split; reflexivity.
    + constructor; [|constructor]. split; [cbn; lia | intros s; split; reflexivity].
    + lia.
  - apply (proj2 debounce_coalesces _ 1500); [reflexivity | lia | reflexivity].
Defined.

Example debounce_turn :
  let sN := burst {| gap := 0; handler := push_user "look around" |}
                  [{| gap := 800; handler := push_model 3 "It is dark." |}] open_A in
  writes (elapse 1500 sN)
  = [(CURRENT_CHAT_KEY, "A");
     (HISTORY_KEY_PREFIX +:+ "A",
      sq "{'history':[{'role':'user','parts':[{'text':'go left'}]},{'role':'model','parts':[{'text':'you fall'}]},{'role':'user','parts':[{'text':'look around'}]},{'role':'model','parts':[{'text':'It is dark.'}]}],'systemInstruction':'Be brief.'}")].
Proof. vm_compute. reflexivity. Qed.

End SaveScheduler.

(** ** Switching stories while a request is in flight *)

Section ConcurrentSwitch.

Lemma history_key_not_current (t : string) :
  HISTORY_KEY_PREFIX +:+ t <> CURRENT_CHAT_KEY.
Proof. intros H. vm_compute in H. discriminate H. Qed.

Lemma history_key_inj (t t' : string) :
  HISTORY_KEY_PREFIX +:+ t = HISTORY_KEY_PREFIX +:+ t' -> t = t'.
Proof. intros H. exact (String.app_inj HISTORY_KEY_PREFIX t t' H). Qed.

(** Rendering the loaded turns touches the transcript only. *)
Lemma render_fields (h : list Content) :
  forall s : State,
    let s' := render_history h s in
    currentHistory s' = currentHistory s
    /\ currentChatTitle s' = currentChatTitle s
    /\ currentSystemInstruction s' = currentSystemInstruction s
    /\ saveTimer s' = saveTimer s
    /\ storage s' = storage s
    /\ writes s' = writes s.
Proof.
  unfold render_history.
  induction h as [|m h IH]; intros s; cbn zeta; [repeat split; reflexivity|].
  cbn [fold_left]. specialize (IH (fst (appendMessage (parts_text (parts m))
                                          (sender_of_role (role m)) [] s))).
  cbn zeta in IH. exact IH.
Qed.

(** What [loadChat] leaves in memory and in the store. *)
Lemma loadChat_fields (title : string) (s s' : State) :
  loadChat title s = Some s' ->
  currentChatTitle s' = Some title
  /\ saveTimer s' = saveTimer s
  /\ storage s' = <[CURRENT_CHAT_KEY := title]> (storage s)
  /\ writes s' = writes s ++ [(CURRENT_CHAT_KEY, title)]
  /\ exists d : ChatData,
       getChatData (storage s) title = Normal d
       /\ history_of_json (history d) = Some (currentHistory s')
       /\ string_of_json (systemInstruction d) = Some (currentSystemInstruction s').
Proof.
  unfold loadChat. cbn [storage set_chatContainer setItem set_currentChatTitle].
  assert (Hget : getChatData (<[CURRENT_CHAT_KEY := title]> (storage s)) title
                 = getChatData (storage s) title).
  { unfold getChatData. rewrite lookup_insert_ne; [reflexivity|].
    intros H. symmetry in H. exact (history_key_not_current _ H). }
  rewrite Hget.
  destruct (getChatData (storage s) title) as [d|] eqn:Hd; [|discriminate].
  destruct (history_of_json (history d)) as [h|] eqn:Hh; [|discriminate].
  destruct (string_of_json (systemInstruction d)) as [si|] eqn:Hsi; [|discriminate].
  intros [= <-].
  match goal with
  | |- context [render_history h ?s0] =>
      pose proof (render_fields h s0) as Hr; cbn zeta in Hr;
      destruct Hr as (R1 & R2 & R3 & R4 & R5 & R6);
      set (sR := render_history h s0) in *
  end.
  assert (Hsame : forall s1 : State,
             s1 = sR \/ s1 = fst (appendMessage GREETING model [] sR) ->
             currentChatTitle s1 = Some title
             /\ saveTimer s1 = saveTimer s
             /\ storage s1 = <[CURRENT_CHAT_KEY := title]> (storage s)
             /\ writes s1 = writes s ++ [(CURRENT_CHAT_KEY, title)]
             /\ currentHistory s1 = h
             /\ currentSystemInstruction s1 = si).
  { intros s1 [-> | ->];
      cbn [fst appendMessage currentChatTitle saveTimer storage writes
           currentHistory currentSystemInstruction];
      rewrite R1, R2, R3, R4, R5, R6; repeat split; reflexivity. }
  match goal with
  | |- context [if ?b then ?x else ?y] =>
      assert (Hres : (if b then x else y) = sR \/ (if b then x else y) = x)
        by (destruct b; [right | left]; reflexivity);
      generalize dependent (if b then x else y)
  end.
  intros s1 Hres. destruct (Hsame s1 Hres) as (H1 & H2 & H3 & H4 & H5 & H6).
  split; [exact H1|]. split; [exact H2|]. split; [exact H3|]. split; [exact H4|].
  exists d. rewrite H5, H6. repeat split; assumption.
Qed.

(** C2 as stated fails: the request is issued in story [A], the user
    switches to story [B], and the response that then arrives is appended to
    the history of [B] in memory and, when the save timer fires, to the
    stored record of [B]. *)
Lemma switch_not_discarded :
  sendMessage_begin "look around" open_A = (awaiting_A, Some request_A)
  /\ loadChat "B" awaiting_A = Some switched_to_B
  /\ currentChatTitle switched_to_B = Some "B"
  /\ currentHistory switched_to_B = story_B
  /\ exists s3 : State,
       sendMessage_resume request_A (Responded (Some dark_response)) switched_to_B
       = Some s3
       /\ currentChatTitle s3 = Some "B"
       /\ currentHistory s3 = story_B ++ [model_turn "It is dark."]
       /\ getChatData (storage (elapse 1500 s3)) "B"
          = Normal {| history := history_to_json (story_B ++ [model_turn "It is dark."]);
                      systemInstruction := JSON.JStr DEFAULT_SYSTEM_INSTRUCTION |}
       /\ getChatData (storage (elapse 1500 s3)) "A"
          = Normal {| history := history_to_json story_A;
                      systemInstruction := JSON.JStr "Be brief." |}.
Proof.
  split; [vm_compute; reflexivity|]. split; [vm_compute; reflexivity|].
  split; [vm_compute; reflexivity|]. split; [vm_compute; reflexivity|].
  eexists. split; [vm_compute; reflexivity|]. vm_compute. repeat split; reflexivity.
Qed.

(** C2, as the code has it.  A request is issued while story [tA] is open
    and the user opens story [tB] before the answer arrives.  [sendMessage]
    compares no titles: an answer with a story text is appended to the
    history in memory, which now is the one of [tB].  Its arrival writes
    nothing to the store, so the record of [tA] is as it was before the
    request; when the save timer then fires, the record of [tB] is written
    with the appended model turn, and the record of [tA] still is
    unchanged. *)
Theorem response_after_switch (s s1 sB : State) (tA tB userMessage : string)
    (req : Request) (response_text : option string) (story : string)
    (suggestions : JSON.value) (buttons : list JSON.value) :
  active_title s = Some tA ->
  sendMessage_begin userMessage s = (s1, Some req) ->
  tB <> tA -> tB <> "" ->
  loadChat tB s1 = Some sB ->
  read_response response_text = (Some (JSON.JStr story), suggestions) ->
  story <> "" ->
  suggestion_buttons suggestions = Some buttons ->
  exists s3 : State,
    sendMessage_resume req (Responded response_text) sB = Some s3
    /\ currentChatTitle s3 = Some tB
    /\ currentHistory s3 = currentHistory sB ++ [model_turn story]
    /\ storage s3 = storage sB
    /\ writes s3 = writes sB
    /\ storage s3 !! (HISTORY_KEY_PREFIX +:+ tA)
       = storage s !! (HISTORY_KEY_PREFIX +:+ tA)
    /\ forall wait : nat,
         1500 <= wait ->
         storage (elapse wait s3) !! (HISTORY_KEY_PREFIX +:+ tB)
         = Some (JSON.stringify
                   (ChatData_to_json (currentHistory sB ++ [model_turn story])
                                     (currentSystemInstruction sB)))
         /\ storage (elapse wait s3) !! (HISTORY_KEY_PREFIX +:+ tA)
            = storage s !! (HISTORY_KEY_PREFIX +:+ tA).
Proof.
  intros HA Hbegin Hne HB Hload Hread Hstory Hbuttons.
  rewrite (sendMessage_begin_active _ _ _ HA) in Hbegin.
  injection Hbegin as <- <-.
  destruct (loadChat_fields _ _ _ Hload) as (Htitle & Htimer & Hstore & _ & _).
  assert (HstoreA : storage sB !! (HISTORY_KEY_PREFIX +:+ tA)
                    = storage s !! (HISTORY_KEY_PREFIX +:+ tA)).
  { rewrite Hstore. cbn [awaiting storage].
    apply lookup_insert_ne. intros H. symmetry in H.
    exact (history_key_not_current _ H). }
  unfold sendMessage_resume.
  rewrite (sendMessage_try_accept _ sB _ _ _ _ Hread Hstory Hbuttons).
  eexists. split; [reflexivity|].
  cbn [currentChatTitle currentHistory storage writes].
  split; [exact Htitle|]. split; [reflexivity|]. split; [reflexivity|].
  split; [reflexivity|]. split; [exact HstoreA|].
  intros wait Hwait.
  erewrite elapse_fire; [|reflexivity|exact Hwait].
  unfold save_callback, active_title.
  cbn [set_saveTimer currentChatTitle]. rewrite Htitle.
  apply String.eqb_neq in HB. rewrite HB.
  unfold saveChatData_st, setItem. cbn [storage currentHistory currentSystemInstruction].
  split.
  - apply lookup_insert_eq.
  - rewrite lookup_insert_ne; [exact HstoreA|].
    intros H. apply history_key_inj in H. contradiction.
Qed.

Lemma response_after_switch_witness :
  exists s3 : State,
    sendMessage_resume request_A (Responded (Some dark_response)) switched_to_B = Some s3
    /\ currentChatTitle s3 = Some "B"
    /\ currentHistory s3 = currentHistory switched_to_B ++ [model_turn "It is dark."]
    /\ storage s3 = storage switched_to_B
    /\ writes s3 = writes switched_to_B
    /\ storage s3 !! (HISTORY_KEY_PREFIX +:+ "A")
       = storage open_A !! (HISTORY_KEY_PREFIX +:+ "A")
    /\ forall wait : nat,
         1500 <= wait ->
         storage (elapse wait s3) !! (HISTORY_KEY_PREFIX +:+ "B")
         = Some (JSON.stringify
                   (ChatData_to_json (currentHistory switched_to_B ++ [model_turn "It is dark."])
                                     (currentSystemInstruction switched_to_B)))
         /\ storage (elapse wait s3) !! (HISTORY_KEY_PREFIX +:+ "A")
            = storage open_A !! (HISTORY_KEY_PREFIX +:+ "A").
Proof.
  apply (response_after_switch open_A awaiting_A switched_to_B "A" "B" "look around"
           request_A (Some dark_response) "It is dark."
           (JSON.JArr [JSON.JStr "Light a torch"; JSON.JStr "Wait"; JSON.JStr "Shout"])
           [JSON.JStr "Light a torch"; JSON.JStr "Wait"; JSON.JStr "Shout"]).
  - vm_compute. reflexivity.
  - vm_compute. reflexivity.
  - discriminate.
  - discriminate.
  - vm_compute. reflexivity.
  - vm_compute. reflexivity.
  - discriminate.
  - reflexivity.
Defined.

End ConcurrentSwitch.

(** ** Further checks of the model against the source *)

(** [generateTitle] hands the trimmed, unquoted answer to the uniqueness
    loop, with as many rounds as the catalog has entries plus one. *)
Lemma generateTitle_unique (store : localStorage) (savedChats : list string)
    (response_text localeDate : string) :
  getSavedChats store = Normal (Some savedChats) ->
  remove_dquotes (trim response_text) <> "" ->
  generateTitle_resume store (Responded (Some response_text)) localeDate
  = unique_title (S (length savedChats)) savedChats
                 (remove_dquotes (trim response_text)).
Proof.
  intros Hsaved Hne. unfold generateTitle_resume.
  apply String.eqb_neq in Hne. rewrite Hne, Hsaved. reflexivity.
Qed.

Example generateTitle_examples :
  let store := <[SAVED_CHATS_KEY := sq "['The Dragon','The Dragon 2']"]> ∅ in
  generateTitle_resume store (Responded (Some (sq "  'The Dragon' "))) "1/2/2026"
  = Some "The Dragon 3"
  /\ generateTitle_resume store (Responded (Some "  ")) "1/2/2026"
     = Some "Story from 1/2/2026"
  /\ generateTitle_resume store (Rejected OtherValue) "1/2/2026"
     = Some "Story from 1/2/2026"
  /\ generateTitle_resume ∅ (Responded (Some "The Dragon")) "1/2/2026"
     = Some "The Dragon".
Proof. vm_compute. repeat split; reflexivity. Qed.

(** An answer that arrives after the user has left the story for the start
    screen is appended in memory and schedules a save; when that timer
    fires no title is active, and nothing is written. *)
Example abandoned_conversation :
  match sendMessage_resume request_A (Responded (Some dark_response))
                           (showInitialState awaiting_A) with
  | None => False
  | Some s3 =>
      currentChatTitle s3 = None
      /\ saveTimer s3 = Some 1500
      /\ writes (elapse 1500 s3) = writes awaiting_A
      /\ storage (elapse 1500 s3) = delete CURRENT_CHAT_KEY (storage awaiting_A)
  end.
Proof. vm_compute. repeat split; reflexivity. Qed.

Example saveSettings_example :
  match saveSettings "  Be vivid. " open_A with
  | None => False
  | Some s =>
      currentSystemInstruction s = "Be vivid."
      /\ currentHistory s = story_A
      /\ getChatData (storage s) "A"
         = Normal {| history := history_to_json story_A;
                     systemInstruction := JSON.JStr "Be vivid." |}
  end.
Proof. vm_compute. repeat split; reflexivity. Qed.

Example parse_ex5 :
  map JSON.parse
      [sq "'A\t'"; "[[[[]]]]"; sq " { 'a' : [ true , false , null ] } ";
       String dquote (String "010" (String dquote "")); sq "'\x'"; sq "{'a':1,'a':2}"]
  = [Some (JSON.JStr (String "A" (String "009" "")));
     Some (JSON.JArr [JSON.JArr [JSON.JArr [JSON.JArr []]]]);
     Some (JSON.JObj [("a", JSON.JArr [JSON.JBool true; JSON.JBool false; JSON.JNull])]);
     None; None;
     Some (JSON.JObj [("a", JSON.JNum "1"); ("a", JSON.JNum "2")])].
Proof. vm_compute. reflexivity. Qed.

Example member_last_wins :
  member "a" [("a", JSON.JNum "1"); ("b", JSON.JNull); ("a", JSON.JNum "2")]
  = Some (JSON.JNum "2").
Proof. reflexivity. Qed.

(** * Further properties of the code *)

(** ** The store: stories, catalog and pointer do not interfere *)

Lemma history_key_not_catalog (t : string) :
  HISTORY_KEY_PREFIX +:+ t <> SAVED_CHATS_KEY.
Proof. intros H. vm_compute in H. discriminate H. Qed.

Lemma catalog_key_not_current : SAVED_CHATS_KEY <> CURRENT_CHAT_KEY.
Proof. discriminate. Qed.

(** X1. Saving one story leaves every other story as it reads, and leaves
    the catalog and the last-story pointer alone. *)
Theorem saveChatData_isolated (store : localStorage) (t t' : string)
    (h : list Content) (si : string) :
  t' <> t ->
  getChatData (saveChatData store t h si) t' = getChatData store t'
  /\ getSavedChats (saveChatData store t h si) = getSavedChats store
  /\ saveChatData store t h si !! CURRENT_CHAT_KEY = store !! CURRENT_CHAT_KEY.
Proof.
  intros Hne. unfold getChatData, getSavedChats, saveChatData. repeat split.
  - rewrite lookup_insert_ne; [reflexivity|].
    intros H. apply history_key_inj in H. congruence.
  - rewrite lookup_insert_ne; [reflexivity | apply history_key_not_catalog].
  - apply lookup_insert_ne, history_key_not_current.
Qed.

Lemma saveChatData_isolated_witness :
  getChatData (saveChatData two_stories "A" [] "Be brief.") "B"
  = getChatData two_stories "B"
  /\ getSavedChats (saveChatData two_stories "A" [] "Be brief.")
     = getSavedChats two_stories
  /\ saveChatData two_stories "A" [] "Be brief." !! CURRENT_CHAT_KEY
     = two_stories !! CURRENT_CHAT_KEY.
Proof. apply saveChatData_isolated. discriminate. Defined.

(** ** The catalog *)

Lemma strings_of_values_JStr (l : list string) :
  strings_of_values (map JSON.JStr l) = Some l.
Proof.
  induction l as [|x l IH]; [reflexivity|].
  cbn [map strings_of_values]. rewrite IH. reflexivity.
Qed.

Lemma number_free_strings (l : list string) :
  number_free (JSON.JArr (map JSON.JStr l)) = true.
Proof.
  cbn [number_free]. induction l as [|x l IH]; [reflexivity|].
  cbn [map forallb number_free]. exact IH.
Qed.

Lemma stringify_array_nonempty (vs : list JSON.value) :
  String.eqb (JSON.stringify (JSON.JArr vs)) "" = false.
Proof. destruct vs; reflexivity. Qed.

(** The catalog that is read after a list of titles was written. *)
Lemma getSavedChats_written (store : localStorage) (l : list string) :
  getSavedChats
    (<[SAVED_CHATS_KEY := JSON.stringify (JSON.JArr (map JSON.JStr l))]> store)
  = Normal (Some l).
Proof.
  unfold getSavedChats. rewrite lookup_insert_eq, stringify_array_nonempty.
  unfold JSON_parse. rewrite JSONFacts.parse_stringify by apply number_free_strings.
  cbn. rewrite strings_of_values_JStr. reflexivity.
Qed.

Lemma list_includes_app (l : list string) (t : string) :
  list_includes (l ++ [t]) t = true.
Proof.
  apply list_includes_In, in_or_app. right. left. reflexivity.
Qed.

(** X2. [saveNewChatTitle] on a readable catalog: a title that is listed
    changes nothing at all; a new title is appended at the end, the titles
    before it keep their order.  So a catalog without duplicates stays
    without duplicates, registering the same title again changes nothing,
    and no stored story, nor the in-memory conversation, is touched. *)
Theorem saveNewChatTitle_spec (s : State) (chats : list string) (title : string) :
  getSavedChats (storage s) = Normal (Some chats) ->
  exists s' : State,
    saveNewChatTitle title s = Some s'
    /\ (list_includes chats title = true -> s' = s)
    /\ getSavedChats (storage s')
       = Normal (Some (if list_includes chats title then chats else chats ++ [title]))
    /\ (List.NoDup chats ->
        List.NoDup (if list_includes chats title then chats else chats ++ [title]))
    /\ saveNewChatTitle title s' = Some s'
    /\ (forall t : string, getChatData (storage s') t = getChatData (storage s) t)
    /\ storage s' !! CURRENT_CHAT_KEY = storage s !! CURRENT_CHAT_KEY
    /\ currentHistory s' = currentHistory s
    /\ currentChatTitle s' = currentChatTitle s.
Proof.
  intros Hcat. unfold saveNewChatTitle at 1. rewrite Hcat.
  destruct (list_includes chats title) eqn:Hin.
  - exists s. split; [reflexivity|]. split; [reflexivity|]. split; [exact Hcat|].
    split; [auto|]. split; [|repeat split; reflexivity].
    unfold saveNewChatTitle. rewrite Hcat, Hin. reflexivity.
  - eexists. split; [reflexivity|]. split; [discriminate|].
    cbn [setItem storage currentHistory currentChatTitle].
    split; [apply getSavedChats_written|]. split; [|split; [|split; [|split]]].
    + intros Hnd. apply NoDup_ListNoDup, NoDup_app. split; [apply NoDup_ListNoDup, Hnd|].
      split; [|apply NoDup_singleton].
      intros x Hx Hx'. apply list_elem_of_singleton in Hx'. subst x.
      apply list_elem_of_In, list_includes_In in Hx. congruence.
    + unfold saveNewChatTitle. cbn [setItem storage].
      rewrite getSavedChats_written, list_includes_app. reflexivity.
    + intros t. unfold getChatData. rewrite lookup_insert_ne; [reflexivity|].
      intros H. symmetry in H. exact (history_key_not_catalog _ H).
    + apply lookup_insert_ne, catalog_key_not_current.
    + split; reflexivity.
Qed.

Lemma saveNewChatTitle_spec_witness :
  exists s' : State,
    saveNewChatTitle "C" (fresh (<[SAVED_CHATS_KEY := sq "['A','B']"]> two_stories))
    = Some s'
    /\ getSavedChats (storage s') = Normal (Some ["A"; "B"; "C"])
    /\ saveNewChatTitle "C" s' = Some s'.
Proof.
  destruct (saveNewChatTitle_spec
              (fresh (<[SAVED_CHATS_KEY := sq "['A','B']"]> two_stories))
              ["A"; "B"] "C")
    as (s' & H1 & _ & H2 & _ & H3 & _).
  - vm_compute. reflexivity.
  - exists s'. split; [exact H1|]. split; [exact H2 | exact H3].
Defined.

(** ** Title generation *)

Lemma suffixed_nonempty (title : string) (k : nat) : suffixed title k <> "".
Proof.
  unfold suffixed. intros H. apply (f_equal String.length) in H.
  rewrite JSONFacts.length_app in H. simpl in H. lia.
Qed.

Lemma generateTitle_resume_cases (store : localStorage)
    (result : backend_result) (localeDate : string) :
  getSavedChats store <> Normal None ->
  exists t : string,
    generateTitle_resume store result localeDate = Some t
    /\ t <> ""
    /\ (t = "Story from " +:+ localeDate
        \/ exists (savedChats : list string) (response_text : string),
             getSavedChats store = Normal (Some savedChats)
             /\ result = Responded (Some response_text)
             /\ list_includes savedChats t = false
             /\ (t = remove_dquotes (trim response_text)
                 \/ exists k, 2 <= k
                      /\ t = remove_dquotes (trim response_text) +:+ " " +:+ decimal k)).
Proof.
  intros Hcat. unfold generateTitle_resume.
  assert (Hfallback : exists t : string,
             Some ("Story from " +:+ localeDate) = Some t /\ t <> ""
             /\ (t = "Story from " +:+ localeDate
                 \/ exists (savedChats : list string) (response_text : string),
                      getSavedChats store = Normal (Some savedChats)
                      /\ result = Responded (Some response_text)
                      /\ list_includes savedChats t = false
                      /\ (t = remove_dquotes (trim response_text)
                          \/ exists k, 2 <= k
                               /\ t = remove_dquotes (trim response_text)
                                      +:+ " " +:+ decimal k))).
  { eexists. split; [reflexivity|]. split; [discriminate | left; reflexivity]. }
  destruct result as [[text|]|e]; try exact Hfallback.
  destruct (String.eqb_spec (remove_dquotes (trim text)) "") as [_|Hne];
    [exact Hfallback|].
  destruct (getSavedChats store) as [[saved|]|] eqn:Hsaved;
    [| contradiction | exact Hfallback].
  destruct (unique_title_terminates saved (remove_dquotes (trim text))) as [t Ht].
  exists t. split; [exact Ht|].
  destruct (unique_loop_Some _ _ _ _ _ _ Ht) as [Hfree Hcases].
  assert (Hshape : t = remove_dquotes (trim text)
                   \/ exists k, 2 <= k
                        /\ t = remove_dquotes (trim text) +:+ " " +:+ decimal k).
  { destruct Hcases as [[_ ->] | [_ (k & Hk & -> & _)]];
      [left; reflexivity | right; exists k; split; [exact Hk | reflexivity]]. }
  split.
  - destruct Hshape as [-> | (k & _ & ->)]; [exact Hne | apply suffixed_nonempty].
  - right. exists saved, text. repeat split; assumption.
Qed.

(** X3. [generateTitle] never leaves story creation without a title: unless
    the stored catalog is JSON of a shape other than an array of strings, it
    returns a non-empty title, whatever the backend did.  The title is the
    dated fallback, or else it is the answer without its quotes and outer
    white space, possibly with a numeric suffix, and it is not in the
    catalog. *)
Theorem generateTitle_always_titles (store : localStorage)
    (result : backend_result) (localeDate : string) :
  getSavedChats store <> Normal None ->
  exists t : string,
    generateTitle_resume store result localeDate = Some t
    /\ t <> ""
    /\ (t = "Story from " +:+ localeDate
        \/ exists (savedChats : list string) (response_text : string),
             getSavedChats store = Normal (Some savedChats)
             /\ result = Responded (Some response_text)
             /\ list_includes savedChats t = false
             /\ (t = remove_dquotes (trim response_text)
                 \/ exists k, 2 <= k
                      /\ t = remove_dquotes (trim response_text) +:+ " " +:+ decimal k)).
Proof. apply generateTitle_resume_cases. Qed.

Lemma generateTitle_always_titles_witness :
  exists t : string,
    generateTitle_resume (<[SAVED_CHATS_KEY := sq "['A','A 2']"]> ∅)
                         (Responded (Some (sq " 'A' "))) "1/2/2026" = Some t
    /\ t <> "".
Proof.
  destruct (generateTitle_always_titles (<[SAVED_CHATS_KEY := sq "['A','A 2']"]> ∅)
              (Responded (Some (sq " 'A' "))) "1/2/2026")
    as (t & Ht & Hne & _).
  - vm_compute. discriminate.
  - exists t. split; [exact Ht | exact Hne].
Defined.

(** ** Opening a story *)

Lemma remove_quick_replies_none (c : list element) :
  quick_replies_count c = 0 -> remove_quick_replies c = c.
Proof.
  unfold quick_replies_count. induction c as [|e c IH]; [reflexivity|].
  destruct e; cbn [List.filter is_quick_replies length remove_quick_replies];
    intros H; try discriminate H; rewrite (IH H); reflexivity.
Qed.

Lemma quick_replies_count_app (c c' : list element) :
  quick_replies_count (c ++ c') = quick_replies_count c + quick_replies_count c'.
Proof. unfold quick_replies_count. rewrite List.filter_app, length_app. reflexivity. Qed.

(** What the loop of [loadChat] shows, on a page without quick replies. *)
Lemma render_history_container (h : list Content) :
  forall s : State,
    quick_replies_count (chatContainer s) = 0 ->
    chatContainer (render_history h s)
    = chatContainer s ++ transcript_of (next_handle s) h
    /\ next_handle (render_history h s) = next_handle s + length h.
Proof.
  unfold render_history.
  induction h as [|m h IH]; intros s Hq.
  - cbn. rewrite app_nil_r. split; [reflexivity | lia].
  - cbn [fold_left transcript_of length].
    set (s1 := fst (appendMessage (parts_text (parts m)) (sender_of_role (role m)) [] s)).
    assert (Hc1 : chatContainer s1
                  = chatContainer s
                    ++ [Message (next_handle s) (sender_of_role (role m))
                                (parts_text (parts m))]).
    { subst s1. cbn [appendMessage fst chatContainer].
      rewrite (remove_quick_replies_none _ Hq).
      destruct (sender_of_role (role m)); reflexivity. }
    assert (Hn1 : next_handle s1 = S (next_handle s)) by reflexivity.
    destruct (IH s1) as [IHc IHn].
    { rewrite Hc1, quick_replies_count_app, Hq. reflexivity. }
    rewrite IHc, IHn, Hc1, Hn1, <- app_assoc. split; [reflexivity | lia].
Qed.

(** [loadChat] succeeds on a record of the declared shape, and then it is
    determined by what [getChatData] reads. *)
Lemma loadChat_readable (title : string) (s : State) (d : ChatData)
    (h : list Content) (si : string) :
  getChatData (storage s) title = Normal d ->
  history_of_json (history d) = Some h ->
  string_of_json (systemInstruction d) = Some si ->
  exists s' : State,
    loadChat title s = Some s'
    /\ currentHistory s' = h
    /\ currentSystemInstruction s' = si
    /\ currentChatTitle s' = Some title
    /\ saveTimer s' = saveTimer s
    /\ storage s' = <[CURRENT_CHAT_KEY := title]> (storage s)
    /\ chatContainer s'
       = match h with
         | [] => [Message (next_handle s) model GREETING]
         | _ :: _ => transcript_of (next_handle s) h
         end.
Proof.
  intros Hd Hh Hsi.
  assert (Hget : getChatData (<[CURRENT_CHAT_KEY := title]> (storage s)) title
                 = getChatData (storage s) title).
  { unfold getChatData. rewrite lookup_insert_ne; [reflexivity|].
    intros H. symmetry in H. exact (history_key_not_current _ H). }
  unfold loadChat. cbn [storage set_chatContainer setItem set_currentChatTitle].
  rewrite Hget, Hd, Hh, Hsi.
  match goal with
  | |- context [render_history h ?s0] =>
      pose proof (render_fields h s0) as Hr; cbn zeta in Hr;
      destruct Hr as (R1 & R2 & R3 & R4 & R5 & R6);
      destruct (render_history_container h s0 eq_refl) as [Rc Rn];
      set (sR := render_history h s0) in *
  end.
  cbn [chatContainer next_handle set_currentHistory set_currentSystemInstruction
       app] in Rc, Rn.
  destruct h as [|m h].
  - eexists. split; [reflexivity|].
    cbn [length Nat.eqb fst appendMessage currentHistory currentSystemInstruction
         currentChatTitle saveTimer storage chatContainer].
    rewrite R1, R2, R3, R4, R5, Rc, Rn. cbn. rewrite Nat.add_0_r.
    repeat split; reflexivity.
  - eexists. split; [reflexivity|].
    cbn [length Nat.eqb]. rewrite R1, R2, R3, R4, R5, Rc. repeat split; reflexivity.
Qed.

Lemma getChatData_stored (store : localStorage) (title : string)
    (h : list Content) (si : string) :
  store !! (HISTORY_KEY_PREFIX +:+ title)
  = Some (JSON.stringify (ChatData_to_json h si)) ->
  getChatData store title
  = Normal {| history := history_to_json h;
              systemInstruction :=
                if String.eqb si "" then JSON.JStr DEFAULT_SYSTEM_INSTRUCTION
                else JSON.JStr si |}.
Proof.
  intros Hraw. unfold getChatData. rewrite Hraw, stringify_ChatData_nonempty.
  unfold getChatData_try, JSON_parse.
  rewrite JSONFacts.parse_stringify by apply number_free_ChatData.
  cbn. destruct (String.eqb si ""); reflexivity.
Qed.

(** X4. [loadChat] on a record that [saveChatData] wrote with a non-empty
    instruction: the story becomes the open one and the last-story pointer
    is set, the history and the instruction in memory are the saved ones,
    and the page shows one message per saved turn, in order (the greeting,
    and nothing else, for a story without turns; the greeting is no turn of
    the history).  Nothing but the pointer is written, and a pending save
    timer is left running.  A title without a record opens as an empty
    story with the default instruction. *)
Theorem loadChat_replays (s : State) (title : string) :
  (forall (h : list Content) (si : string),
      storage s !! (HISTORY_KEY_PREFIX +:+ title)
      = Some (JSON.stringify (ChatData_to_json h si)) ->
      si <> "" ->
      exists s' : State,
        loadChat title s = Some s'
        /\ currentHistory s' = h
        /\ currentSystemInstruction s' = si
        /\ currentChatTitle s' = Some title
        /\ saveTimer s' = saveTimer s
        /\ storage s' = <[CURRENT_CHAT_KEY := title]> (storage s)
        /\ chatContainer s'
           = match h with
             | [] => [Message (next_handle s) model GREETING]
             | _ :: _ => transcript_of (next_handle s) h
             end)
  /\ (storage s !! (HISTORY_KEY_PREFIX +:+ title) = None ->
      exists s' : State,
        loadChat title s = Some s'
        /\ currentHistory s' = []
        /\ currentSystemInstruction s' = DEFAULT_SYSTEM_INSTRUCTION
        /\ currentChatTitle s' = Some title
        /\ storage s' = <[CURRENT_CHAT_KEY := title]> (storage s)
        /\ chatContainer s' = [Message (next_handle s) model GREETING]).
Proof.
  split.
  - intros h si Hraw Hsi.
    pose proof (getChatData_stored _ _ _ _ Hraw) as Hd.
    apply String.eqb_neq in Hsi. rewrite Hsi in Hd.
    exact (loadChat_readable title s _ h si Hd (history_of_json_to_json h) eq_refl).
  - intros Hnone.
    destruct (loadChat_readable title s _ [] DEFAULT_SYSTEM_INSTRUCTION
                (getChatData_absent _ _ Hnone) eq_refl eq_refl)
      as (s' & H1 & H2 & H3 & H4 & _ & H6 & H7).
    exists s'. repeat split; assumption.
Qed.

Lemma loadChat_replays_witness :
  (exists s' : State,
      loadChat "A" (fresh two_stories) = Some s'
      /\ currentHistory s' = story_A
      /\ currentSystemInstruction s' = "Be brief."
      /\ currentChatTitle s' = Some "A"
      /\ saveTimer s' = saveTimer (fresh two_stories)
      /\ storage s' = <[CURRENT_CHAT_KEY := "A"]> (storage (fresh two_stories))
      /\ chatContainer s' = transcript_of (next_handle (fresh two_stories)) story_A)
  /\ exists s' : State,
       loadChat "Z" (fresh two_stories) = Some s'
       /\ currentHistory s' = []
       /\ currentSystemInstruction s' = DEFAULT_SYSTEM_INSTRUCTION
       /\ currentChatTitle s' = Some "Z"
       /\ storage s' = <[CURRENT_CHAT_KEY := "Z"]> (storage (fresh two_stories))
       /\ chatContainer s' = [Message (next_handle (fresh two_stories)) model GREETING].
Proof.
  split.
  - apply (proj1 (loadChat_replays (fresh two_stories) "A") story_A "Be brief.").
    + vm_compute. reflexivity.
    + discriminate.
  - apply (proj2 (loadChat_replays (fresh two_stories) "Z")).
    vm_compute. reflexivity.
Defined.

(** ** Starting a new story *)

Lemma genre_instruction_nonempty (genre : string) : genre_instruction genre <> "".
Proof.
  unfold genre_instruction.
  destruct (String.eqb genre "Default" || String.eqb genre ""); discriminate.
Qed.

Lemma startStory_begin_fields (input : string) (selected : option string)
    (custom : string) (st : StoryStart) :
  startStory_begin input selected custom = Some st ->
  start_message st = trim input
  /\ trim input <> ""
  /\ start_genre st = chosen_genre selected custom
  /\ start_instruction st = genre_instruction (chosen_genre selected custom).
Proof.
  unfold startStory_begin.
  destruct (String.eqb_spec (trim input) "") as [|Hne]; [discriminate|].
  intros [= <-]. repeat split; [exact Hne].
Qed.

(** The state in which the handler of the start form awaits the first
    answer of the story. *)
Lemma startStory_resume_fields (s : State) (chats : list string) (st : StoryStart)
    (titleResult : backend_result) (localeDate : string) :
  getSavedChats (storage s) = Normal (Some chats) ->
  start_instruction st <> "" ->
  exists (title : string) (s' : State) (req : Request),
    generateTitle_resume (storage s) titleResult localeDate = Some title
    /\ title <> ""
    /\ startStory_resume st titleResult localeDate s = Some (s', Some req)
    /\ contents req = [user_turn (start_message st)]
    /\ request_systemInstruction req = start_instruction st +:+ STRUCTURED_OUTPUT_NOTE
    /\ currentHistory s' = [user_turn (start_message st)]
    /\ currentChatTitle s' = Some title
    /\ currentSystemInstruction s' = start_instruction st
    /\ saveTimer s' = Some 1500
    /\ storage s'
       = <[CURRENT_CHAT_KEY := title]>
           (<[HISTORY_KEY_PREFIX +:+ title
              := JSON.stringify (ChatData_to_json [] (start_instruction st))]>
              (if list_includes chats title then storage s
               else <[SAVED_CHATS_KEY
                      := JSON.stringify (JSON.JArr (map JSON.JStr (chats ++ [title])))]>
                      (storage s))).
Proof.
  intros Hcat Hsi.
  destruct (generateTitle_resume_cases (storage s) titleResult localeDate)
    as (title & Htitle & Hne & _); [rewrite Hcat; discriminate|].
  exists title. unfold startStory_resume. rewrite Htitle. cbn [mbind option_bind].
  set (store1 := if list_includes chats title then storage s
                 else <[SAVED_CHATS_KEY
                        := JSON.stringify (JSON.JArr (map JSON.JStr (chats ++ [title])))]>
                        (storage s)).
  assert (Hs1 : exists s1 : State,
             saveNewChatTitle title s = Some s1 /\ storage s1 = store1
             /\ saveTimer s1 = saveTimer s).
  { unfold saveNewChatTitle, store1. rewrite Hcat.
    destruct (list_includes chats title); eexists; repeat split; reflexivity. }
  destruct Hs1 as (s1 & -> & Hstore1 & Htimer1). cbn [mbind option_bind].
  set (s2 := saveChatData_st title [] (start_instruction st) s1).
  assert (Hraw : storage s2 !! (HISTORY_KEY_PREFIX +:+ title)
                 = Some (JSON.stringify (ChatData_to_json [] (start_instruction st))))
    by apply lookup_insert_eq.
  pose proof (getChatData_stored _ _ _ _ Hraw) as Hd.
  apply String.eqb_neq in Hsi. rewrite Hsi in Hd.
  destruct (loadChat_readable title s2 _ [] (start_instruction st) Hd eq_refl eq_refl)
    as (s3 & -> & Hh3 & Hi3 & Ht3 & _ & Hst3 & _).
  cbn [mbind option_bind].
  assert (Hact : active_title s3 = Some title).
  { apply active_title_Some. split; assumption. }
  rewrite (sendMessage_begin_active _ _ _ Hact).
  eexists _, _. split; [reflexivity|]. split; [exact Hne|]. split; [reflexivity|].
  cbn [contents request_systemInstruction awaiting currentHistory currentChatTitle
       currentSystemInstruction saveTimer storage].
  rewrite Hh3, Hi3, Ht3, Hst3. repeat split.
  subst s2. cbn [saveChatData_st setItem storage]. rewrite Hstore1. reflexivity.
Qed.

Lemma getSavedChats_other_keys (store : localStorage) (t' value value' : string) :
  getSavedChats (<[CURRENT_CHAT_KEY := value]>
                   (<[HISTORY_KEY_PREFIX +:+ t' := value']> store))
  = getSavedChats store.
Proof.
  unfold getSavedChats.
  rewrite lookup_insert_ne by (intros H; symmetry in H; exact (catalog_key_not_current H)).
  rewrite lookup_insert_ne by apply history_key_not_catalog.
  reflexivity.
Qed.



Example startStory_example :
  match startStory_resume
          {| start_message := "A dragon guards a library";
             start_genre := "Fantasy";
             start_instruction := genre_instruction "Fantasy";
             title_request := titlePrompt "A dragon guards a library" "Fantasy" |}
          (Responded (Some "The Last Library")) "1/2/2026" (fresh ∅) with
  | Some (s', Some req) =>
      currentChatTitle s' = Some "The Last Library"
      /\ includes (currentSystemInstruction s') "Fantasy" = true
      /\ getSavedChats (storage s') = Normal (Some ["The Last Library"])
      /\ chatContainer s'
         = [Message 0 model GREETING; Message 1 user "A dragon guards a library";
            Message 2 loading ""]
  | _ => False
  end.
Proof. vm_compute. repeat split; reflexivity. Qed.

(** X6. When the start form creates a story, every story under another
    title reads as before.  If the backend answered the title request with
    a text that is not blank, the new title is not in the catalog, so no
    listed story is overwritten.  The title can only be one of the catalog
    when it is the dated fallback, which is not made unique: then the
    catalog stays as it is and the story stored under that title now reads
    as a story without turns. *)
Theorem startStory_overwrite (s : State) (chats : list string) (st : StoryStart)
    (input : string) (selected : option string) (custom : string)
    (titleResult : backend_result) (localeDate : string) :
  getSavedChats (storage s) = Normal (Some chats) ->
  startStory_begin input selected custom = Some st ->
  exists (title : string) (s' : State) (req : Request),
    startStory_resume st titleResult localeDate s = Some (s', Some req)
    /\ currentChatTitle s' = Some title
    /\ (forall t' : string,
          t' <> title -> getChatData (storage s') t' = getChatData (storage s) t')
    /\ (forall response_text : string,
          titleResult = Responded (Some response_text) ->
          remove_dquotes (trim response_text) <> "" ->
          list_includes chats title = false
          /\ forall t' : string,
               list_includes chats t' = true ->
               getChatData (storage s') t' = getChatData (storage s) t')
    /\ (list_includes chats title = true ->
        title = "Story from " +:+ localeDate
        /\ getSavedChats (storage s') = Normal (Some chats)
        /\ getChatData (storage s') title
           = Normal {| history := JSON.JArr [];
                       systemInstruction := JSON.JStr (start_instruction st) |}).
Proof.
  intros Hcat Hbegin.
  destruct (startStory_begin_fields _ _ _ _ Hbegin) as (_ & _ & _ & Hinstr).
  assert (Hsi : start_instruction st <> "")
    by (rewrite Hinstr; apply genre_instruction_nonempty).
  destruct (startStory_resume_fields s chats st titleResult localeDate Hcat Hsi)
    as (title & s' & req & Htitle & Hne & Hres & _ & _ & _ & Ht & _ & _ & Hst).
  exists title, s', req. split; [exact Hres|]. split; [exact Ht|].
  assert (Hother : forall t' : string,
             t' <> title -> getChatData (storage s') t' = getChatData (storage s) t').
  { intros t' Hneq. unfold getChatData. rewrite Hst.
    rewrite lookup_insert_ne by (intros H; symmetry in H;
                                 exact (history_key_not_current _ H)).
    rewrite lookup_insert_ne by (intros H; apply history_key_inj in H; congruence).
    destruct (list_includes chats title); [reflexivity|].
    rewrite lookup_insert_ne; [reflexivity|].
    intros H; symmetry in H; exact (history_key_not_catalog _ H). }
  split; [exact Hother|]. split.
  - intros text -> Hblank.
    rewrite (generateTitle_unique _ _ _ _ Hcat Hblank) in Htitle.
    destruct (unique_loop_Some _ _ _ _ _ _ Htitle) as [Hfree _].
    split; [exact Hfree|]. intros t' Hin. apply Hother. intros ->. congruence.
  - intros Hin.
    destruct (generateTitle_resume_cases (storage s) titleResult localeDate)
      as (t0 & Ht0 & _ & Hcases); [rewrite Hcat; discriminate|].
    rewrite Htitle in Ht0. injection Ht0 as <-.
    split; [|split].
    + destruct Hcases as [-> | (saved & text & Hsaved & _ & Hfree & _)]; [reflexivity|].
      rewrite Hcat in Hsaved. injection Hsaved as <-. congruence.
    + rewrite Hst, getSavedChats_other_keys, Hin. exact Hcat.
    + assert (Hraw : storage s' !! (HISTORY_KEY_PREFIX +:+ title)
                     = Some (JSON.stringify (ChatData_to_json [] (start_instruction st)))).
      { rewrite Hst, lookup_insert_ne by (intros H; symmetry in H;
                                           exact (history_key_not_current _ H)).
        apply lookup_insert_eq. }
      rewrite (getChatData_stored _ _ _ _ Hraw).
      apply String.eqb_neq in Hsi. rewrite Hsi. reflexivity.
Qed.

Lemma startStory_overwrite_witness :
  exists (title : string) (s' : State) (req : Request),
    startStory_resume dragon_start (Rejected OtherValue) "1/2/2026"
                      (fresh fallback_store)
    = Some (s', Some req)
    /\ currentChatTitle s' = Some title
    /\ title = "Story from " +:+ "1/2/2026"
    /\ getSavedChats (storage s') = Normal (Some ["Story from 1/2/2026"])
    /\ getChatData (storage s') title
       = Normal {| history := JSON.JArr [];
                   systemInstruction := JSON.JStr (start_instruction dragon_start) |}
    /\ getChatData (storage (fresh fallback_store)) "Story from 1/2/2026"
       = Normal {| history := history_to_json story_A;
                   systemInstruction := JSON.JStr "Be brief." |}.
Proof.
  destruct (startStory_overwrite (fresh fallback_store) ["Story from 1/2/2026"]
              dragon_start "A dragon guards a library" (Some "Fantasy") ""
              (Rejected OtherValue) "1/2/2026")
    as (title & s' & req & Hres & Ht & _ & _ & Hcollide).
  - vm_compute. reflexivity.
  - vm_compute. reflexivity.
  - assert (Htitle : title = "Story from 1/2/2026").
    { assert (Hc : currentChatTitle s' = Some "Story from 1/2/2026").
      { revert Hres. vm_compute. intros [= <- _]. reflexivity. }
      congruence. }
    destruct Hcollide as (H1 & H2 & H3); [rewrite Htitle; reflexivity|].
    exists title, s', req. split; [exact Hres|]. split; [exact Ht|].
    split; [exact H1|]. split; [exact H2|]. split; [exact H3|].
    vm_compute. reflexivity.
Defined.

(** ** A turn with a structured answer *)

Lemma read_response_object (text : string) (ms : list (string * JSON.value)) :
  JSON.parse text = Some (JSON.JObj ms) ->
  read_response (Some text)
  = (Some (or_else (member "story_part" ms) (JSON.JStr (FORMAT_ERROR_PREFIX +:+ text))),
     or_else (member "suggestions" ms) (JSON.JArr [])).
Proof.
  intros Hparse. unfold read_response, JSON_parse.
  change (default "undefined" (Some text)) with text. rewrite Hparse. reflexivity.
Qed.

(** X7. When the answer of the backend is a JSON object whose [story_part]
    is a non-empty string and whose [suggestions] are an array (or are
    missing), the turn succeeds: the loading indicator goes, the story part
    is shown and appended to the history as the model turn, the suggestions
    are offered as one block of quick replies (none for an empty or missing
    array), a save is scheduled, and nothing is written yet. *)
Theorem sendMessage_structured (req : Request) (s : State) (text story : string)
    (ms : list (string * JSON.value)) (suggestions : list JSON.value) :
  JSON.parse text = Some (JSON.JObj ms) ->
  member "story_part" ms = Some (JSON.JStr story) ->
  story <> "" ->
  member "suggestions" ms = Some (JSON.JArr suggestions)
  \/ (member "suggestions" ms = None /\ suggestions = []) ->
  exists s2 : State,
    sendMessage_resume req (Responded (Some text)) s = Some s2
    /\ currentHistory s2 = currentHistory s ++ [model_turn story]
    /\ chatContainer s2
       = remove_quick_replies (remove_handle (loadingIndicator req) (chatContainer s))
         ++ Message (next_handle s) model story
            :: match suggestions with
               | [] => []
               | _ :: _ => [QuickReplies suggestions]
               end
    /\ saveTimer s2 = Some 1500
    /\ storage s2 = storage s
    /\ writes s2 = writes s
    /\ currentChatTitle s2 = currentChatTitle s.
Proof.
  intros Hparse Hstory Hne Hsugg.
  assert (Hread : read_response (Some text)
                  = (Some (JSON.JStr story), JSON.JArr suggestions)).
  { rewrite (read_response_object _ _ Hparse), Hstory. cbn [or_else truthy].
    apply String.eqb_neq in Hne. rewrite Hne. cbn [negb].
    destruct Hsugg as [-> | [-> ->]]; reflexivity. }
  unfold sendMessage_resume.
  rewrite (sendMessage_try_accept req s _ story _ suggestions Hread Hne eq_refl).
  eexists. split; [reflexivity|].
  cbn [currentHistory chatContainer saveTimer storage writes currentChatTitle].
  rewrite <- app_assoc. repeat split; reflexivity.
Qed.

Lemma sendMessage_structured_witness :
  exists s2 : State,
    sendMessage_resume request_A (Responded (Some dark_response)) awaiting_A = Some s2
    /\ currentHistory s2 = currentHistory awaiting_A ++ [model_turn "It is dark."]
    /\ chatContainer s2
       = remove_quick_replies
           (remove_handle (loadingIndicator request_A) (chatContainer awaiting_A))
         ++ [Message (next_handle awaiting_A) model "It is dark.";
             QuickReplies [JSON.JStr "Light a torch"; JSON.JStr "Wait"; JSON.JStr "Shout"]]
    /\ saveTimer s2 = Some 1500
    /\ storage s2 = storage awaiting_A
    /\ writes s2 = writes awaiting_A
    /\ currentChatTitle s2 = currentChatTitle awaiting_A.
Proof.
  apply (sendMessage_structured request_A awaiting_A dark_response "It is dark."
           [("story_part", JSON.JStr "It is dark.");
            ("suggestions",
             JSON.JArr [JSON.JStr "Light a torch"; JSON.JStr "Wait"; JSON.JStr "Shout"])]
           [JSON.JStr "Light a torch"; JSON.JStr "Wait"; JSON.JStr "Shout"]).
  - vm_compute. reflexivity.
  - reflexivity.
  - discriminate.
  - left. reflexivity.
Defined.

(** ** Changing the instruction *)

(** X8. [saveSettings]: a blank instruction changes nothing, and so does any
    instruction while no story is open.  Otherwise the trimmed instruction
    replaces the current one and the story is stored at once, with the
    history as it is in memory (turns not yet saved included), and reopened:
    the history in memory is unchanged, the stored record reads as that
    history with the new instruction, exactly two writes are made (the
    record and the pointer), and a pending save timer keeps running. *)
Theorem saveSettings_spec (s : State) (input : string) :
  (trim input = "" \/ active_title s = None -> saveSettings input s = Some s)
  /\ (forall t : string,
        active_title s = Some t ->
        trim input <> "" ->
        exists s' : State,
          saveSettings input s = Some s'
          /\ currentSystemInstruction s' = trim input
          /\ currentHistory s' = currentHistory s
          /\ currentChatTitle s' = Some t
          /\ getChatData (storage s') t
             = Normal {| history := history_to_json (currentHistory s);
                         systemInstruction := JSON.JStr (trim input) |}
          /\ writes s'
             = writes s
               ++ [(HISTORY_KEY_PREFIX +:+ t,
                    JSON.stringify (ChatData_to_json (currentHistory s) (trim input)));
                   (CURRENT_CHAT_KEY, t)]
          /\ saveTimer s' = saveTimer s).
Proof.
  split.
  - intros H. unfold saveSettings. destruct (active_title s); [|reflexivity].
    destruct H as [-> | H]; [reflexivity | discriminate H].
  - intros t Ht Hne. unfold saveSettings. rewrite Ht.
    pose proof Hne as Hneb. apply String.eqb_neq in Hneb. rewrite Hneb.
    set (s2 := saveChatData_st t _ _ _).
    assert (Hraw : storage s2 !! (HISTORY_KEY_PREFIX +:+ t)
                   = Some (JSON.stringify
                             (ChatData_to_json (currentHistory s) (trim input))))
      by apply lookup_insert_eq.
    pose proof (getChatData_stored _ _ _ _ Hraw) as Hd. rewrite Hneb in Hd.
    destruct (loadChat_readable t s2 _ _ _ Hd (history_of_json_to_json _) eq_refl)
      as (s' & Hload & Hh & Hi & Htitle & Htimer & Hst & _).
    destruct (loadChat_fields _ _ _ Hload) as (_ & _ & _ & Hw & _).
    exists s'. split; [exact Hload|]. split; [exact Hi|]. split; [exact Hh|].
    split; [exact Htitle|]. split; [|split].
    + rewrite <- Hd. unfold getChatData. rewrite Hst.
      rewrite lookup_insert_ne; [reflexivity|].
      intros H. symmetry in H. exact (history_key_not_current _ H).
    + rewrite Hw. subst s2. cbn [saveChatData_st setItem writes
        set_currentSystemInstruction currentHistory]. rewrite <- app_assoc. reflexivity.
    + rewrite Htimer. reflexivity.
Qed.

Lemma saveSettings_spec_witness :
  saveSettings "   " open_A = Some open_A
  /\ exists s' : State,
       saveSettings "  Be vivid. " open_A = Some s'
       /\ currentSystemInstruction s' = trim "  Be vivid. "
       /\ currentHistory s' = currentHistory open_A
       /\ currentChatTitle s' = Some "A"
       /\ getChatData (storage s') "A"
          = Normal {| history := history_to_json (currentHistory open_A);
                      systemInstruction := JSON.JStr (trim "  Be vivid. ") |}
       /\ writes s'
          = writes open_A
            ++ [(HISTORY_KEY_PREFIX +:+ "A",
                 JSON.stringify (ChatData_to_json (currentHistory open_A)
                                                  (trim "  Be vivid. ")));
                (CURRENT_CHAT_KEY, "A")]
       /\ saveTimer s' = saveTimer open_A.
Proof.
  split.
  - apply (proj1 (saveSettings_spec open_A "   ")). left. vm_compute. reflexivity.
  - apply (proj2 (saveSettings_spec open_A "  Be vivid. ") "A").
    + vm_compute. reflexivity.
    + vm_compute. discriminate.
Defined.

(** ** What every handler keeps *)

Lemma count_remove_quick_replies (c : list element) :
  quick_replies_count (remove_quick_replies c) = pred (quick_replies_count c).
Proof.
  unfold quick_replies_count. induction c as [|e c IH]; [reflexivity|].
  destruct e; cbn [remove_quick_replies List.filter is_quick_replies length pred];
    try exact IH; reflexivity.
Qed.

Lemma count_remove_handle (h : nat) (c : list element) :
  quick_replies_count (remove_handle h c) <= quick_replies_count c.
Proof.
  unfold quick_replies_count, remove_handle. induction c as [|e c IH]; [reflexivity|].
  rewrite filter_cons. destruct (decide (has_handle h e = false));
    cbn [List.filter]; destruct (is_quick_replies e); cbn [length]; lia.
Qed.

Lemma count_remove_last (p : element -> bool) (c : list element) :
  quick_replies_count (remove_last p c) <= quick_replies_count c.
Proof.
  unfold quick_replies_count. induction c as [|e c IH]; [reflexivity|].
  cbn [remove_last]. destruct (p e && negb (existsb p c));
    cbn [List.filter]; destruct (is_quick_replies e); cbn [length]; lia.
Qed.

Lemma count_transcript_of (n : nat) (h : list Content) :
  quick_replies_count (transcript_of n h) = 0.
Proof. revert n. induction h as [|m h IH]; intros n; [reflexivity | apply IH]. Qed.

Lemma count_appendMessage (content : string) (who : sender)
    (suggestions : list JSON.value) (s : State) :
  quick_replies_count (chatContainer s) <= 1 ->
  quick_replies_count (chatContainer (fst (appendMessage content who suggestions s))) <= 1.
Proof.
  intros Hq. cbn [appendMessage fst chatContainer].
  assert (H0 : quick_replies_count
                 (remove_quick_replies (chatContainer s)
                  ++ [Message (next_handle s) who content]) = 0).
  { rewrite quick_replies_count_app, count_remove_quick_replies.
    cbn. lia. }
  destruct who; try (rewrite H0; lia).
  destruct suggestions; [rewrite H0; lia|].
  rewrite quick_replies_count_app, H0. cbn. lia.
Qed.

Lemma count_handleApiError (error : rejection) (indicator : nat) (s : State) :
  quick_replies_count (chatContainer s) <= 1 ->
  quick_replies_count (chatContainer (handleApiError error indicator s)) <= 1.
Proof.
  intros Hq. unfold handleApiError. apply count_appendMessage.
  cbn [set_chatContainer chatContainer].
  pose proof (count_remove_handle indicator (chatContainer s)). lia.
Qed.

Lemma count_awaiting (userMessage : string) (s : State) :
  quick_replies_count (chatContainer s) <= 1 ->
  quick_replies_count (chatContainer (awaiting userMessage s)) = 0.
Proof.
  intros Hq. cbn [awaiting chatContainer].
  rewrite quick_replies_count_app, count_remove_quick_replies,
    quick_replies_count_app, !count_remove_quick_replies.
  cbn. lia.
Qed.

(** What [sendMessage] leaves alone, before and after its [await]. *)
Lemma sendMessage_begin_keeps (userMessage : string) (s : State) :
  let s1 := fst (sendMessage_begin userMessage s) in
  currentSystemInstruction s1 = currentSystemInstruction s
  /\ currentChatTitle s1 = currentChatTitle s
  /\ storage s1 = storage s
  /\ writes s1 = writes s
  /\ (quick_replies_count (chatContainer s) <= 1 ->
      quick_replies_count (chatContainer s1) <= 1).
Proof.
  cbn zeta. unfold sendMessage_begin.
  destruct (active_title s) as [t|]; [|repeat split; auto].
  change (fst _) with (awaiting userMessage s).
  repeat split. intros Hq. rewrite (count_awaiting _ _ Hq). lia.
Qed.

Lemma sendMessage_resume_keeps (req : Request) (result : backend_result)
    (s s' : State) :
  sendMessage_resume req result s = Some s' ->
  currentSystemInstruction s' = currentSystemInstruction s
  /\ currentChatTitle s' = currentChatTitle s
  /\ storage s' = storage s
  /\ writes s' = writes s
  /\ (saveTimer s = Some 1500 -> saveTimer s' = Some 1500)
  /\ (quick_replies_count (chatContainer s) <= 1 ->
      quick_replies_count (chatContainer s') <= 1).
Proof.
  unfold sendMessage_resume, sendMessage_try.
  destruct result as [text|e].
  - destruct (read_response text) as [storyPart suggestions].
    destruct (falsy storyPart).
    + intros [= <-]. repeat split; auto. intros Hq. apply count_handleApiError.
      cbn [set_chatContainer chatContainer].
      pose proof (count_remove_handle (loadingIndicator req) (chatContainer s)). lia.
    + destruct storyPart as [[ | | | story | | ]|]; try discriminate.
      destruct (suggestion_buttons suggestions) as [buttons|]; [|discriminate].
      intros [= <-]. repeat split; auto. intros Hq.
      change (quick_replies_count
                (chatContainer
                   (fst (appendMessage story model buttons
                           (set_chatContainer
                              (remove_handle (loadingIndicator req) (chatContainer s))
                              s)))) <= 1).
      apply count_appendMessage. cbn [set_chatContainer chatContainer].
      pose proof (count_remove_handle (loadingIndicator req) (chatContainer s)). lia.
  - intros [= <-]. repeat split; auto. apply count_handleApiError.
Qed.

Lemma getChatData_truthy (store : localStorage) (title : string) (d : ChatData) :
  getChatData store title = Normal d -> truthy (systemInstruction d) = true.
Proof.
  unfold getChatData.
  destruct (store !! (HISTORY_KEY_PREFIX +:+ title)) as [raw|];
    [|intros [= <-]; reflexivity].
  destruct (String.eqb raw ""); [intros [= <-]; reflexivity|].
  unfold getChatData_try, JSON_parse.
  destruct (JSON.parse raw) as [v|]; [|intros [= <-]; reflexivity].
  destruct v; cbn; intros [= <-]; cbn [systemInstruction];
    try reflexivity; apply truthy_or_else; reflexivity.
Qed.

Lemma loadChat_keeps (title : string) (s s' : State) :
  loadChat title s = Some s' ->
  currentSystemInstruction s' <> ""
  /\ quick_replies_count (chatContainer s') = 0.
Proof.
  intros Hload.
  destruct (loadChat_fields _ _ _ Hload) as (_ & _ & _ & _ & d & Hd & Hh & Hsi).
  destruct (loadChat_readable title s d _ _ Hd Hh Hsi) as (s'' & Hload' & _ & _ & _ & _ & _ & Hc).
  rewrite Hload in Hload'. injection Hload' as <-. split.
  - pose proof (getChatData_truthy _ _ _ Hd) as Ht.
    destruct (systemInstruction d); try discriminate Hsi.
    injection Hsi as <-. cbn [truthy] in Ht.
    intros Heq. rewrite Heq in Ht. discriminate Ht.
  - rewrite Hc. destruct (currentHistory s'); [reflexivity | apply count_transcript_of].
Qed.

Lemma save_callback_keeps (s : State) :
  currentSystemInstruction (save_callback s) = currentSystemInstruction s
  /\ chatContainer (save_callback s) = chatContainer s.
Proof. unfold save_callback. destruct (active_title s); split; reflexivity. Qed.

Lemma elapse_keeps (dt : nat) (s : State) :
  currentSystemInstruction (elapse dt s) = currentSystemInstruction s
  /\ chatContainer (elapse dt s) = chatContainer s.
Proof.
  unfold elapse. destruct (saveTimer s) as [r|]; [|split; reflexivity].
  destruct (r <=? dt)%nat; [|split; reflexivity].
  apply (save_callback_keeps (set_saveTimer None s)).
Qed.

Lemma regenerate_keeps (s : State) :
  let s1 := fst (regenerateLastResponse_begin s) in
  currentSystemInstruction s1 = currentSystemInstruction s
  /\ (quick_replies_count (chatContainer s) <= 1 ->
      quick_replies_count (chatContainer s1) <= 1).
Proof.
  cbn zeta. unfold regenerateLastResponse_begin.
  destruct (length (currentHistory s) <? 2)%nat; [split; auto|].
  match goal with
  | |- context [set_currentHistory ?h (set_chatContainer ?c s)] =>
      set (s2 := set_currentHistory h (set_chatContainer c s));
      assert (Hq2 : quick_replies_count (chatContainer s2)
                    <= quick_replies_count (chatContainer s))
  end.
  { subst s2. cbn [set_currentHistory set_chatContainer chatContainer].
    rewrite count_remove_quick_replies.
    pose proof (count_remove_last user_container
                  (remove_last model_container (chatContainer s))).
    pose proof (count_remove_last model_container (chatContainer s)). lia. }
  destruct (last (pop (currentHistory (set_chatContainer _ s)))) as [turn|].
  - destruct (sendMessage_begin_keeps (parts_text (parts turn)) s2)
      as (Hi & _ & _ & _ & Hq).
    split; [exact Hi|]. intros H. apply Hq. lia.
  - split; [reflexivity|]. cbn [fst]. intros H. lia.
Qed.

Lemma saveSettings_keeps (input : string) (s s' : State) :
  saveSettings input s = Some s' ->
  (currentSystemInstruction s <> "" -> currentSystemInstruction s' <> "")
  /\ (quick_replies_count (chatContainer s) <= 1 ->
      quick_replies_count (chatContainer s') <= 1).
Proof.
  unfold saveSettings.
  destruct (active_title s) as [t|]; [|intros [= <-]; auto].
  destruct (String.eqb (trim input) ""); [intros [= <-]; auto|].
  intros Hload. destruct (loadChat_keeps _ _ _ Hload) as [Hi Hq].
  split; [auto | intros _; lia].
Qed.

Lemma startStory_keeps (st : StoryStart) (titleResult : backend_result)
    (localeDate : string) (s s' : State) (req : option Request) :
  startStory_resume st titleResult localeDate s = Some (s', req) ->
  currentSystemInstruction s' <> ""
  /\ quick_replies_count (chatContainer s') <= 1.
Proof.
  unfold startStory_resume.
  destruct (generateTitle_resume (storage s) titleResult localeDate) as [title|];
    [|discriminate].
  cbn [mbind option_bind].
  destruct (saveNewChatTitle title s) as [s1|]; [|discriminate].
  cbn [mbind option_bind].
  destruct (loadChat title _) as [s3|] eqn:Hload; [|discriminate].
  cbn [mbind option_bind]. intros [= Heq].
  assert (Hs' : fst (sendMessage_begin (start_message st) s3) = s')
    by (rewrite Heq; reflexivity).
  destruct (loadChat_keeps _ _ _ Hload) as [Hi Hq].
  destruct (sendMessage_begin_keeps (start_message st) s3) as (Hi' & _ & _ & _ & Hq').
  cbn zeta in Hi', Hq'. rewrite Hs' in Hi', Hq'.
  split; [rewrite Hi'; exact Hi | apply Hq'; lia].
Qed.

Lemma initial_load_keeps (s s' : State) :
  initial_load s = Some s' ->
  (currentSystemInstruction s <> "" -> currentSystemInstruction s' <> "")
  /\ quick_replies_count (chatContainer s') = 0.
Proof.
  unfold initial_load.
  assert (Hshow : Some (showInitialState s) = Some s' ->
                  (currentSystemInstruction s <> "" -> currentSystemInstruction s' <> "")
                  /\ quick_replies_count (chatContainer s') = 0)
    by (intros [= <-]; split; [auto | reflexivity]).
  destruct (storage s !! CURRENT_CHAT_KEY) as [lastChat|]; [|exact Hshow].
  destruct (String.eqb lastChat ""); [exact Hshow|].
  destruct (getSavedChats (storage s)) as [[chats|]|]; try discriminate.
  destruct (list_includes chats lastChat); [|exact Hshow].
  intros Hload. destruct (loadChat_keeps _ _ _ Hload) as [Hi Hq]. split; auto.
Qed.

(** The instruction in memory is never empty and the page never holds more
    than one block of quick replies. *)
Lemma reachable_invariant (s : State) :
  reachable s ->
  currentSystemInstruction s <> ""
  /\ quick_replies_count (chatContainer s) <= 1.
Proof.
  induction 1 as [ store | s s' _ [IHi IHq] Hload | s _ [IHi IHq]
                 | s s' title _ [IHi IHq] Hload | s msg _ [IHi IHq]
                 | s s' req result _ [IHi IHq] Hres | s _ [IHi IHq]
                 | s _ [IHi IHq] | s s' input _ [IHi IHq] Hset
                 | s s' st input sel custom tr date req _ [IHi IHq] _ Hstart
                 | s dt _ [IHi IHq] ].
  - split; [discriminate | cbn; lia].
  - destruct (initial_load_keeps _ _ Hload) as [Hi Hq]. split; [auto | lia].
  - split; [exact IHi | cbn; lia].
  - destruct (loadChat_keeps _ _ _ Hload) as [Hi Hq]. split; [exact Hi | lia].
  - destruct (sendMessage_begin_keeps msg s) as (Hi & _ & _ & _ & Hq).
    cbn zeta in Hi, Hq. split; [rewrite Hi; exact IHi | auto].
  - destruct (sendMessage_resume_keeps _ _ _ _ Hres) as (Hi & _ & _ & _ & _ & Hq).
    split; [rewrite Hi; exact IHi | auto].
  - split; [exact IHi|]. cbn [set_chatContainer chatContainer].
    rewrite count_remove_quick_replies. lia.
  - destruct (regenerate_keeps s) as [Hi Hq]. cbn zeta in Hi, Hq.
    split; [rewrite Hi; exact IHi | auto].
  - destruct (saveSettings_keeps _ _ _ Hset) as [Hi Hq]. split; auto.
  - exact (startStory_keeps _ _ _ _ _ _ Hstart).
  - destruct (elapse_keeps dt s) as [Hi Hc]. rewrite Hi, Hc. split; assumption.
Qed.

Lemma reachable_answered_A : reachable answered_A.
Proof.
  apply (reach_settle awaiting_A answered_A request_A (Responded (Some dark_response)));
    [|vm_compute; reflexivity].
  assert (Hopen : reachable open_A).
  { apply (reach_loadChat (fresh two_stories) open_A "A");
      [apply reach_fresh | exact (proj1 loadChat_A)]. }
  pose proof (reach_sendMessage open_A "look around" Hopen) as H.
  rewrite sendMessage_begin_A in H. exact H.
Qed.

(** X9. However the handlers follow one another, the page never shows more
    than one block of quick replies. *)
Theorem one_quick_replies_block (s : State) :
  reachable s -> quick_replies_count (chatContainer s) <= 1.
Proof. intros H. apply (reachable_invariant s H). Qed.

Lemma one_quick_replies_block_witness :
  quick_replies_count (chatContainer answered_A) <= 1.
Proof.
  apply one_quick_replies_block.
  exact reachable_answered_A.
Defined.

(** *** Stores of the declared shape are kept *)

Lemma getChatData_insert_other (store : localStorage) (key v title : string) :
  key <> HISTORY_KEY_PREFIX +:+ title ->
  getChatData (<[key := v]> store) title = getChatData store title.
Proof.
  intros H. unfold getChatData. rewrite lookup_insert_ne by exact H. reflexivity.
Qed.

Lemma getSavedChats_insert_other (store : localStorage) (key v : string) :
  key <> SAVED_CHATS_KEY ->
  getSavedChats (<[key := v]> store) = getSavedChats store.
Proof.
  intros H. unfold getSavedChats. rewrite lookup_insert_ne by exact H. reflexivity.
Qed.

Lemma well_typed_empty : well_typed ∅.
Proof.
  split; [|vm_compute; discriminate].
  intros title. exists default_ChatData, [], DEFAULT_SYSTEM_INSTRUCTION.
  split; [|split; reflexivity]. apply getChatData_absent, lookup_empty.
Qed.

Lemma well_typed_current_set (store : localStorage) (title : string) :
  well_typed store -> well_typed (<[CURRENT_CHAT_KEY := title]> store).
Proof.
  intros [Hrec Hcat]. split.
  - intros t. unfold typed_record. rewrite getChatData_insert_other; [apply Hrec|].
    intros H. symmetry in H. exact (history_key_not_current _ H).
  - rewrite getSavedChats_insert_other; [exact Hcat|].
    intros H. symmetry in H. exact (catalog_key_not_current H).
Qed.

Lemma well_typed_current_removed (store : localStorage) :
  well_typed store -> well_typed (delete CURRENT_CHAT_KEY store).
Proof.
  intros [Hrec Hcat]. split.
  - intros t. unfold typed_record, getChatData. rewrite lookup_delete_ne; [apply Hrec|].
    intros H. symmetry in H. exact (history_key_not_current _ H).
  - unfold getSavedChats. rewrite lookup_delete_ne; [exact Hcat|].
    intros H. symmetry in H. exact (catalog_key_not_current H).
Qed.

Lemma well_typed_record_written (store : localStorage) (t : string)
    (h : list Content) (si : string) :
  well_typed store -> well_typed (saveChatData store t h si).
Proof.
  intros [Hrec Hcat]. unfold saveChatData. split.
  - intros title. destruct (String.eqb_spec title t) as [-> | Hne].
    + eexists _, h, (if String.eqb si "" then DEFAULT_SYSTEM_INSTRUCTION else si).
      split; [apply getChatData_stored, lookup_insert_eq|].
      split; [apply history_of_json_to_json|].
      cbn [systemInstruction]. destruct (String.eqb si ""); reflexivity.
    + unfold typed_record. rewrite getChatData_insert_other; [apply Hrec|].
      intros H. apply history_key_inj in H. congruence.
  - rewrite getSavedChats_insert_other; [exact Hcat | apply history_key_not_catalog].
Qed.

Lemma well_typed_catalog_written (store : localStorage) (l : list string) :
  well_typed store ->
  well_typed (<[SAVED_CHATS_KEY := JSON.stringify (JSON.JArr (map JSON.JStr l))]> store).
Proof.
  intros [Hrec _]. split.
  - intros t. unfold typed_record. rewrite getChatData_insert_other; [apply Hrec|].
    intros H. symmetry in H. exact (history_key_not_catalog _ H).
  - rewrite getSavedChats_written. discriminate.
Qed.

Lemma loadChat_well_typed (title : string) (s s' : State) :
  loadChat title s = Some s' ->
  well_typed (storage s) -> well_typed (storage s').
Proof.
  intros Hload Hwt. destruct (loadChat_fields _ _ _ Hload) as (_ & _ & -> & _).
  apply well_typed_current_set, Hwt.
Qed.

Lemma save_callback_well_typed (s : State) :
  well_typed (storage s) -> well_typed (storage (save_callback s)).
Proof.
  intros Hwt. unfold save_callback. destruct (active_title s) as [t|]; [|exact Hwt].
  exact (well_typed_record_written _ t _ _ Hwt).
Qed.

Lemma elapse_well_typed (dt : nat) (s : State) :
  well_typed (storage s) -> well_typed (storage (elapse dt s)).
Proof.
  intros Hwt. unfold elapse. destruct (saveTimer s) as [r|]; [|exact Hwt].
  destruct (r <=? dt)%nat; [|exact Hwt].
  apply (save_callback_well_typed (set_saveTimer None s)), Hwt.
Qed.

Lemma regenerate_storage (s : State) :
  storage (fst (regenerateLastResponse_begin s)) = storage s.
Proof.
  unfold regenerateLastResponse_begin.
  destruct (length (currentHistory s) <? 2)%nat; [reflexivity|].
  destruct (last (pop (currentHistory (set_chatContainer _ s)))) as [turn|];
    [|reflexivity].
  match goal with
  | |- storage (fst (sendMessage_begin ?m ?s2)) = _ =>
      destruct (sendMessage_begin_keeps m s2) as (_ & _ & Hst & _)
  end.
  exact Hst.
Qed.

Lemma saveSettings_well_typed (input : string) (s s' : State) :
  saveSettings input s = Some s' ->
  well_typed (storage s) -> well_typed (storage s').
Proof.
  unfold saveSettings.
  destruct (active_title s) as [t|]; [|intros [= <-]; auto].
  destruct (String.eqb (trim input) ""); [intros [= <-]; auto|].
  intros Hload Hwt. apply (loadChat_well_typed _ _ _ Hload).
  exact (well_typed_record_written _ t _ _ Hwt).
Qed.

Lemma saveNewChatTitle_well_typed (title : string) (s s' : State) :
  saveNewChatTitle title s = Some s' ->
  well_typed (storage s) -> well_typed (storage s').
Proof.
  unfold saveNewChatTitle.
  destruct (getSavedChats (storage s)) as [[chats|]|]; try discriminate.
  destruct (list_includes chats title); intros [= <-] Hwt; [exact Hwt|].
  exact (well_typed_catalog_written _ _ Hwt).
Qed.

Lemma startStory_well_typed (st : StoryStart) (titleResult : backend_result)
    (localeDate : string) (s s' : State) (req : option Request) :
  startStory_resume st titleResult localeDate s = Some (s', req) ->
  well_typed (storage s) -> well_typed (storage s').
Proof.
  unfold startStory_resume.
  destruct (generateTitle_resume (storage s) titleResult localeDate) as [title|];
    [|discriminate].
  cbn [mbind option_bind].
  destruct (saveNewChatTitle title s) as [s1|] eqn:Hsave; [|discriminate].
  cbn [mbind option_bind].
  destruct (loadChat title _) as [s3|] eqn:Hload; [|discriminate].
  cbn [mbind option_bind]. intros [= Heq] Hwt.
  assert (Hs' : fst (sendMessage_begin (start_message st) s3) = s')
    by (rewrite Heq; reflexivity).
  destruct (sendMessage_begin_keeps (start_message st) s3) as (_ & _ & Hst & _).
  cbn zeta in Hst. rewrite Hs' in Hst. rewrite Hst.
  apply (loadChat_well_typed _ _ _ Hload).
  exact (well_typed_record_written _ title _ _
           (saveNewChatTitle_well_typed _ _ _ Hsave Hwt)).
Qed.

Lemma initial_load_well_typed (s s' : State) :
  initial_load s = Some s' ->
  well_typed (storage s) -> well_typed (storage s').
Proof.
  unfold initial_load.
  assert (Hshow : Some (showInitialState s) = Some s' ->
                  well_typed (storage s) -> well_typed (storage s'))
    by (intros [= <-]; apply well_typed_current_removed).
  destruct (storage s !! CURRENT_CHAT_KEY) as [lastChat|]; [|exact Hshow].
  destruct (String.eqb lastChat ""); [exact Hshow|].
  destruct (getSavedChats (storage s)) as [[chats|]|]; try discriminate.
  destruct (list_includes chats lastChat); [|exact Hshow].
  apply loadChat_well_typed.
Qed.

(** A handler keeps the store in the declared shape. *)
Lemma handler_step_well_typed (s s' : State) :
  handler_step s s' -> well_typed (storage s) -> well_typed (storage s').
Proof.
  intros Hstep Hwt.
  destruct Hstep as [ s s' Hload | s | s s' title Hload | s msg
                    | s s' req result Hres | s | s | s s' input Hset
                    | s s' st input sel custom tr date req _ Hstart | s dt ].
  - exact (initial_load_well_typed _ _ Hload Hwt).
  - exact (well_typed_current_removed _ Hwt).
  - exact (loadChat_well_typed _ _ _ Hload Hwt).
  - destruct (sendMessage_begin_keeps msg s) as (_ & _ & Hst & _).
    cbn zeta in Hst. rewrite Hst. exact Hwt.
  - destruct (sendMessage_resume_keeps _ _ _ _ Hres) as (_ & _ & Hst & _).
    rewrite Hst. exact Hwt.
  - exact Hwt.
  - rewrite regenerate_storage. exact Hwt.
  - exact (saveSettings_well_typed _ _ _ Hset Hwt).
  - exact (startStory_well_typed _ _ _ _ _ _ Hstart Hwt).
  - exact (elapse_well_typed dt s Hwt).
Qed.

Lemma handler_step_reachable (s s' : State) :
  handler_step s s' -> reachable s -> reachable s'.
Proof.
  intros Hstep Hr.
  destruct Hstep as [ s s' Hload | s | s s' title Hload | s msg
                    | s s' req result Hres | s | s | s s' input Hset
                    | s s' st input sel custom tr date req Hbegin Hstart | s dt ].
  - exact (reach_initial_load _ _ Hr Hload).
  - exact (reach_showInitialState _ Hr).
  - exact (reach_loadChat _ _ _ Hr Hload).
  - exact (reach_sendMessage _ _ Hr).
  - exact (reach_settle _ _ _ _ Hr Hres).
  - exact (reach_quick_reply_removed _ Hr).
  - exact (reach_regenerate _ Hr).
  - exact (reach_saveSettings _ _ _ Hr Hset).
  - exact (reach_startStory _ _ _ _ _ _ _ _ _ Hr Hbegin Hstart).
  - exact (reach_elapse _ _ Hr).
Qed.

Lemma reachable_from_invariant (store : localStorage) (s : State) :
  well_typed store -> reachable_from store s ->
  well_typed (storage s) /\ reachable s.
Proof.
  intros Hwt. unfold reachable_from. revert s. apply rtc_ind_r.
  - split; [exact Hwt | apply reach_fresh].
  - intros s1 s2 _ Hstep [IHwt IHr].
    split; [exact (handler_step_well_typed _ _ Hstep IHwt)
           | exact (handler_step_reachable _ _ Hstep IHr)].
Qed.

(** Over a store of the declared shape every story can be opened. *)
Lemma loadChat_defined (title : string) (s : State) :
  well_typed (storage s) -> exists s' : State, loadChat title s = Some s'.
Proof.
  intros [Hrec _]. destruct (Hrec title) as (d & h & si & Hd & Hh & Hsi).
  destruct (loadChat_readable title s d h si Hd Hh Hsi) as (s' & Hload & _).
  exists s'. exact Hload.
Qed.

Lemma reachable_from_answered_A : reachable_from two_stories answered_A.
Proof.
  unfold reachable_from.
  apply (rtc_l _ _ open_A); [exact (step_loadChat _ _ "A" (proj1 loadChat_A))|].
  apply (rtc_l _ _ awaiting_A).
  { pose proof (step_sendMessage open_A "look around") as H.
    rewrite sendMessage_begin_A in H. exact H. }
  apply rtc_once.
  apply (step_settle awaiting_A answered_A request_A (Responded (Some dark_response))).
  vm_compute. reflexivity.
Qed.

Lemma well_typed_two_stories : well_typed two_stories.
Proof.
  unfold two_stories. apply well_typed_record_written, well_typed_record_written.
  exact well_typed_empty.
Qed.

(** X10. Over a store whose records and catalog have the declared shape,
    however the handlers follow one another: the store keeps that shape,
    so every story can be opened; the instruction in memory is never empty;
    and every request of a turn carries a non-empty instruction before the
    note on the output format.  (A stored instruction that is no string,
    such as an empty array, is outside the declared shape; an answer of the
    backend whose story part is no string is no step of [handler_step].) *)
Theorem instruction_never_empty (store : localStorage) (s : State) :
  well_typed store ->
  reachable_from store s ->
  well_typed (storage s)
  /\ (forall title : string, exists s' : State, loadChat title s = Some s')
  /\ currentSystemInstruction s <> ""
  /\ forall (userMessage : string) (s1 : State) (req : Request),
       sendMessage_begin userMessage s = (s1, Some req) ->
       exists si : string,
         si <> "" /\ request_systemInstruction req = si +:+ STRUCTURED_OUTPUT_NOTE.
Proof.
  intros Hwt Hrun.
  destruct (reachable_from_invariant store s Hwt Hrun) as [Hwt' Hr].
  destruct (reachable_invariant s Hr) as [Hi _].
  split; [exact Hwt'|]. split; [intros title; exact (loadChat_defined title s Hwt')|].
  split; [exact Hi|].
  intros msg s1 req. unfold sendMessage_begin.
  destruct (active_title s); [|discriminate].
  intros [= _ <-]. exists (currentSystemInstruction s). split; [exact Hi | reflexivity].
Qed.

Lemma instruction_never_empty_witness :
  well_typed (storage answered_A)
  /\ (forall title : string, exists s' : State, loadChat title answered_A = Some s')
  /\ currentSystemInstruction answered_A <> ""
  /\ forall (userMessage : string) (s1 : State) (req : Request),
       sendMessage_begin userMessage answered_A = (s1, Some req) ->
       exists si : string,
         si <> "" /\ request_systemInstruction req = si +:+ STRUCTURED_OUTPUT_NOTE.
Proof.
  apply (instruction_never_empty two_stories answered_A).
  - exact well_typed_two_stories.
  - exact reachable_from_answered_A.
Defined.

(** The record a firing timer writes reads back as the conversation. *)
Lemma flush_reads_back (s : State) (t : string) (remaining wait : nat) :
  currentSystemInstruction s <> "" ->
  active_title s = Some t ->
  saveTimer s = Some remaining ->
  remaining <= wait ->
  getChatData (storage (elapse wait s)) t
  = Normal {| history := history_to_json (currentHistory s);
              systemInstruction := JSON.JStr (currentSystemInstruction s) |}
  /\ currentHistory (elapse wait s) = currentHistory s
  /\ currentSystemInstruction (elapse wait s) = currentSystemInstruction s.
Proof.
  intros Hsi Ht Htimer Hle. rewrite (elapse_fire _ _ _ Htimer Hle).
  unfold save_callback.
  change (active_title (set_saveTimer None s)) with (active_title s). rewrite Ht.
  split; [|split; reflexivity].
  cbn [saveChatData_st setItem storage set_saveTimer currentHistory
       currentSystemInstruction].
  erewrite getChatData_stored by apply lookup_insert_eq.
  apply String.eqb_neq in Hsi. rewrite Hsi. reflexivity.
Qed.

(** X11. In a state the handlers reach, when a save is pending for the open
    story, the record that is stored once the timer has fired reads exactly
    as the conversation in memory, and opening the story again gives back
    the same history and the same instruction. *)
Theorem saved_story_reloads (s : State) (t : string) (remaining wait : nat) :
  reachable s ->
  active_title s = Some t ->
  saveTimer s = Some remaining ->
  remaining <= wait ->
  getChatData (storage (elapse wait s)) t
  = Normal {| history := history_to_json (currentHistory s);
              systemInstruction := JSON.JStr (currentSystemInstruction s) |}
  /\ exists s3 : State,
       loadChat t (elapse wait s) = Some s3
       /\ currentHistory s3 = currentHistory s
       /\ currentSystemInstruction s3 = currentSystemInstruction s.
Proof.
  intros Hreach Ht Htimer Hle.
  destruct (reachable_invariant s Hreach) as [Hsi _].
  destruct (flush_reads_back s t remaining wait Hsi Ht Htimer Hle) as (Hd & _ & _).
  split; [exact Hd|].
  destruct (loadChat_readable t (elapse wait s) _ _ _ Hd
              (history_of_json_to_json _) eq_refl)
    as (s3 & Hload & Hh & Hi & _).
  exists s3. repeat split; assumption.
Qed.

Lemma saved_story_reloads_witness :
  getChatData (storage (elapse 1500 answered_A)) "A"
  = Normal {| history := history_to_json (currentHistory answered_A);
              systemInstruction := JSON.JStr (currentSystemInstruction answered_A) |}
  /\ exists s3 : State,
       loadChat "A" (elapse 1500 answered_A) = Some s3
       /\ currentHistory s3 = currentHistory answered_A
       /\ currentSystemInstruction s3 = currentSystemInstruction answered_A.
Proof.
  apply (saved_story_reloads answered_A "A" 1500 1500).
  - exact reachable_answered_A.
  - vm_compute. reflexivity.
  - vm_compute. reflexivity.
  - lia.
Defined.

(** ** Leaving a story *)

Lemma elapse_writes_inactive (dt : nat) (s : State) :
  active_title s = None -> writes (elapse dt s) = writes s.
Proof.
  intros Hnone. unfold elapse. destruct (saveTimer s) as [r|]; [|reflexivity].
  destruct (r <=? dt)%nat; [|reflexivity].
  unfold save_callback.
  change (active_title (set_saveTimer None s)) with (active_title s).
  rewrite Hnone. reflexivity.
Qed.

(** X12. A turn that is submitted and followed by [New chat] before the
    save timer has fired is never stored: [showInitialState] cancels the
    timer, so no write happens however long one waits; and when the answer
    to the turn arrives afterwards, it is not stored either, since no story
    is open when its timer fires. *)
Theorem abandoned_turn_never_saved (s s1 : State) (userMessage : string)
    (req : Request) :
  sendMessage_begin userMessage s = (s1, Some req) ->
  saveTimer s1 = Some 1500
  /\ (forall dt : nat, writes (elapse dt (showInitialState s1)) = writes s)
  /\ (forall (result : backend_result) (s3 : State) (dt : nat),
        sendMessage_resume req result (showInitialState s1) = Some s3 ->
        currentChatTitle s3 = None
        /\ writes (elapse dt s3) = writes s).
Proof.
  intros Hbegin.
  destruct (sendMessage_begin_keeps userMessage s) as (_ & _ & _ & Hw & _).
  cbn zeta in Hw. rewrite Hbegin in Hw. cbn [fst] in Hw.
  split; [|split].
  - revert Hbegin. unfold sendMessage_begin.
    destruct (active_title s); [|discriminate]. intros [= <- _]. reflexivity.
  - intros dt. rewrite elapse_idle by reflexivity. exact Hw.
  - intros result s3 dt Hres.
    destruct (sendMessage_resume_keeps _ _ _ _ Hres) as (_ & Ht & _ & Hw3 & _).
    split; [exact Ht|].
    rewrite elapse_writes_inactive; [rewrite Hw3; exact Hw|].
    unfold active_title. rewrite Ht. reflexivity.
Qed.

Lemma abandoned_turn_never_saved_witness :
  saveTimer awaiting_A = Some 1500
  /\ (forall dt : nat, writes (elapse dt (showInitialState awaiting_A)) = writes open_A)
  /\ (forall (result : backend_result) (s3 : State) (dt : nat),
        sendMessage_resume request_A result (showInitialState awaiting_A) = Some s3 ->
        currentChatTitle s3 = None
        /\ writes (elapse dt s3) = writes open_A).
Proof.
  apply (abandoned_turn_never_saved open_A awaiting_A "look around" request_A).
  vm_compute. reflexivity.
Defined.

(** ** Starting the application again *)

Lemma getSavedChats_pointer (store : localStorage) (value : string) :
  getSavedChats (<[CURRENT_CHAT_KEY := value]> store) = getSavedChats store.
Proof.
  unfold getSavedChats. rewrite lookup_insert_ne; [reflexivity|].
  intros H. symmetry in H. exact (catalog_key_not_current H).
Qed.

(** X13. The initial load follows the last-story pointer.  After [New
    chat] the pointer is gone, and an application started again over the
    same store shows the start screen.  After a story of the catalog was
    opened, an application started again opens that story, with the history
    and the instruction that were loaded before. *)
Theorem initial_load_resumes (s : State) :
  initial_load (fresh (storage (showInitialState s)))
  = Some (showInitialState (fresh (storage (showInitialState s))))
  /\ forall (title : string) (chats : list string) (s' : State),
       loadChat title s = Some s' ->
       title <> "" ->
       getSavedChats (storage s) = Normal (Some chats) ->
       list_includes chats title = true ->
       exists s'' : State,
         initial_load (fresh (storage s')) = Some s''
         /\ loadChat title (fresh (storage s')) = Some s''
         /\ currentChatTitle s'' = Some title
         /\ currentHistory s'' = currentHistory s'
         /\ currentSystemInstruction s'' = currentSystemInstruction s'.
Proof.
  split.
  - unfold initial_load. cbn [showInitialState fresh storage removeItem
      set_saveTimer set_currentChatTitle set_currentHistory set_chatContainer].
    rewrite lookup_delete_eq. reflexivity.
  - intros title chats s' Hload Hne Hcat Hin.
    destruct (loadChat_fields _ _ _ Hload) as (_ & _ & Hst & _ & d & Hd & Hh & Hsi).
    assert (Hd' : getChatData (storage (fresh (storage s'))) title = Normal d).
    { cbn [fresh storage]. rewrite Hst, <- Hd. unfold getChatData.
      rewrite lookup_insert_ne; [reflexivity|].
      intros H. symmetry in H. exact (history_key_not_current _ H). }
    destruct (loadChat_readable title (fresh (storage s')) d _ _ Hd' Hh Hsi)
      as (s'' & Hload' & Hh' & Hi' & Ht' & _).
    exists s''. split; [|repeat split; assumption].
    unfold initial_load. cbn [fresh storage]. rewrite Hst, lookup_insert_eq.
    apply String.eqb_neq in Hne. rewrite Hne, getSavedChats_pointer, Hcat, Hin.
    rewrite <- Hst. exact Hload'.
Qed.

Lemma initial_load_resumes_witness :
  exists s'' : State,
    initial_load (fresh (storage (listed_A))) = Some s''
    /\ loadChat "A" (fresh (storage listed_A)) = Some s''
    /\ currentChatTitle s'' = Some "A"
    /\ currentHistory s'' = currentHistory listed_A
    /\ currentSystemInstruction s'' = currentSystemInstruction listed_A.
Proof.
  apply (proj2 (initial_load_resumes (fresh (<[SAVED_CHATS_KEY := sq "['A','B']"]> two_stories)))
           "A" ["A"; "B"] listed_A).
  - vm_compute. reflexivity.
  - discriminate.
  - vm_compute. reflexivity.
  - reflexivity.
Defined.

(** ** Regeneration after a failed turn *)

(** X14. [regenerateLastResponse] does not look at the roles of the turns it
    removes.  With a story open and at least two turns, it removes the last
    two, whatever they are, and submits the text of the first of them as the
    user message.  After a failed turn the history ends with a model turn
    followed by the unanswered user turn, and it is the text of that model
    turn that is sent again, as a user turn. *)
Theorem regenerate_ignores_roles (s : State) (rest : list Content) (x y : Content)
    (t : string) :
  currentHistory s = rest ++ [x; y] ->
  active_title s = Some t ->
  exists (s1 : State) (req : Request),
    regenerateLastResponse_begin s = (s1, Some req)
    /\ currentHistory s1 = rest ++ [user_turn (parts_text (parts x))]
    /\ contents req = rest ++ [user_turn (parts_text (parts x))].
Proof.
  intros Hh Ht. rewrite (regenerate_two_turns s rest x y Hh).
  erewrite sendMessage_begin_active by exact Ht.
  eexists _, _. split; [reflexivity|]. split; reflexivity.
Qed.

Lemma regenerate_ignores_roles_witness :
  currentHistory failed_A
  = [user_turn "go left"] ++ [model_turn "you fall"; user_turn "look around"]
  /\ exists (s1 : State) (req : Request),
       regenerateLastResponse_begin failed_A = (s1, Some req)
       /\ currentHistory s1
          = [user_turn "go left"] ++ [user_turn (parts_text (parts (model_turn "you fall")))]
       /\ contents req
          = [user_turn "go left"] ++ [user_turn (parts_text (parts (model_turn "you fall")))].
Proof.
  split; [vm_compute; reflexivity|].
  apply (regenerate_ignores_roles failed_A [user_turn "go left"] (model_turn "you fall")
           (user_turn "look around") "A").
  - vm_compute. reflexivity.
  - vm_compute. reflexivity.
Defined.

(** ** Naming a new story by hand ([src/index.tsx]) *)

(** X15. [startNewChat] of [src/index.tsx], on a readable catalog.  A
    cancelled prompt, a blank title and a title that is already listed
    change nothing.  Any other title is listed, trimmed, at the end of the
    catalog, stored as a story without turns under the default instruction,
    and opened with the greeting; every story under another title reads as
    before. *)
Theorem startNewChat_prompted_spec (s : State) (chats : list string) :
  getSavedChats (storage s) = Normal (Some chats) ->
  startNewChat_prompted None s = Some s
  /\ forall title : string,
       (trim title = "" \/ list_includes chats (trim title) = true ->
        startNewChat_prompted (Some title) s = Some s)
       /\ (trim title <> "" ->
           list_includes chats (trim title) = false ->
           exists s' : State,
             startNewChat_prompted (Some title) s = Some s'
             /\ getSavedChats (storage s') = Normal (Some (chats ++ [trim title]))
             /\ currentChatTitle s' = Some (trim title)
             /\ currentHistory s' = []
             /\ currentSystemInstruction s' = DEFAULT_SYSTEM_INSTRUCTION
             /\ chatContainer s' = [Message (next_handle s) model GREETING]
             /\ forall t' : string,
                  t' <> trim title ->
                  getChatData (storage s') t' = getChatData (storage s) t').
Proof.
  intros Hcat. split; [reflexivity|]. intros title. split.
  - intros H. unfold startNewChat_prompted.
    destruct (String.eqb_spec (trim title) "") as [Hblank|Hnb].
    + rewrite orb_true_r. reflexivity.
    + destruct (String.eqb title ""); [reflexivity|]. cbn [orb].
      rewrite Hcat. destruct H as [H|H]; [contradiction | rewrite H; reflexivity].
  - intros Hnb Hnew. unfold startNewChat_prompted.
    assert (Htitle : String.eqb title "" = false).
    { destruct (String.eqb_spec title "") as [->|]; [|reflexivity].
      exfalso. apply Hnb. reflexivity. }
    pose proof Hnb as Hnbb. apply String.eqb_neq in Hnbb.
    rewrite Htitle, Hnbb. cbn [orb]. rewrite Hcat, Hnew.
    unfold saveNewChatTitle. rewrite Hcat, Hnew. cbn [mbind option_bind].
    set (s2 := saveChatData_st (trim title) [] DEFAULT_SYSTEM_INSTRUCTION _).
    assert (Hraw : storage s2 !! (HISTORY_KEY_PREFIX +:+ trim title)
                   = Some (JSON.stringify (ChatData_to_json [] DEFAULT_SYSTEM_INSTRUCTION)))
      by apply lookup_insert_eq.
    pose proof (getChatData_stored _ _ _ _ Hraw) as Hd.
    destruct (loadChat_readable (trim title) s2 _ [] DEFAULT_SYSTEM_INSTRUCTION Hd
                eq_refl eq_refl)
      as (s' & Hload & Hh & Hi & Ht & _ & Hst & Hc).
    exists s'. split; [exact Hload|].
    assert (Hst2 : storage s2
                   = <[HISTORY_KEY_PREFIX +:+ trim title
                       := JSON.stringify (ChatData_to_json [] DEFAULT_SYSTEM_INSTRUCTION)]>
                       (<[SAVED_CHATS_KEY
                          := JSON.stringify
                               (JSON.JArr (map JSON.JStr (chats ++ [trim title])))]>
                          (storage s))) by reflexivity.
    split; [|split; [exact Ht|split; [exact Hh|split; [exact Hi|split; [exact Hc|]]]]].
    + rewrite Hst, Hst2, getSavedChats_other_keys. apply getSavedChats_written.
    + intros t' Hneq. unfold getChatData. rewrite Hst, Hst2.
      rewrite lookup_insert_ne by (intros H; symmetry in H;
                                   exact (history_key_not_current _ H)).
      rewrite lookup_insert_ne by (intros H; apply history_key_inj in H; congruence).
      rewrite lookup_insert_ne; [reflexivity|].
      intros H. symmetry in H. exact (history_key_not_catalog _ H).
Qed.

Lemma startNewChat_prompted_spec_witness :
  startNewChat_prompted (Some " A ") (fresh (<[SAVED_CHATS_KEY := sq "['A','B']"]> two_stories))
  = Some (fresh (<[SAVED_CHATS_KEY := sq "['A','B']"]> two_stories))
  /\ exists s' : State,
       startNewChat_prompted (Some " My Magical Adventure ")
                             (fresh (<[SAVED_CHATS_KEY := sq "['A','B']"]> two_stories))
       = Some s'
       /\ getSavedChats (storage s')
          = Normal (Some (["A"; "B"] ++ [trim " My Magical Adventure "])).
Proof.
  destruct (startNewChat_prompted_spec
              (fresh (<[SAVED_CHATS_KEY := sq "['A','B']"]> two_stories)) ["A"; "B"])
    as [_ Hspec]; [vm_compute; reflexivity|].
  split.
  - apply (proj1 (Hspec " A ")). right. vm_compute. reflexivity.
  - destruct (proj2 (Hspec " My Magical Adventure ")) as (s' & H1 & H2 & _).
    + vm_compute. discriminate.
    + vm_compute. reflexivity.
    + exists s'. split; [exact H1 | exact H2].
Defined.

(** ** Records in the old format *)

(** X16. A record in the old format, a bare JSON array of turns, opens like
    any other story, with the default instruction; the first save of the
    open story stores it in the new format, and it reads back with the same
    turns. *)
Theorem legacy_record_upgraded (s : State) (title raw : string) (h : list Content) :
  storage s !! (HISTORY_KEY_PREFIX +:+ title) = Some raw ->
  JSON.parse raw = Some (history_to_json h) ->
  title <> "" ->
  exists s' : State,
    loadChat title s = Some s'
    /\ currentHistory s' = h
    /\ currentSystemInstruction s' = DEFAULT_SYSTEM_INSTRUCTION
    /\ storage s' !! (HISTORY_KEY_PREFIX +:+ title) = Some raw
    /\ storage (save_callback s') !! (HISTORY_KEY_PREFIX +:+ title)
       = Some (JSON.stringify (ChatData_to_json h DEFAULT_SYSTEM_INSTRUCTION))
    /\ getChatData (storage (save_callback s')) title
       = Normal {| history := history_to_json h;
                   systemInstruction := JSON.JStr DEFAULT_SYSTEM_INSTRUCTION |}.
Proof.
  intros Hraw Hparse Hne.
  assert (Hd : getChatData (storage s) title
               = Normal {| history := history_to_json h;
                           systemInstruction := JSON.JStr DEFAULT_SYSTEM_INSTRUCTION |}).
  { rewrite (getChatData_present _ _ _ Hraw).
    destruct (String.eqb_spec raw "") as [->|_]; [discriminate Hparse|].
    unfold getChatData_try, JSON_parse. rewrite Hparse. reflexivity. }
  destruct (loadChat_readable title s _ h DEFAULT_SYSTEM_INSTRUCTION Hd
              (history_of_json_to_json h) eq_refl)
    as (s' & Hload & Hh & Hi & Ht & _ & Hst & _).
  exists s'. split; [exact Hload|]. split; [exact Hh|]. split; [exact Hi|].
  assert (Hact : active_title s' = Some title)
    by (apply active_title_Some; split; assumption).
  assert (Hnew : storage (save_callback s') !! (HISTORY_KEY_PREFIX +:+ title)
                 = Some (JSON.stringify (ChatData_to_json h DEFAULT_SYSTEM_INSTRUCTION))).
  { unfold save_callback. rewrite Hact, Hh, Hi. apply lookup_insert_eq. }
  split; [|split; [exact Hnew|]].
  - rewrite Hst, lookup_insert_ne; [exact Hraw|].
    intros H. symmetry in H. exact (history_key_not_current _ H).
  - rewrite (getChatData_stored _ _ _ _ Hnew). reflexivity.
Qed.

Lemma legacy_record_upgraded_witness :
  exists s' : State,
    loadChat "legacy" (fresh example_store) = Some s'
    /\ currentHistory s' = [user_turn "hi"]
    /\ currentSystemInstruction s' = DEFAULT_SYSTEM_INSTRUCTION
    /\ storage s' !! (HISTORY_KEY_PREFIX +:+ "legacy")
       = Some (sq "[{'role':'user','parts':[{'text':'hi'}]}]")
    /\ storage (save_callback s') !! (HISTORY_KEY_PREFIX +:+ "legacy")
       = Some (JSON.stringify (ChatData_to_json [user_turn "hi"] DEFAULT_SYSTEM_INSTRUCTION))
    /\ getChatData (storage (save_callback s')) "legacy"
       = Normal {| history := history_to_json [user_turn "hi"];
                   systemInstruction := JSON.JStr DEFAULT_SYSTEM_INSTRUCTION |}.
Proof.
  apply (legacy_record_upgraded (fresh example_store) "legacy"
           (sq "[{'role':'user','parts':[{'text':'hi'}]}]") [user_turn "hi"]).
  - vm_compute. reflexivity.
  - vm_compute. reflexivity.
  - discriminate.
Defined.

(** ** Switching stories before the save *)

(** X17. A turn that is submitted and followed, before the save timer has
    fired, by a switch to another story is not stored under its own story:
    [loadChat] leaves the timer running, and when it fires it writes the
    story that is open then.  The record of the story the turn belongs to
    stays as it was before the turn. *)
Theorem switch_drops_pending_turn (s s1 sB : State) (tA tB userMessage : string)
    (req : Request) (wait : nat) :
  active_title s = Some tA ->
  sendMessage_begin userMessage s = (s1, Some req) ->
  tB <> tA -> tB <> "" ->
  loadChat tB s1 = Some sB ->
  1500 <= wait ->
  currentHistory s1 = currentHistory s ++ [user_turn userMessage]
  /\ storage (elapse wait sB) !! (HISTORY_KEY_PREFIX +:+ tA)
     = storage s !! (HISTORY_KEY_PREFIX +:+ tA)
  /\ writes (elapse wait sB)
     = writes s
       ++ [(CURRENT_CHAT_KEY, tB);
           (HISTORY_KEY_PREFIX +:+ tB,
            JSON.stringify (ChatData_to_json (currentHistory sB)
                                             (currentSystemInstruction sB)))].
Proof.
  intros HA Hbegin Hne HB Hload Hwait.
  rewrite (sendMessage_begin_active _ _ _ HA) in Hbegin.
  injection Hbegin as <- <-.
  destruct (loadChat_fields _ _ _ Hload) as (Htitle & Htimer & Hstore & Hw & _).
  cbn [awaiting saveTimer storage writes] in Htimer, Hstore, Hw.
  split; [reflexivity|].
  rewrite (elapse_fire wait sB 1500 Htimer Hwait).
  unfold save_callback.
  change (active_title (set_saveTimer None sB)) with (active_title sB).
  assert (Hact : active_title sB = Some tB)
    by (apply active_title_Some; split; assumption).
  rewrite Hact.
  cbn [saveChatData_st setItem storage writes set_saveTimer currentHistory
       currentSystemInstruction].
  split.
  - rewrite lookup_insert_ne by (intros H; apply history_key_inj in H; congruence).
    rewrite Hstore. apply lookup_insert_ne.
    intros H. symmetry in H. exact (history_key_not_current _ H).
  - rewrite Hw, <- app_assoc. reflexivity.
Qed.

Lemma switch_drops_pending_turn_witness :
  currentHistory awaiting_A = currentHistory open_A ++ [user_turn "look around"]
  /\ storage (elapse 1500 switched_to_B) !! (HISTORY_KEY_PREFIX +:+ "A")
     = storage open_A !! (HISTORY_KEY_PREFIX +:+ "A")
  /\ writes (elapse 1500 switched_to_B)
     = writes open_A
       ++ [(CURRENT_CHAT_KEY, "B");
           (HISTORY_KEY_PREFIX +:+ "B",
            JSON.stringify (ChatData_to_json (currentHistory switched_to_B)
                                             (currentSystemInstruction switched_to_B)))].
Proof.
  apply (switch_drops_pending_turn open_A awaiting_A switched_to_B "A" "B"
           "look around" request_A 1500).
  - vm_compute. reflexivity.
  - vm_compute. reflexivity.
  - discriminate.
  - discriminate.
  - vm_compute. reflexivity.
  - lia.
Defined.
